(** * gst_cycle: the GStreamer aging-test orchestrator

    A shallow embedding of [gstreamer_aging_test_1.10.0/src/gst_cycle.cpp]
    (and, in [Module Sdk191], of the older
    [hailo-sdk191/gstreamer_aging_test/src/gst_cycle.cpp]).

    The file-scope variables of the program are the fields of [state]; the
    GStreamer/GLib calls the program makes are recorded, in order, in the
    [trace] field; what the engine answers (does an element instantiate, does
    a pad link) is not decided by the program and is an input, [build_env]. *)

From Stdlib Require Import ZArith List String Ascii Bool Lia SpecFloat.
Import ListNotations.
Local Open Scope Z_scope.
Local Open Scope string_scope.

(** ** Machine integers *)

(** [uint64_t]: arithmetic modulo 2^64. *)
Definition UINT64_MODULUS : Z := 2 ^ 64.
Definition UINT64_MAX : Z := UINT64_MODULUS - 1.
Definition wrap_uint64 (z : Z) : Z := z mod UINT64_MODULUS.

(** [int]: 32 bits.  C++ leaves [INT_MAX + 1] undefined; the model takes the
    two's-complement result. *)
Definition INT_MIN : Z := - 2 ^ 31.
Definition INT_MAX : Z := 2 ^ 31 - 1.
Definition wrap_int (z : Z) : Z := (z + 2 ^ 31) mod 2 ^ 32 - 2 ^ 31.

(** [double]: IEEE 754 binary64, round to nearest even. *)
Definition double : Type := spec_float.
Definition double_prec : Z := 53.
Definition double_emax : Z := 1024.
Definition double_of_Z (z : Z) : double :=
  binary_normalize double_prec double_emax z 0 false.
Definition double_div (x y : double) : double :=
  SFdiv double_prec double_emax x y.

(** ** Engine objects and calls *)

Definition GstElement : Type := nat.   (* a pipeline handle *)
Definition GstPad : Type := nat.       (* a tee request pad *)
Definition guint : Type := nat.

Inductive GstState : Type :=
| GST_STATE_VOID_PENDING | GST_STATE_NULL | GST_STATE_READY
| GST_STATE_PAUSED | GST_STATE_PLAYING.

Inductive Phase : Type := NULL_STATE | PLAYING | PAUSED | READY.

(** Lines written to [std::cerr]. *)
Inductive log_line : Type :=
| LogSignal                                  (* [SIGNAL] SIGINT received  *)
| LogFps (stage : string) (fps : double)     (* [FPS] stage=.. fps=..     *)
| LogState (name : string)                   (* [STATE] -> name           *)
| LogSetStateResult                          (* [STATE] set_state ret=..  *)
| LogStateTick (tick mode : Z)               (* [STATE_TICK] #n (phase=m) *)
| LogError (msg : string)
| LogInfo (msg : string).

(** The calls into GStreamer, GLib and the C++ runtime, in program order. *)
Inductive event : Type :=
| EvStderr (l : log_line)
| EvPrintHelp (prog : string)
| EvGstInit
| EvSignal                                        (* std::signal(SIGINT, ..) *)
| EvParseLaunch (r : option GstElement)
| EvBusAddWatch (pipe : GstElement)
| EvBinAddBranches (pipe : GstElement) (host : string) (port : Z)
| EvRequestPad (pipe : GstElement) (pad : GstPad) (* request on the tee      *)
| EvUnrefPad (pad : GstPad)
| EvUnrefTee (pipe : GstElement)
| EvUnrefPipeline (pipe : option GstElement)
| EvSetState (pipe : option GstElement) (target : GstState)
| EvGetState (pipe : option GstElement)           (* waits up to 3 seconds   *)
| EvConnectHandoff (pipe : GstElement)
| EvLoopNew
| EvLoopRun
| EvLoopQuit
| EvLoopUnref.

(** What the engine answers while one tee branch is linked. *)
Record tee_link_env : Type := {
  request_pad_ok : bool;      (* gst_element_request_pad_simple != NULL *)
  static_pad_ok : bool;       (* gst_element_get_static_pad != NULL     *)
  pad_link_ok : bool          (* gst_pad_link == GST_PAD_LINK_OK        *)
}.

(** What the engine answers: during one [create_pipeline], and to
    [gst_init].  [gst_init] takes the GStreamer options out of the arguments
    it is given and may end the process on them ([--gst-version] prints the
    version and exits 0; an option that lacks its value, or an engine that
    cannot be initialised, exits 1): [gst_init_exits argv] is then the exit
    code, and [None] when [gst_init] returns. *)
Record build_env : Type := {
  gst_init_exits : list string -> option Z;
  parse_launch_ok : bool;
  launch_error : option string;   (* error->message, when the launch set it *)
  tee_found : bool;
  q_udp_ok : bool; pay_ok : bool; udp_ok : bool;
  q_fps_ok : bool; id_ok : bool; fsink_ok : bool;
  link_udp_branch_ok : bool;
  link_fps_branch_ok : bool;
  udp_tee : tee_link_env;
  fps_tee : tee_link_env
}.

(** ** GLib timeout sources *)

Inductive callback : Type := CbFpsLog | CbStateMachine.

Record GSource : Type := {
  src_id : guint;
  src_interval : nat;     (* seconds *)
  src_due : nat;          (* second at which it is next dispatched *)
  src_cb : callback
}.

(** ** Program state: the file-scope variables, then the world around them *)

Record state : Type := {
  loop : option bool;                 (* GMainLoop*; the bool: quit requested *)
  pipeline : option GstElement;
  frame_count : Z;                    (* std::atomic<uint64_t> *)
  last_frame_count : Z;               (* uint64_t *)
  current_stage : string;
  state_tick : Z;                     (* int *)
  state_timer_id : guint;
  tee_req_pad_udp : option GstPad;
  tee_req_pad_fps : option GstPad;
  phase : Phase;
  phase_mode : Z;                     (* int *)
  (* the world *)
  next_object : nat;                  (* next handle the engine hands out *)
  sources : list GSource;             (* timeouts attached to the context *)
  next_source_id : guint;
  clock : nat;                        (* seconds since start *)
  trace : list event
}.

Definition set_loop v s :=
  {| loop := v; pipeline := pipeline s; frame_count := frame_count s;
     last_frame_count := last_frame_count s; current_stage := current_stage s;
     state_tick := state_tick s; state_timer_id := state_timer_id s;
     tee_req_pad_udp := tee_req_pad_udp s; tee_req_pad_fps := tee_req_pad_fps s;
     phase := phase s; phase_mode := phase_mode s; next_object := next_object s;
     sources := sources s; next_source_id := next_source_id s;
     clock := clock s; trace := trace s |}.
Definition set_pipeline v s :=
  {| loop := loop s; pipeline := v; frame_count := frame_count s;
     last_frame_count := last_frame_count s; current_stage := current_stage s;
     state_tick := state_tick s; state_timer_id := state_timer_id s;
     tee_req_pad_udp := tee_req_pad_udp s; tee_req_pad_fps := tee_req_pad_fps s;
     phase := phase s; phase_mode := phase_mode s; next_object := next_object s;
     sources := sources s; next_source_id := next_source_id s;
     clock := clock s; trace := trace s |}.
Definition set_frame_count v s :=
  {| loop := loop s; pipeline := pipeline s; frame_count := v;
     last_frame_count := last_frame_count s; current_stage := current_stage s;
     state_tick := state_tick s; state_timer_id := state_timer_id s;
     tee_req_pad_udp := tee_req_pad_udp s; tee_req_pad_fps := tee_req_pad_fps s;
     phase := phase s; phase_mode := phase_mode s; next_object := next_object s;
     sources := sources s; next_source_id := next_source_id s;
     clock := clock s; trace := trace s |}.
Definition set_last_frame_count v s :=
  {| loop := loop s; pipeline := pipeline s; frame_count := frame_count s;
     last_frame_count := v; current_stage := current_stage s;
     state_tick := state_tick s; state_timer_id := state_timer_id s;
     tee_req_pad_udp := tee_req_pad_udp s; tee_req_pad_fps := tee_req_pad_fps s;
     phase := phase s; phase_mode := phase_mode s; next_object := next_object s;
     sources := sources s; next_source_id := next_source_id s;
     clock := clock s; trace := trace s |}.
Definition set_current_stage v s :=
  {| loop := loop s; pipeline := pipeline s; frame_count := frame_count s;
     last_frame_count := last_frame_count s; current_stage := v;
     state_tick := state_tick s; state_timer_id := state_timer_id s;
     tee_req_pad_udp := tee_req_pad_udp s; tee_req_pad_fps := tee_req_pad_fps s;
     phase := phase s; phase_mode := phase_mode s; next_object := next_object s;
     sources := sources s; next_source_id := next_source_id s;
     clock := clock s; trace := trace s |}.
Definition set_state_tick v s :=
  {| loop := loop s; pipeline := pipeline s; frame_count := frame_count s;
     last_frame_count := last_frame_count s; current_stage := current_stage s;
     state_tick := v; state_timer_id := state_timer_id s;
     tee_req_pad_udp := tee_req_pad_udp s; tee_req_pad_fps := tee_req_pad_fps s;
     phase := phase s; phase_mode := phase_mode s; next_object := next_object s;
     sources := sources s; next_source_id := next_source_id s;
     clock := clock s; trace := trace s |}.
Definition set_state_timer_id v s :=
  {| loop := loop s; pipeline := pipeline s; frame_count := frame_count s;
     last_frame_count := last_frame_count s; current_stage := current_stage s;
     state_tick := state_tick s; state_timer_id := v;
     tee_req_pad_udp := tee_req_pad_udp s; tee_req_pad_fps := tee_req_pad_fps s;
     phase := phase s; phase_mode := phase_mode s; next_object := next_object s;
     sources := sources s; next_source_id := next_source_id s;
     clock := clock s; trace := trace s |}.
Definition set_tee_req_pad_udp v s :=
  {| loop := loop s; pipeline := pipeline s; frame_count := frame_count s;
     last_frame_count := last_frame_count s; current_stage := current_stage s;
     state_tick := state_tick s; state_timer_id := state_timer_id s;
     tee_req_pad_udp := v; tee_req_pad_fps := tee_req_pad_fps s;
     phase := phase s; phase_mode := phase_mode s; next_object := next_object s;
     sources := sources s; next_source_id := next_source_id s;
     clock := clock s; trace := trace s |}.
Definition set_tee_req_pad_fps v s :=
  {| loop := loop s; pipeline := pipeline s; frame_count := frame_count s;
     last_frame_count := last_frame_count s; current_stage := current_stage s;
     state_tick := state_tick s; state_timer_id := state_timer_id s;
     tee_req_pad_udp := tee_req_pad_udp s; tee_req_pad_fps := v;
     phase := phase s; phase_mode := phase_mode s; next_object := next_object s;
     sources := sources s; next_source_id := next_source_id s;
     clock := clock s; trace := trace s |}.
Definition set_phase v s :=
  {| loop := loop s; pipeline := pipeline s; frame_count := frame_count s;
     last_frame_count := last_frame_count s; current_stage := current_stage s;
     state_tick := state_tick s; state_timer_id := state_timer_id s;
     tee_req_pad_udp := tee_req_pad_udp s; tee_req_pad_fps := tee_req_pad_fps s;
     phase := v; phase_mode := phase_mode s; next_object := next_object s;
     sources := sources s; next_source_id := next_source_id s;
     clock := clock s; trace := trace s |}.
Definition set_phase_mode v s :=
  {| loop := loop s; pipeline := pipeline s; frame_count := frame_count s;
     last_frame_count := last_frame_count s; current_stage := current_stage s;
     state_tick := state_tick s; state_timer_id := state_timer_id s;
     tee_req_pad_udp := tee_req_pad_udp s; tee_req_pad_fps := tee_req_pad_fps s;
     phase := phase s; phase_mode := v; next_object := next_object s;
     sources := sources s; next_source_id := next_source_id s;
     clock := clock s; trace := trace s |}.
Definition set_next_object v s :=
  {| loop := loop s; pipeline := pipeline s; frame_count := frame_count s;
     last_frame_count := last_frame_count s; current_stage := current_stage s;
     state_tick := state_tick s; state_timer_id := state_timer_id s;
     tee_req_pad_udp := tee_req_pad_udp s; tee_req_pad_fps := tee_req_pad_fps s;
     phase := phase s; phase_mode := phase_mode s; next_object := v;
     sources := sources s; next_source_id := next_source_id s;
     clock := clock s; trace := trace s |}.
Definition set_sources v s :=
  {| loop := loop s; pipeline := pipeline s; frame_count := frame_count s;
     last_frame_count := last_frame_count s; current_stage := current_stage s;
     state_tick := state_tick s; state_timer_id := state_timer_id s;
     tee_req_pad_udp := tee_req_pad_udp s; tee_req_pad_fps := tee_req_pad_fps s;
     phase := phase s; phase_mode := phase_mode s; next_object := next_object s;
     sources := v; next_source_id := next_source_id s;
     clock := clock s; trace := trace s |}.
Definition set_next_source_id v s :=
  {| loop := loop s; pipeline := pipeline s; frame_count := frame_count s;
     last_frame_count := last_frame_count s; current_stage := current_stage s;
     state_tick := state_tick s; state_timer_id := state_timer_id s;
     tee_req_pad_udp := tee_req_pad_udp s; tee_req_pad_fps := tee_req_pad_fps s;
     phase := phase s; phase_mode := phase_mode s; next_object := next_object s;
     sources := sources s; next_source_id := v;
     clock := clock s; trace := trace s |}.
Definition set_clock v s :=
  {| loop := loop s; pipeline := pipeline s; frame_count := frame_count s;
     last_frame_count := last_frame_count s; current_stage := current_stage s;
     state_tick := state_tick s; state_timer_id := state_timer_id s;
     tee_req_pad_udp := tee_req_pad_udp s; tee_req_pad_fps := tee_req_pad_fps s;
     phase := phase s; phase_mode := phase_mode s; next_object := next_object s;
     sources := sources s; next_source_id := next_source_id s;
     clock := v; trace := trace s |}.
Definition set_trace v s :=
  {| loop := loop s; pipeline := pipeline s; frame_count := frame_count s;
     last_frame_count := last_frame_count s; current_stage := current_stage s;
     state_tick := state_tick s; state_timer_id := state_timer_id s;
     tee_req_pad_udp := tee_req_pad_udp s; tee_req_pad_fps := tee_req_pad_fps s;
     phase := phase s; phase_mode := phase_mode s; next_object := next_object s;
     sources := sources s; next_source_id := next_source_id s;
     clock := clock s; trace := v |}.

(** The values the variables are initialised with at their declaration. *)
Definition initial_state : state :=
  {| loop := None; pipeline := None; frame_count := 0; last_frame_count := 0;
     current_stage := "NULL"; state_tick := 0; state_timer_id := 0%nat;
     tee_req_pad_udp := None; tee_req_pad_fps := None;
     phase := NULL_STATE; phase_mode := 3;
     next_object := 1%nat; sources := []; next_source_id := 1%nat;
     clock := 0%nat; trace := [] |}.

(** ** A state monad for the imperative code *)

Definition M (A : Type) : Type := state -> A * state.
Definition ret {A} (a : A) : M A := fun s => (a, s).
Definition bind {A B} (m : M A) (k : A -> M B) : M B :=
  fun s => let (a, s') := m s in k a s'.
Definition get {A} (f : state -> A) : M A := fun s => (f s, s).
Definition modify (f : state -> state) : M unit := fun s => (tt, f s).
Definition exec {A} (m : M A) (s : state) : state := snd (m s).

Declare Scope prog_scope.
Delimit Scope prog_scope with prog.
Notation "x <- m ;; k" := (bind m (fun x => k))
  (at level 61, m at next level, right associativity) : prog_scope.
Notation "m ;; k" := (bind m (fun _ => k))
  (at level 61, right associativity) : prog_scope.
Local Open Scope prog_scope.

Definition emit (ev : event) : M unit :=
  modify (fun s => set_trace (trace s ++ [ev]) s).
Definition cerr (l : log_line) : M unit := emit (EvStderr l).

(** The engine hands out a handle it has not handed out before. *)
Definition fresh_object : M nat :=
  fun s => (next_object s, set_next_object (S (next_object s)) s).

(** ** The program *)

(** [handle_sigint]: quit the loop, when there is one. *)
Definition handle_sigint : M unit :=
  cerr LogSignal ;;
  lp <- get loop ;;
  match lp with
  | Some _ => emit EvLoopQuit ;; modify (set_loop (Some true))
  | None => ret tt
  end.

(** [on_handoff]: [frame_count++] on the atomic counter, from the streaming
    thread.  Every other function touches [frame_count] by at most one atomic
    load, so interleaving whole calls loses no behaviour. *)
Definition on_handoff : M unit :=
  modify (fun s => set_frame_count (wrap_uint64 (frame_count s + 1)) s).

(** The literal [5.0]. *)
Definition five : double := S754_finite false 5629499534213120 (-50).

(** [fps_log_cb]: the 5-second sampler; returns [TRUE] to stay attached. *)
Definition fps_log_cb : M bool :=
  now <- get frame_count ;;
  last <- get last_frame_count ;;
  let diff := wrap_uint64 (now - last) in
  modify (set_last_frame_count now) ;;
  let fps := double_div (double_of_Z diff) five in
  stage <- get current_stage ;;
  cerr (LogFps stage fps) ;;
  ret true.

(** Messages the bus delivers to [bus_cb]. *)
Inductive GstMessage : Type :=
| GST_MESSAGE_ERROR (err dbg : option string)
| GST_MESSAGE_WARNING (err dbg : option string)
| GST_MESSAGE_STATE_CHANGED (src : GstElement) (old_s new_s pending : GstState)
| GST_MESSAGE_OTHER.

Definition gst_element_state_get_name (st : GstState) : string :=
  match st with
  | GST_STATE_VOID_PENDING => "VOID_PENDING"
  | GST_STATE_NULL => "NULL"
  | GST_STATE_READY => "READY"
  | GST_STATE_PAUSED => "PAUSED"
  | GST_STATE_PLAYING => "PLAYING"
  end.

Definition message_or_unknown (err : option string) : string :=
  match err with Some m => m | None => "unknown" end.

(** [bus_cb]: log and carry on. *)
Definition bus_cb (msg : GstMessage) : M bool :=
  match msg with
  | GST_MESSAGE_ERROR err dbg =>
      cerr (LogError ("[BUS][ERROR] " ++ message_or_unknown err)) ;;
      match dbg with
      | Some d => cerr (LogInfo ("[BUS][DEBUG] " ++ d))
      | None => ret tt
      end
  | GST_MESSAGE_WARNING err dbg =>
      cerr (LogInfo ("[BUS][WARN] " ++ message_or_unknown err)) ;;
      match dbg with
      | Some d => cerr (LogInfo ("[BUS][DEBUG] " ++ d))
      | None => ret tt
      end
  | GST_MESSAGE_STATE_CHANGED src old_s new_s pending =>
      p <- get pipeline ;;
      match p with
      | Some pipe =>
          if (pipe =? src)%nat
          then cerr (LogInfo ("[BUS][STATE] pipeline "
                              ++ gst_element_state_get_name old_s ++ " -> "
                              ++ gst_element_state_get_name new_s
                              ++ " (pending "
                              ++ gst_element_state_get_name pending ++ ")"))
          else ret tt
      | None => ret tt
      end
  | GST_MESSAGE_OTHER => ret tt
  end ;;
  ret true.

(** [set_pipeline_state]: the stage label first, then the engine call and the
    bounded wait for its result. *)
Definition set_pipeline_state (target : GstState) (name : string) : M unit :=
  modify (set_current_stage name) ;;
  cerr (LogState name) ;;
  p <- get pipeline ;;
  emit (EvSetState p target) ;;
  emit (EvGetState p) ;;
  cerr LogSetStateResult.

Definition g_source_remove (id : guint) : M unit :=
  modify (fun s =>
    set_sources (filter (fun src => negb (src_id src =? id)%nat) (sources s)) s).

(** [g_timeout_add_seconds]: a new source, due [seconds] from now.  The ids
    given out here count the timeouts of this program only; GLib numbers
    every source of the context, the bus watches among them, so that of an
    id only its being new, and later than the ones before it, carries over. *)
Definition g_timeout_add_seconds (seconds : nat) (cb : callback) : M guint :=
  fun s =>
    let id := next_source_id s in
    let src := {| src_id := id; src_interval := seconds;
                  src_due := (clock s + seconds)%nat; src_cb := cb |} in
    (id, set_next_source_id (S id) (set_sources (sources s ++ [src]) s)).

(** [arm_next_state_timer]: drop the timer that is there, attach a new one. *)
Definition arm_next_state_timer (seconds : nat) : M unit :=
  id <- get state_timer_id ;;
  (if negb (id =? 0)%nat
   then g_source_remove id ;; modify (set_state_timer_id 0%nat)
   else ret tt) ;;
  id' <- g_timeout_add_seconds seconds CbStateMachine ;;
  modify (set_state_timer_id id').

(** [link_tee_to_queue_and_keep_pad]: the requested pad when the link holds;
    otherwise nothing, the pad (if any) unreffed on the spot. *)
Definition link_tee_to_queue_and_keep_pad (t : tee_link_env) (pipe : GstElement)
  : M (option GstPad) :=
  tee_src <- (if request_pad_ok t
              then pad <- fresh_object ;;
                   emit (EvRequestPad pipe pad) ;;
                   ret (Some pad)
              else ret None) ;;
  match tee_src, static_pad_ok t with
  | Some pad, true =>
      if pad_link_ok t then ret (Some pad)
      else emit (EvUnrefPad pad) ;; ret None
  | Some pad, false => emit (EvUnrefPad pad) ;; ret None
  | None, _ => ret None
  end.

(** The test [!q_udp || !pay || !udp || !q_fps || !id || !fsink]. *)
Definition branch_element_missing (e : build_env) : bool :=
  negb (q_udp_ok e) || negb (pay_ok e) || negb (udp_ok e)
  || negb (q_fps_ok e) || negb (id_ok e) || negb (fsink_ok e).

(** [create_pipeline] *)
Definition create_pipeline (e : build_env) (host : string) (port : Z)
  : M (option GstElement) :=
  modify (set_tee_req_pad_udp None) ;;
  modify (set_tee_req_pad_fps None) ;;
  if negb (parse_launch_ok e) then
    emit (EvParseLaunch None) ;;
    cerr (LogError "[ERROR] gst_parse_launch failed") ;;
    match launch_error e with
    | Some message => cerr (LogError message)
    | None => ret tt
    end ;;
    ret None
  else
    pipe <- fresh_object ;;
    emit (EvParseLaunch (Some pipe)) ;;
    emit (EvBusAddWatch pipe) ;;
    if negb (tee_found e) then
      cerr (LogError "[ERROR] tee 'fourk_enc_tee' not found") ;;
      emit (EvUnrefPipeline (Some pipe)) ;;
      ret None
    else if branch_element_missing e then
      cerr (LogError "[ERROR] failed to create branch elements") ;;
      emit (EvUnrefTee pipe) ;;
      emit (EvUnrefPipeline (Some pipe)) ;;
      ret None
    else
      emit (EvBinAddBranches pipe host port) ;;
      (if negb (link_udp_branch_ok e)
       then cerr (LogError "[ERROR] failed to link UDP branch") else ret tt) ;;
      (if negb (link_fps_branch_ok e)
       then cerr (LogError "[ERROR] failed to link FPS branch") else ret tt) ;;
      pad_udp <- link_tee_to_queue_and_keep_pad (udp_tee e) pipe ;;
      modify (set_tee_req_pad_udp pad_udp) ;;
      match pad_udp with
      | None => cerr (LogError "[ERROR] failed to link tee -> UDP queue")
      | Some _ => ret tt
      end ;;
      pad_fps <- link_tee_to_queue_and_keep_pad (fps_tee e) pipe ;;
      modify (set_tee_req_pad_fps pad_fps) ;;
      match pad_fps with
      | None => cerr (LogError "[ERROR] failed to link tee -> FPS queue")
      | Some _ => ret tt
      end ;;
      emit (EvConnectHandoff pipe) ;;
      emit (EvUnrefTee pipe) ;;
      ret (Some pipe).

(** The two lines
    [if (tee_req_pad_udp) { gst_object_unref(tee_req_pad_udp); tee_req_pad_udp = nullptr; }]
    and the same for [tee_req_pad_fps], as written at each of the three
    places a pipeline is about to be unreffed. *)
Definition unref_tee_req_pads : M unit :=
  u <- get tee_req_pad_udp ;;
  match u with
  | Some pad => emit (EvUnrefPad pad) ;; modify (set_tee_req_pad_udp None)
  | None => ret tt
  end ;;
  f <- get tee_req_pad_fps ;;
  match f with
  | Some pad => emit (EvUnrefPad pad) ;; modify (set_tee_req_pad_fps None)
  | None => ret tt
  end.

(** The body shared by the [PAUSED] (3-phase) and [READY] cases. *)
Definition recreate_pipeline (e : build_env) : M unit :=
  set_pipeline_state GST_STATE_NULL "NULL" ;;
  unref_tee_req_pads ;;
  p <- get pipeline ;;
  emit (EvUnrefPipeline p) ;;
  p' <- create_pipeline e "10.0.0.2" 5000 ;;
  modify (set_pipeline p') ;;
  modify (set_phase NULL_STATE) ;;
  arm_next_state_timer 1.

(** [state_machine_cb]: one firing of the one-shot state timer; returns
    [G_SOURCE_REMOVE]. *)
Definition state_machine_cb (e : build_env) : M bool :=
  modify (fun s => set_state_tick (wrap_int (state_tick s + 1)) s) ;;
  tick <- get state_tick ;;
  mode <- get phase_mode ;;
  cerr (LogStateTick tick mode) ;;
  ph <- get phase ;;
  match ph with
  | NULL_STATE =>
      set_pipeline_state GST_STATE_PLAYING "PLAYING" ;;
      modify (set_phase PLAYING) ;;
      arm_next_state_timer 10
  | PLAYING =>
      set_pipeline_state GST_STATE_PAUSED "PAUSED" ;;
      modify (set_phase PAUSED) ;;
      arm_next_state_timer 1
  | PAUSED =>
      if (mode =? 4)%Z then
        set_pipeline_state GST_STATE_READY "READY" ;;
        modify (set_phase READY) ;;
        arm_next_state_timer 1
      else recreate_pipeline e
  | READY => recreate_pipeline e
  end ;;
  ret false.

(** ** [std::stoi] *)

Inductive cxx_exception : Type := invalid_argument | out_of_range.

Inductive result (A : Type) : Type :=
| Ok (a : A)
| Throw (ex : cxx_exception).
Arguments Ok {A} a.
Arguments Throw {A} ex.

Definition char_code (c : ascii) : Z := Z.of_N (N_of_ascii c).
Definition isspace (c : ascii) : bool :=
  (char_code c =? 32)%Z || ((9 <=? char_code c)%Z && (char_code c <=? 13)%Z).
Definition isdigit (c : ascii) : bool :=
  (48 <=? char_code c)%Z && (char_code c <=? 57)%Z.

Fixpoint skip_spaces (s : string) : string :=
  match s with
  | String c r => if isspace c then skip_spaces r else s
  | EmptyString => s
  end.

(** The value of the longest prefix of decimal digits. *)
Fixpoint digits_value (s : string) (acc : Z) : Z :=
  match s with
  | String c r =>
      if isdigit c then digits_value r (10 * acc + (char_code c - 48)) else acc
  | EmptyString => acc
  end.

Definition starts_with_digit (s : string) : bool :=
  match s with
  | String c _ => isdigit c
  | EmptyString => false
  end.

(** [std::stoi(str)], base 10: leading white space, an optional sign, then as
    many digits as there are; what follows them is not looked at.  No digit:
    [std::invalid_argument]; a value outside [int]: [std::out_of_range]. *)
Definition stoi (str : string) : result Z :=
  let s := skip_spaces str in
  let '(negative, body) :=
    match s with
    | String "-"%char r => (true, r)
    | String "+"%char r => (false, r)
    | _ => (false, s)
    end in
  if starts_with_digit body then
    let magnitude := digits_value body 0 in
    let v := if negative then - magnitude else magnitude in
    if (INT_MIN <=? v)%Z && (v <=? INT_MAX)%Z then Ok v else Throw out_of_range
  else Throw invalid_argument.

(** ** [main] *)

(** How the argument loop of [main] ends. *)
Inductive args_outcome : Type :=
| ArgsHelp (mode : Z)                       (* print_help; return 0             *)
| ArgsThrow (ex : cxx_exception) (mode : Z) (* std::stoi threw, nothing catches *)
| ArgsDone (mode : Z).                      (* the loop ran out of arguments    *)

(** The loop [for (int i = 1; i < argc; ++i)] over [argv[1..]], [mode] being
    [phase_mode]. *)
Fixpoint main_arg_loop (args : list string) (mode : Z) : args_outcome :=
  match args with
  | [] => ArgsDone mode
  | arg :: rest =>
      if (arg =? "--help")%string || (arg =? "-h")%string then ArgsHelp mode
      else if (arg =? "--phase")%string then
        match rest with
        | value :: rest' =>
            match stoi value with
            | Ok v => main_arg_loop rest' v
            | Throw ex => ArgsThrow ex mode
            end
        | [] => ArgsDone mode
        end
      else main_arg_loop rest mode
  end.

(** What the main loop dispatches, one call at a time. *)
Inductive dispatched : Type :=
| DoHandoff                          (* the identity element's handoff  *)
| DoFpsLog                           (* the 5-second timeout            *)
| DoStateMachine (e : build_env)     (* the state timeout; [e]: what the
                                        engine answers if it rebuilds   *)
| DoBusMessage (msg : GstMessage)
| DoSigint.

Definition dispatch (d : dispatched) : M unit :=
  match d with
  | DoHandoff => on_handoff
  | DoFpsLog => fps_log_cb ;; ret tt
  | DoStateMachine e => state_machine_cb e ;; ret tt
  | DoBusMessage msg => bus_cb msg ;; ret tt
  | DoSigint => handle_sigint
  end.

(** Dispatching a list of calls, one after the other. *)
Definition run (disp : dispatched -> M unit) (ops : list dispatched) (s : state)
  : state :=
  fold_left (fun s d => exec (disp d) s) ops s.

(** [g_main_loop_run]: dispatch until a quit is requested.  [true]: the loop
    returned; [false]: [ops] is used up and the loop is still running.
    [ops] are the calls in the order they are made; the loop is taken to
    see the quit as soon as the call that asked for it is over, where GLib
    first finishes the sources it had found ready in the same iteration. *)
Fixpoint g_main_loop_run (disp : dispatched -> M unit) (ops : list dispatched)
         (s : state) : bool * state :=
  match ops with
  | [] => (false, s)
  | d :: rest =>
      let s' := exec (disp d) s in
      match loop s' with
      | Some true => (true, s')
      | _ => g_main_loop_run disp rest s'
      end
  end.

(** [main] up to the call of [g_main_loop_run]. *)
Inductive startup : Type :=
| Exit (code : Z) (s : state)
| Abort (s : state)              (* std::terminate *)
| Run (s : state).

(** [gst_init(&argc, &argv)], given all of [argv]: the exit code when it ends
    the process, [None] when it returns. *)
Definition gst_init (e : build_env) (argv : list string) : M (option Z) :=
  emit EvGstInit ;;
  ret (gst_init_exits e argv).

(** From [g_main_loop_new] to the call of [g_main_loop_run]. *)
Definition main_enter_loop : M unit :=
  emit EvLoopNew ;;
  modify (set_loop (Some false)) ;;
  g_timeout_add_seconds 5 CbFpsLog ;;
  arm_next_state_timer 1 ;;
  cerr (LogInfo "[INFO] PLAYING=10s, PAUSED=1s, NULL=1s (recreate)") ;;
  emit EvLoopRun.

Definition main_startup (argv : list string) (e : build_env) : startup :=
  match main_arg_loop (tl argv) (phase_mode initial_state) with
  | ArgsHelp mode =>
      Exit 0 (exec (emit (EvPrintHelp (hd "" argv)))
                   (set_phase_mode mode initial_state))
  | ArgsThrow _ mode => Abort (set_phase_mode mode initial_state)
  | ArgsDone mode =>
      let s := set_phase_mode mode initial_state in
      if negb (mode =? 3)%Z && negb (mode =? 4)%Z then
        Exit (-1) (exec (cerr (LogError "[ERROR] --phase must be 3 or 4")) s)
      else
        let (exited, s) := gst_init e argv s in
        match exited with
        | Some code => Exit code s
        | None =>
            let s := exec (emit EvSignal) s in
            let (p, s) := create_pipeline e "10.0.0.2" 5000 s in
            let s := set_pipeline p s in
            match p with
            | None => Exit (-1) s
            | Some _ => Run (exec main_enter_loop s)
            end
        end
  end.

(** [main] after [g_main_loop_run] has returned. *)
Definition main_shutdown : M Z :=
  p <- get pipeline ;;
  emit (EvSetState p GST_STATE_NULL) ;;
  unref_tee_req_pads ;;
  p <- get pipeline ;;
  emit (EvUnrefPipeline p) ;;
  emit EvLoopUnref ;;
  ret 0.

Inductive outcome : Type :=
| Returned (code : Z) (s : state)
| Terminated (s : state)
| Looping (s : state).

Definition main (argv : list string) (e : build_env) (ops : list dispatched)
  : outcome :=
  match main_startup argv e with
  | Exit code s => Returned code s
  | Abort s => Terminated s
  | Run s =>
      match g_main_loop_run dispatch ops s with
      | (true, s') => let (code, s'') := main_shutdown s' in Returned code s''
      | (false, s') => Looping s'
      end
  end.

Definition final_state (o : outcome) : state :=
  match o with
  | Returned _ s => s
  | Terminated s => s
  | Looping s => s
  end.

(** ** The main context under a clock

    Time is counted in whole seconds and a callback takes none of it.  A
    timeout is dispatched in the second it is due: a callback that returns
    [TRUE] is scheduled again one interval later, one that returns [FALSE] is
    detached. *)

Definition source_attached (id : guint) (s : state) : bool :=
  existsb (fun src => (src_id src =? id)%nat) (sources s).

Definition reschedule (id : guint) : M unit :=
  modify (fun s =>
    set_sources
      (map (fun src =>
              if (src_id src =? id)%nat
              then {| src_id := src_id src; src_interval := src_interval src;
                      src_due := (clock s + src_interval src)%nat;
                      src_cb := src_cb src |}
              else src)
           (sources s)) s).

Definition dispatch_source (envs : nat -> build_env) (src : GSource) : M unit :=
  attached <- get (source_attached (src_id src)) ;;
  if attached then
    now <- get clock ;;
    keep <- match src_cb src with
            | CbFpsLog => fps_log_cb
            | CbStateMachine => state_machine_cb (envs now)
            end ;;
    if keep then reschedule (src_id src) else g_source_remove (src_id src)
  else ret tt.

Definition second_elapses (envs : nat -> build_env) : M unit :=
  modify (fun s => set_clock (S (clock s)) s) ;;
  due <- get (fun s => filter (fun src => (src_due src <=? clock s)%nat) (sources s)) ;;
  fold_right (fun src rest => dispatch_source envs src ;; rest) (ret tt) due.

Fixpoint elapse (envs : nat -> build_env) (seconds : nat) (s : state) : state :=
  match seconds with
  | O => s
  | S n => elapse envs n (exec (second_elapses envs) s)
  end.

(** ** The older program (hailo-sdk191)

    Same variables, minus the two kept pads; always four phases; the tee pad
    is unreffed inside the link helper; [main] reads no argument itself and
    only hands them to [gst_init]. *)

Module Sdk191.

Definition set_pipeline_state (target : GstState) (name : string) : M unit :=
  modify (set_current_stage name) ;;
  cerr (LogState name) ;;
  p <- get pipeline ;;
  emit (EvSetState p target).

(** [link_tee_to_queue] *)
Definition link_tee_to_queue (t : tee_link_env) (pipe : GstElement) : M bool :=
  tee_src <- (if request_pad_ok t
              then pad <- fresh_object ;;
                   emit (EvRequestPad pipe pad) ;;
                   ret (Some pad)
              else ret None) ;;
  match tee_src, static_pad_ok t with
  | Some pad, true => emit (EvUnrefPad pad) ;; ret (pad_link_ok t)
  | Some pad, false => emit (EvUnrefPad pad) ;; ret false
  | None, _ => ret false
  end.

Definition create_pipeline (e : build_env) (host : string) (port : Z)
  : M (option GstElement) :=
  if negb (parse_launch_ok e) then
    emit (EvParseLaunch None) ;;
    match launch_error e with
    | Some message => cerr (LogError message)
    | None => ret tt
    end ;;
    ret None
  else
    pipe <- fresh_object ;;
    emit (EvParseLaunch (Some pipe)) ;;
    emit (EvBinAddBranches pipe host port) ;;
    link_tee_to_queue (udp_tee e) pipe ;;
    link_tee_to_queue (fps_tee e) pipe ;;
    emit (EvConnectHandoff pipe) ;;
    ret (Some pipe).

Definition state_machine_cb (e : build_env) : M bool :=
  modify (fun s => set_state_tick (wrap_int (state_tick s + 1)) s) ;;
  tick <- get state_tick ;;
  cerr (LogStateTick tick 4) ;;
  ph <- get phase ;;
  match ph with
  | NULL_STATE =>
      set_pipeline_state GST_STATE_PLAYING "PLAYING" ;;
      modify (set_phase PLAYING) ;;
      arm_next_state_timer 10
  | PLAYING =>
      set_pipeline_state GST_STATE_PAUSED "PAUSED" ;;
      modify (set_phase PAUSED) ;;
      arm_next_state_timer 1
  | PAUSED =>
      set_pipeline_state GST_STATE_READY "READY" ;;
      modify (set_phase READY) ;;
      arm_next_state_timer 1
  | READY =>
      set_pipeline_state GST_STATE_NULL "NULL" ;;
      p <- get pipeline ;;
      emit (EvUnrefPipeline p) ;;
      p' <- create_pipeline e "10.0.0.2" 5000 ;;
      modify (set_pipeline p') ;;
      modify (set_phase NULL_STATE) ;;
      arm_next_state_timer 1
  end ;;
  ret false.

Definition dispatch (d : dispatched) : M unit :=
  match d with
  | DoHandoff => on_handoff
  | DoFpsLog => fps_log_cb ;; ret tt
  | DoStateMachine e => state_machine_cb e ;; ret tt
  | DoBusMessage _ => ret tt           (* no bus watch in this version *)
  | DoSigint => handle_sigint
  end.

Definition main (argv : list string) (e : build_env)
           (ops : list dispatched) : outcome :=
  let (exited, s) := gst_init e argv initial_state in
  match exited with
  | Some code => Returned code s
  | None =>
      let s := exec (emit EvSignal) s in
      let (p, s) := create_pipeline e "10.0.0.2" 5000 s in
      let s := set_pipeline p s in
      match p with
      | None => Returned (-1) s
      | Some _ =>
          let s := exec (emit EvLoopNew ;;
                         modify (set_loop (Some false)) ;;
                         g_timeout_add_seconds 5 CbFpsLog ;;
                         arm_next_state_timer 1 ;;
                         cerr (LogInfo "[INFO] PLAYING=30s, PAUSED=1s, NULL=1s (recreate)") ;;
                         emit EvLoopRun) s in
          match g_main_loop_run dispatch ops s with
          | (true, s') =>
              Returned 0 (exec (p <- get pipeline ;;
                                emit (EvSetState p GST_STATE_NULL) ;;
                                emit (EvUnrefPipeline p) ;;
                                emit EvLoopUnref) s')
          | (false, s') => Looping s'
          end
      end
  end.

End Sdk191.

(** ** The NV12 to RGB converter ([nv12_to_rgb])

    The buffers are lists of bytes.  A read or a write past the end of a
    buffer has no defined result in C, nor has an [int] computation whose
    value is no [int]: here they are [None], and so is then the whole
    conversion. *)

Definition in_int (z : Z) : bool := (INT_MIN <=? z)%Z && (z <=? INT_MAX)%Z.

Definition read_byte (buf : list Z) (index : Z) : option Z :=
  if (index <? 0)%Z then None else nth_error buf (Z.to_nat index).

Fixpoint update (buf : list Z) (n : nat) (v : Z) : list Z :=
  match buf, n with
  | [], _ => []
  | _ :: rest, O => v :: rest
  | b :: rest, S m => b :: update rest m v
  end.

Definition write_byte (buf : list Z) (index v : Z) : option (list Z) :=
  if (index <? 0)%Z || (Z.of_nat (List.length buf) <=? index)%Z then None
  else Some (update buf (Z.to_nat index) v).

(** [if (R < 0) R = 0; if (R > 255) R = 255;] *)
Definition clamp_byte (v : Z) : Z :=
  let v := if (v <? 0)%Z then 0 else v in
  if (v >? 255)%Z then 255 else v.

(** One pixel: the three bytes stored for [Y], [U], [V]. *)
Definition yuv_to_rgb (Y U V : Z) : list Z :=
  let C := Y - 16 in
  let D := U - 128 in
  let E := V - 128 in
  let R := Z.shiftr (298 * C + 409 * E + 128) 8 in
  let G := Z.shiftr (298 * C - 100 * D - 208 * E + 128) 8 in
  let B := Z.shiftr (298 * C + 516 * D + 128) 8 in
  [clamp_byte R; clamp_byte G; clamp_byte B].

(** The reads of the inner loop at column [i] of row [j], and the pixel
    made of them. *)
Definition nv12_pixel_at (nv12 : list Z) (width height i j : Z)
  : option (list Z) :=
  let frameSize := width * height in
  let yIndex := j * width + i in
  let uvIndex := Z.quot j 2 * width + Z.land i (Z.lnot 1) in
  if in_int (j * width) && in_int yIndex
     && in_int (Z.quot j 2 * width) && in_int uvIndex && in_int (uvIndex + 1)
  then
    match read_byte nv12 yIndex,
          read_byte nv12 (frameSize + uvIndex),
          read_byte nv12 (frameSize + uvIndex + 1) with
    | Some Y, Some U, Some V => Some (yuv_to_rgb Y U V)
    | _, _, _ => None
    end
  else None.

(** The stores [rgb[(j*width + i)*3 + 0] = R], [.. + 1] and [.. + 2]. *)
Fixpoint store_from (rgb : list Z) (index : Z) (values : list Z)
  : option (list Z) :=
  match values with
  | [] => Some rgb
  | v :: rest =>
      match write_byte rgb index v with
      | Some rgb' => store_from rgb' (index + 1) rest
      | None => None
      end
  end.

Definition store_pixel (rgb : list Z) (width i j : Z) (pixel : list Z)
  : option (list Z) :=
  let index := (j * width + i) * 3 in
  if in_int index && in_int (index + 2) then store_from rgb index pixel
  else None.

(** One turn of the inner loop. *)
Definition nv12_step (nv12 : list Z) (width height : Z)
           (rgb : option (list Z)) (at_ : Z * Z) : option (list Z) :=
  match rgb with
  | Some buf =>
      match nv12_pixel_at nv12 width height (fst at_) (snd at_) with
      | Some pixel => store_pixel buf width (fst at_) (snd at_) pixel
      | None => None
      end
  | None => None
  end.

(** [(i, j)] as the two loops go through them: rows from the top, columns
    from the left. *)
Definition nv12_coordinates (width height : Z) : list (Z * Z) :=
  flat_map
    (fun j => map (fun i => (Z.of_nat i, Z.of_nat j)) (seq 0 (Z.to_nat width)))
    (seq 0 (Z.to_nat height)).

(** [nv12_to_rgb(nv12, rgb, width, height)]: what [rgb] holds afterwards. *)
Definition nv12_to_rgb (nv12 rgb : list Z) (width height : Z)
  : option (list Z) :=
  if in_int (width * height) then
    fold_left (nv12_step nv12 width height) (nv12_coordinates width height)
              (Some rgb)
  else None.

(** The sizes [main] of the converter allocates: [width * height * 3 / 2]
    bytes for the frame it reads, [width * height * 3] for the picture. *)
Definition nv12_frame_bytes (width height : Z) : Z :=
  Z.quot (width * height * 3) 2.

Definition rgb_frame_bytes (width height : Z) : Z := width * height * 3.

(** ** The capture filter ([gstrawcapturebypass])

    [transform_ip] sees the files it touches: the flag [/tmp/capture_flag]
    and the output [kevin_nv12.raw].  What the system answers to [fopen],
    [gst_buffer_map] and [unlink] comes with each call; [fwrite] writes all
    it is given. *)

Module RawCapture.

Inductive GstFlowReturn : Type := GST_FLOW_OK | GST_FLOW_ERROR.

Inductive output : Type :=
| Print (line : string)        (* g_print   *)
| Warning (line : string).     (* g_warning *)

Record files : Type := {
  capture_flag : bool;                 (* /tmp/capture_flag exists      *)
  kevin_nv12_raw : option (list Z);    (* the bytes of kevin_nv12.raw   *)
  console : list output
}.

Record answers : Type := {
  fopen_ok : bool;
  buffer_map_ok : bool;
  unlink_ok : bool
}.

Definition all_ok : answers :=
  {| fopen_ok := true; buffer_map_ok := true; unlink_ok := true |}.

(** [gst_rawcapture_bypass_transform_ip] on a buffer holding [data]. *)
Definition transform_ip (a : answers) (data : list Z) (fs : files)
  : GstFlowReturn * files :=
  if capture_flag fs then
    let fs1 :=
      if fopen_ok a then
        (* "wb": the file is there and empty *)
        if buffer_map_ok a then
          {| capture_flag := capture_flag fs;
             kevin_nv12_raw := Some data;
             console := (console fs
                         ++ [Print "Captured NV12 frame to kevin_nv12.raw"])%list |}
        else
          {| capture_flag := capture_flag fs;
             kevin_nv12_raw := Some [];
             console := console fs |}
      else
        {| capture_flag := capture_flag fs;
           kevin_nv12_raw := kevin_nv12_raw fs;
           console := (console fs
                       ++ [Warning "Could not open kevin_nv12.raw for writing"])%list |} in
    (GST_FLOW_OK,
     {| capture_flag := negb (unlink_ok a);
        kevin_nv12_raw := kevin_nv12_raw fs1;
        console := console fs1 |})
  else (GST_FLOW_OK, fs).

(** The buffers of a stream, one call each. *)
Definition stream (calls : list (answers * list Z)) (fs : files) : files :=
  fold_left (fun fs call => snd (transform_ip (fst call) (snd call) fs))
            calls fs.

End RawCapture.

(** ** The runner's command line ([medialib_gst_runner])

    [operator>>] on a string stream takes the next maximal run of characters
    that are not white space. *)

Module MediaRunner.

Fixpoint words_from (s : string) (current : string) : list string :=
  match s with
  | EmptyString =>
      match current with EmptyString => [] | _ => [current] end
  | String c r =>
      if isspace c then
        match current with
        | EmptyString => words_from r ""
        | _ => current :: words_from r ""
        end
      else words_from r (current ++ String c "")
  end.

Definition words (s : string) : list string := words_from s "".

(** [get_string_vector_from_commandline]: the words, the lone backslashes
    of line continuations left out. *)
Definition get_string_vector_from_commandline (commandline : string)
  : list string :=
  filter (fun token => negb (token =? "\")%string) (words commandline).

Record PipelineConfig : Type := {
  output_dir : string;
  profile_name : string;
  udp_host : string;
  udp_port : Z
}.

Definition default_config : PipelineConfig :=
  {| output_dir := ""; profile_name := ""; udp_host := "10.0.0.2";
     udp_port := 5000 |}.

Definition set_output_dir v c :=
  {| output_dir := v; profile_name := profile_name c;
     udp_host := udp_host c; udp_port := udp_port c |}.
Definition set_profile_name v c :=
  {| output_dir := output_dir c; profile_name := v;
     udp_host := udp_host c; udp_port := udp_port c |}.
Definition set_udp_host v c :=
  {| output_dir := output_dir c; profile_name := profile_name c;
     udp_host := v; udp_port := udp_port c |}.
Definition set_udp_port v c :=
  {| output_dir := output_dir c; profile_name := profile_name c;
     udp_host := udp_host c; udp_port := v |}.

(** How [parse_arguments] ends. *)
Inductive parsed : Type :=
| Usage                          (* argc < 2: print_usage; return false   *)
| HelpExit                       (* print_usage; exit(0)                   *)
| NullString                     (* std::string built from argv[argc]      *)
| OutOfRange                     (* argslist[1] past the end of argslist   *)
| StoiThrows (ex : cxx_exception)
| Unknown (arg : string)         (* "Unknown argument"; return false       *)
| Accepted (medialib_config_path args_file_path : string)
           (config : PipelineConfig).

(** The first loop: a help flag, or the first [-f]/[--args_file]. *)
Inductive scanned : Type :=
| ScanHelp
| ScanFile (path : option string)   (* [None]: the flag was the last word *)
| ScanNothing.

Fixpoint scan (args : list string) : scanned :=
  match args with
  | [] => ScanNothing
  | arg :: rest =>
      if (arg =? "-h")%string || (arg =? "--help")%string then ScanHelp
      else if (arg =? "-f")%string || (arg =? "--args_file")%string then
        ScanFile (match rest with path :: _ => Some path | [] => None end)
      else scan rest
  end.

(** The last loop, over [argslist[2..]]. *)
Inductive options_end : Type :=
| OptionsDone (config : PipelineConfig)
| OptionsThrow (ex : cxx_exception)
| OptionsUnknown (arg : string).

Fixpoint options (args : list string) (config : PipelineConfig)
  : options_end :=
  match args with
  | [] => OptionsDone config
  | arg :: rest =>
      match rest with
      | value :: rest' =>
          if (arg =? "--profile")%string
          then options rest' (set_profile_name value config)
          else if (arg =? "--udp-host")%string
          then options rest' (set_udp_host value config)
          else if (arg =? "--udp-port")%string
          then match stoi value with
               | Ok v => options rest' (set_udp_port v config)
               | Throw ex => OptionsThrow ex
               end
          else OptionsUnknown arg
      | [] => OptionsUnknown arg
      end
  end.

(** [read_args_file_to_string]: the words of each line; a file that does
    not open has no lines. *)
Fixpoint lines_from (s : string) (current : string) : list string :=
  match s with
  | EmptyString =>
      match current with EmptyString => [] | _ => [current] end
  | String c r =>
      if (char_code c =? 10)%Z then current :: lines_from r ""
      else lines_from r (current ++ String c "")
  end.

Definition read_args_file_to_string (content : option string) : list string :=
  match content with
  | Some text => flat_map words (lines_from text "")
  | None => []
  end.

(** [parse_arguments]: [read] gives the text of a file, [pid] the digits
    of [getpid()]; [config] is the caller's, as it stands. *)
Definition parse_arguments (read : string -> option string) (pid : string)
           (argv : list string) (config : PipelineConfig) : parsed :=
  match argv with
  | [] | [_] => Usage
  | _ :: args =>
      let after_scan (args_file_path : string) (argslist : list string) :=
        match argslist with
        | _ :: medialib_config_path :: rest =>
            match options rest
                    (set_output_dir ("/tmp/medialib_gst_" ++ pid) config) with
            | OptionsDone config' =>
                Accepted medialib_config_path args_file_path config'
            | OptionsThrow ex => StoiThrows ex
            | OptionsUnknown arg => Unknown arg
            end
        | _ => OutOfRange
        end in
      match scan args with
      | ScanHelp => HelpExit
      | ScanFile None => NullString
      | ScanFile (Some path) =>
          after_scan path (read_args_file_to_string (read path))
      | ScanNothing => after_scan "" argv
      end
  end.

End MediaRunner.

(** ** Vocabulary of the properties *)

(** Engine answers used in examples. *)
Definition tee_link_fine : tee_link_env :=
  {| request_pad_ok := true; static_pad_ok := true; pad_link_ok := true |}.

(** The exits of [gst_init] that the environments below go by: with
    [--gst-version] among the arguments it exits 0; with a GStreamer option
    that takes a value as the last argument, without one, it exits 1. *)
Definition gst_option_takes_value (arg : string) : bool :=
  existsb (String.eqb arg)
    ["--gst-debug-level"; "--gst-debug"; "--gst-debug-color-mode";
     "--gst-plugin-path"; "--gst-plugin-load"].

Definition gst_init_documented (argv : list string) : option Z :=
  if existsb (String.eqb "--gst-version") (tl argv) then Some 0
  else if gst_option_takes_value (last (tl argv) "") then Some 1
  else None.

Definition all_fine : build_env :=
  {| gst_init_exits := gst_init_documented; launch_error := None;
     parse_launch_ok := true; tee_found := true;
     q_udp_ok := true; pay_ok := true; udp_ok := true;
     q_fps_ok := true; id_ok := true; fsink_ok := true;
     link_udp_branch_ok := true; link_fps_branch_ok := true;
     udp_tee := tee_link_fine; fps_tee := tee_link_fine |}.

(** The engine cannot parse the launch line. *)
Definition launch_fails : build_env :=
  {| gst_init_exits := gst_init_documented;
     launch_error := Some "no element hailofrontendbinsrc";
     parse_launch_ok := false; tee_found := true;
     q_udp_ok := true; pay_ok := true; udp_ok := true;
     q_fps_ok := true; id_ok := true; fsink_ok := true;
     link_udp_branch_ok := true; link_fps_branch_ok := true;
     udp_tee := tee_link_fine; fps_tee := tee_link_fine |}.

(** The tee pad of the FPS branch does not link to its queue. *)
Definition fps_link_fails : build_env :=
  {| gst_init_exits := gst_init_documented; launch_error := None;
     parse_launch_ok := true; tee_found := true;
     q_udp_ok := true; pay_ok := true; udp_ok := true;
     q_fps_ok := true; id_ok := true; fsink_ok := true;
     link_udp_branch_ok := true; link_fps_branch_ok := true;
     udp_tee := tee_link_fine;
     fps_tee := {| request_pad_ok := true; static_pad_ok := true;
                   pad_link_ok := false |} |}.

(** The [identity] element of the FPS branch cannot be made. *)
Definition identity_missing : build_env :=
  {| gst_init_exits := gst_init_documented; launch_error := None;
     parse_launch_ok := true; tee_found := true;
     q_udp_ok := true; pay_ok := true; udp_ok := true;
     q_fps_ok := true; id_ok := false; fsink_ok := true;
     link_udp_branch_ok := true; link_fps_branch_ok := true;
     udp_tee := tee_link_fine; fps_tee := tee_link_fine |}.

(** Where [main] stands, in mode [mode], when [gst_init] has returned and
    the SIGINT handler is installed. *)
Definition initialised (mode : Z) : state :=
  exec (emit EvGstInit ;; emit EvSignal) (set_phase_mode mode initial_state).

(** An argument the loop of [main] steps over. *)
Definition plain_token (arg : string) : bool :=
  negb ((arg =? "--help")%string || (arg =? "-h")%string
        || (arg =? "--phase")%string).

(** The label [set_pipeline_state] is given for each phase. *)
Definition phase_label (ph : Phase) : string :=
  match ph with
  | NULL_STATE => "NULL"
  | PLAYING => "PLAYING"
  | PAUSED => "PAUSED"
  | READY => "READY"
  end.

(** What holds of the counters and the stage label whenever a callback
    starts. *)
Definition well_formed (s : state) : Prop :=
  current_stage s = phase_label (phase s)
  /\ 0 <= frame_count s < UINT64_MODULUS
  /\ 0 <= last_frame_count s < UINT64_MODULUS.

(** The double 30.0. *)
Definition thirty : double := S754_finite false 8444249301319680 (-48).

(** What the clocked context and the phase machine go by. *)
Definition tview (s : state)
  : Phase * Z * Z * guint * list GSource * guint * nat :=
  (phase s, phase_mode s, state_tick s, state_timer_id s, sources s,
   next_source_id s, clock s).

(** A running program whose counter has reached the largest [uint64_t]. *)
Definition counter_at_max : state :=
  set_frame_count UINT64_MAX initial_state.

Definition three_phase_cycle : list Phase := [NULL_STATE; PLAYING; PAUSED].
Definition four_phase_cycle : list Phase := [NULL_STATE; PLAYING; PAUSED; READY].

(** The phase a cycle is in after [n] firings that started at its head. *)
Definition phase_of_cycle (cycle : list Phase) (n : nat) : Phase :=
  nth (n mod List.length cycle) cycle NULL_STATE.

(** The cycle [state_machine_cb] follows in each mode: anything but 4 takes
    the three-phase branch. *)
Definition cycle_of_mode (mode : Z) : list Phase :=
  if (mode =? 4)%Z then four_phase_cycle else three_phase_cycle.

(** The phases entered by the firings among [ops], in order. *)
Fixpoint phases_visited (disp : dispatched -> M unit) (ops : list dispatched)
         (s : state) : list Phase :=
  match ops with
  | [] => []
  | d :: rest =>
      let s' := exec (disp d) s in
      match d with
      | DoStateMachine _ => phase s' :: phases_visited disp rest s'
      | _ => phases_visited disp rest s'
      end
  end.

(** The transition table of [state_machine_cb]. *)
Definition next_phase (mode : Z) (ph : Phase) : Phase :=
  match ph with
  | NULL_STATE => PLAYING
  | PLAYING => PAUSED
  | PAUSED => if (mode =? 4)%Z then READY else NULL_STATE
  | READY => NULL_STATE
  end.

(** The part of the state the phase machine is about. *)
Definition machine (s : state) : Phase * Z * Z * string :=
  (phase s, phase_mode s, state_tick s, current_stage s).

Definition is_firing (d : dispatched) : bool :=
  match d with DoStateMachine _ => true | _ => false end.
Definition is_handoff (d : dispatched) : bool :=
  match d with DoHandoff => true | _ => false end.
Definition is_fps_log (d : dispatched) : bool :=
  match d with DoFpsLog => true | _ => false end.

Definition count {A} (f : A -> bool) (l : list A) : nat :=
  List.length (filter f l).

(** The pads the program holds on to. *)
Definition opt_list {A} (o : option A) : list A :=
  match o with Some a => [a] | None => [] end.
Definition kept_pads (s : state) : list GstPad :=
  opt_list (tee_req_pad_udp s) ++ opt_list (tee_req_pad_fps s).

(** *** The connector ledger

    Reading a trace from its start: which pads are requested and not yet
    released and of which pipeline, which pads have been released, which
    pipelines have been unreffed.  The audit stops ([None]) at the first
    event that: requests a pad already seen or on an unreffed pipeline;
    releases a pad that is not outstanding (never requested, or released
    before); unrefs a pipeline while a pad is outstanding, or a second time. *)

Record ledger : Type := {
  outstanding : list (GstPad * GstElement);
  released : list GstPad;
  torn_down : list GstElement
}.

Definition empty_ledger : ledger :=
  {| outstanding := []; released := []; torn_down := [] |}.

Definition mem (n : nat) (l : list nat) : bool := existsb (Nat.eqb n) l.

Definition audit_step (L : ledger) (ev : event) : option ledger :=
  match ev with
  | EvRequestPad pipe pad =>
      if mem pad (map fst (outstanding L)) || mem pad (released L)
         || mem pipe (torn_down L)
      then None
      else Some {| outstanding := outstanding L ++ [(pad, pipe)];
                   released := released L; torn_down := torn_down L |}
  | EvUnrefPad pad =>
      if mem pad (map fst (outstanding L))
      then Some {| outstanding :=
                     filter (fun x => negb (fst x =? pad)%nat) (outstanding L);
                   released := pad :: released L; torn_down := torn_down L |}
      else None
  | EvUnrefPipeline (Some pipe) =>
      match outstanding L with
      | [] => if mem pipe (torn_down L) then None
              else Some {| outstanding := []; released := released L;
                           torn_down := pipe :: torn_down L |}
      | _ :: _ => None
      end
  | _ => Some L
  end.

Definition audit_from (L : option ledger) (tr : list event) : option ledger :=
  fold_left (fun acc ev => match acc with
                           | Some L => audit_step L ev
                           | None => None
                           end) tr L.

Definition audit (tr : list event) : option ledger :=
  audit_from (Some empty_ledger) tr.

Definition is_request (ev : event) : bool :=
  match ev with EvRequestPad _ _ => true | _ => false end.
Definition is_release (ev : event) : bool :=
  match ev with EvUnrefPad _ => true | _ => false end.
Definition is_release_of (pad : GstPad) (ev : event) : bool :=
  match ev with EvUnrefPad h => (h =? pad)%nat | _ => false end.
Definition is_request_on (pipe : GstElement) (pad : GstPad) (ev : event) : bool :=
  match ev with
  | EvRequestPad p h => (p =? pipe)%nat && (h =? pad)%nat
  | _ => false
  end.

(** A trace and the ledger its audit ends with tell the same story. *)
Record sound (tr : list event) (L : ledger) : Prop := {
  sound_nodup : NoDup (map fst (outstanding L));
  sound_released :
    forall pad,
      count (is_release_of pad) tr
      = if mem pad (released L) then 1%nat else 0%nat;
  sound_apart :
    forall pad, In pad (map fst (outstanding L)) -> mem pad (released L) = false;
  sound_counts :
    count is_request tr
    = (count is_release tr + List.length (outstanding L))%nat;
  sound_requested :
    forall pipe pad,
      In (EvRequestPad pipe pad) tr ->
      In (pad, pipe) (outstanding L) \/ mem pad (released L) = true;
  sound_torn_down :
    forall pipe,
      In (EvUnrefPipeline (Some pipe)) tr -> mem pipe (torn_down L) = true
}.

(** No handle in the ledger is one the engine has yet to hand out. *)
Definition ledger_below (L : ledger) (n : nat) : Prop :=
  (forall x, In x (outstanding L) -> (fst x < n)%nat /\ (snd x < n)%nat)
  /\ (forall pad, In pad (released L) -> (pad < n)%nat)
  /\ (forall pipe, In pipe (torn_down L) -> (pipe < n)%nat).

(** The audit of [tr] succeeds, with exactly [pads] outstanding, all of the
    pipeline [owner], which is not unreffed yet. *)
Definition books_at (tr : list event) (n : nat) (owner : option GstElement)
           (pads : list GstPad) : Prop :=
  exists L,
    audit tr = Some L
    /\ ledger_below L n
    /\ NoDup pads
    /\ match owner with
       | Some pipe =>
           outstanding L = map (fun pad => (pad, pipe)) pads
           /\ (pipe < n)%nat /\ mem pipe (torn_down L) = false
       | None => outstanding L = [] /\ pads = []
       end.

Definition books (s : state) : Prop :=
  books_at (trace s) (next_object s) (pipeline s) (kept_pads s).

(** What the books go by. *)
Definition bview (s : state)
  : list event * nat * option GstElement * option GstPad * option GstPad :=
  (trace s, next_object s, pipeline s, tee_req_pad_udp s, tee_req_pad_fps s).

(** The books of the older program, which keeps no pad. *)
Definition books_sdk191 (s : state) : Prop :=
  books_at (trace s) (next_object s) (pipeline s) [].

(** The audit of the trace succeeds and the pads outstanding are the pads
    held. *)
Definition accounted (tr : list event) (held : list GstPad) : Prop :=
  exists L, audit tr = Some L /\ map fst (outstanding L) = held.

(** In a trace: no pad is released twice; when a pipeline is unreffed, as
    many pads have been released as requested; and each pad requested on
    that pipeline was requested before, released once before, and is not
    released after. *)
Definition released_before_teardown (tr : list event) : Prop :=
  (forall pad, (count (is_release_of pad) tr <= 1)%nat)
  /\ (forall before pipe after,
         tr = (before ++ EvUnrefPipeline (Some pipe) :: after)%list ->
         count is_request before = count is_release before
         /\ (forall pad,
                In (EvRequestPad pipe pad) tr ->
                In (EvRequestPad pipe pad) before
                /\ count (is_release_of pad) before = 1%nat
                /\ count (is_release_of pad) after = 0%nat)).

(** Events the audit passes over. *)
Definition quiet (ev : event) : bool :=
  match ev with
  | EvRequestPad _ _ | EvUnrefPad _ | EvUnrefPipeline (Some _) => false
  | _ => true
  end.

Definition is_sigint (d : dispatched) : bool :=
  match d with DoSigint => true | _ => false end.

(** *** More vocabulary *)

(** The seconds [state_machine_cb] arms after entering a phase. *)
Definition dwell (ph : Phase) : nat :=
  match ph with PLAYING => 10%nat | _ => 1%nat end.

(** The engine state requested on entering a phase. *)
Definition gst_state_of (ph : Phase) : GstState :=
  match ph with
  | NULL_STATE => GST_STATE_NULL
  | PLAYING => GST_STATE_PLAYING
  | PAUSED => GST_STATE_PAUSED
  | READY => GST_STATE_READY
  end.

(** A program only appends to the trace, and only events that pass [P]. *)
Definition emits {A} (P : event -> bool) (m : M A) : Prop :=
  forall s, exists evs,
    trace (snd (m s)) = (trace s ++ evs)%list /\ forallb P evs = true.

Definition is_stderr (ev : event) : bool :=
  match ev with EvStderr _ => true | _ => false end.
Definition is_gst_init (ev : event) : bool :=
  match ev with EvGstInit => true | _ => false end.
Definition is_loop_quit (ev : event) : bool :=
  match ev with EvLoopQuit => true | _ => false end.
Definition is_launched (ev : event) : bool :=
  match ev with EvParseLaunch (Some _) => true | _ => false end.
Definition is_teardown (ev : event) : bool :=
  match ev with EvUnrefPipeline (Some _) => true | _ => false end.

(** What the timeouts of a state are made of. *)
Definition timer_view (s : state) : guint * list GSource * guint * nat :=
  (state_timer_id s, sources s, next_source_id s, clock s).

(** The timeouts attached: the sampler, every 5 seconds, then the one state
    timer, whose id is the one remembered and whose interval is the time the
    current phase lasts; the two ids differ, and both have been given out. *)
Definition timers_ok (s : state) : Prop :=
  exists fps st,
    sources s = [fps; st]
    /\ src_cb fps = CbFpsLog /\ src_interval fps = 5%nat
    /\ src_cb st = CbStateMachine
    /\ src_interval st = dwell (phase s)
    /\ src_id st = state_timer_id s
    /\ (0 < src_id fps < src_id st)%nat
    /\ (src_id st < next_source_id s)%nat.

(** The same under the clock: the state timer is due in [k] seconds, at
    least one and no more than the current phase lasts, and the sampler
    within its five. *)
Definition timers_due (k : nat) (s : state) : Prop :=
  exists fps st,
    sources s = [fps; st]
    /\ src_cb fps = CbFpsLog /\ src_interval fps = 5%nat /\ src_id fps = 1%nat
    /\ (clock s < src_due fps <= clock s + 5)%nat
    /\ src_cb st = CbStateMachine
    /\ src_interval st = dwell (phase s)
    /\ src_id st = state_timer_id s
    /\ (1 < src_id st < next_source_id s)%nat
    /\ src_due st = (clock s + k)%nat
    /\ (1 <= k <= dwell (phase s))%nat.

(** Request, static pad and link of one tee branch all succeed. *)
Definition tee_link_ok (t : tee_link_env) : bool :=
  request_pad_ok t && static_pad_ok t && pad_link_ok t.

(** What [create_pipeline] needs to return a pipeline. *)
Definition buildable (e : build_env) : bool :=
  parse_launch_ok e && tee_found e && negb (branch_element_missing e).

Definition is_set_state (ev : event) : bool :=
  match ev with EvSetState _ _ => true | _ => false end.

(** What [main] does once, before anything else. *)
Definition is_init_event (ev : event) : bool :=
  match ev with
  | EvGstInit | EvSignal | EvPrintHelp _ => true
  | _ => false
  end.

Definition is_print_help (ev : event) : bool :=
  match ev with EvPrintHelp _ => true | _ => false end.

Definition is_some {A} (o : option A) : bool :=
  match o with Some _ => true | None => false end.

(** The firings that go on to rebuild the pipeline: the one that leaves
    PAUSED in 3-phase mode and the one that leaves READY. *)
Definition rebuilds (s : state) : bool :=
  match phase s with
  | PAUSED => negb (phase_mode s =? 4)%Z
  | READY => true
  | _ => false
  end.

(** A string of decimal digits only. *)
Fixpoint all_digits (s : string) : bool :=
  match s with
  | String c r => isdigit c && all_digits r
  | EmptyString => true
  end.

(** A word: no white space in it. *)
Fixpoint no_white_space (s : string) : bool :=
  match s with
  | String c r => negb (isspace c) && no_white_space r
  | EmptyString => true
  end.

(** An option of the runner with its value, as [parse_arguments] takes it. *)
Definition runner_option (pair : string * string) : bool :=
  let (name, value) := pair in
  (name =? "--profile")%string || (name =? "--udp-host")%string
  || ((name =? "--udp-port")%string
      && match stoi value with Ok _ => true | Throw _ => false end).

Definition set_runner_option (config : MediaRunner.PipelineConfig)
           (pair : string * string) : MediaRunner.PipelineConfig :=
  let (name, value) := pair in
  if (name =? "--profile")%string
  then MediaRunner.set_profile_name value config
  else if (name =? "--udp-host")%string
  then MediaRunner.set_udp_host value config
  else match stoi value with
       | Ok v => MediaRunner.set_udp_port v config
       | Throw _ => config
       end.

Definition option_words (pairs : list (string * string)) : list string :=
  flat_map (fun pair => [fst pair; snd pair]) pairs.

(** Neither makes a pipeline nor unrefs one. *)
Definition keeps_pipelines (ev : event) : bool :=
  negb (is_launched ev || is_teardown ev).

(** Pipelines made and not yet unreffed, reading a trace from its start:
    never more than one, [alive] telling whether there is one at the end. *)
Fixpoint one_alive (alive : bool) (tr : list event) : option bool :=
  match tr with
  | [] => Some alive
  | ev :: rest =>
      if is_launched ev then
        if alive then None else one_alive true rest
      else if is_teardown ev then
        if alive then one_alive false rest else None
      else one_alive alive rest
  end.

(** *** Triples, frames and weakest preconditions over [M] *)

Definition hoare {A} (P : state -> Prop) (m : M A) (Q : A -> state -> Prop)
  : Prop :=
  forall s, P s -> Q (fst (m s)) (snd (m s)).

Definition preserves {A B} (f : state -> A) (m : M B) : Prop :=
  forall s, f (snd (m s)) = f s.

Definition wp {A} (m : M A) (Q : A -> state -> Prop) (s : state) : Prop :=
  Q (fst (m s)) (snd (m s)).

(** Two programs started in states that agree on [f] return results related
    by [R] and end in states that agree on [f]. *)
Definition agree {A B} (f : state -> A) (R : B -> B -> Prop) (m1 m2 : M B)
  : Prop :=
  forall s1 s2, f s1 = f s2 ->
                R (fst (m1 s1)) (fst (m2 s2))
                /\ f (snd (m1 s1)) = f (snd (m2 s2)).

(** * Reasoning about the program *)

(** ** Triples *)


Lemma hoare_ret {A} (P : state -> Prop) (Q : A -> state -> Prop) (a : A) :
  (forall s, P s -> Q a s) -> hoare P (ret a) Q.
Proof. intros H s HP. apply H, HP. Qed.

Lemma hoare_bind {A B} (P : state -> Prop) (m : M A) (k : A -> M B)
      (Q : A -> state -> Prop) (R : B -> state -> Prop) :
  hoare P m Q -> (forall a, hoare (Q a) (k a) R) -> hoare P (bind m k) R.
Proof.
  unfold hoare, bind. intros Hm Hk s HP.
  specialize (Hm s HP). destruct (m s) as [a s']. apply Hk, Hm.
Qed.

Lemma hoare_get {B} (P : state -> Prop) (g : state -> B)
      (Q : B -> state -> Prop) :
  (forall s, P s -> Q (g s) s) -> hoare P (get g) Q.
Proof. intros H s HP. apply H, HP. Qed.

Lemma hoare_modify (P : state -> Prop) (g : state -> state)
      (Q : unit -> state -> Prop) :
  (forall s, P s -> Q tt (g s)) -> hoare P (modify g) Q.
Proof. intros H s HP. apply H, HP. Qed.

Lemma hoare_weaken {A} (P P' : state -> Prop) (m : M A)
      (Q Q' : A -> state -> Prop) :
  hoare P' m Q' -> (forall s, P s -> P' s) ->
  (forall a s, Q' a s -> Q a s) -> hoare P m Q.
Proof. intros H HP HQ s Hs. apply HQ, H, HP, Hs. Qed.

Lemma hoare_exec {A} (P : state -> Prop) (m : M A) (Q : A -> state -> Prop) s :
  hoare P m Q -> P s -> Q (fst (m s)) (exec m s).
Proof. intros H HP. apply H, HP. Qed.

(** ** [main] before its loop *)

Lemma main_startup_eq argv e :
  main_startup argv e
  = match main_arg_loop (tl argv) 3 with
    | ArgsHelp mode =>
        Exit 0 (exec (emit (EvPrintHelp (hd "" argv)))
                     (set_phase_mode mode initial_state))
    | ArgsThrow _ mode => Abort (set_phase_mode mode initial_state)
    | ArgsDone mode =>
        if negb (mode =? 3)%Z && negb (mode =? 4)%Z
        then Exit (-1) (exec (cerr (LogError "[ERROR] --phase must be 3 or 4"))
                             (set_phase_mode mode initial_state))
        else match gst_init_exits e argv with
             | Some code =>
                 Exit code (exec (emit EvGstInit)
                                 (set_phase_mode mode initial_state))
             | None =>
                 let (p, s) := create_pipeline e "10.0.0.2" 5000
                                 (initialised mode) in
                 match p with
                 | None => Exit (-1) (set_pipeline p s)
                 | Some _ => Run (exec main_enter_loop (set_pipeline p s))
                 end
             end
    end.
Proof.
  unfold main_startup. cbn [phase_mode initial_state].
  destruct (main_arg_loop (tl argv) 3) as [ mode | ex mode | mode ];
    reflexivity.
Qed.

(** ** Frames: what a function leaves alone *)

Lemma preserves_ret {A B} (f : state -> A) (b : B) : preserves f (ret b).
Proof. intro s. reflexivity. Qed.

Lemma preserves_get {A B} (f : state -> A) (g : state -> B) :
  preserves f (get g).
Proof. intro s. reflexivity. Qed.

Lemma preserves_bind {A B C} (f : state -> A) (m : M B) (k : B -> M C) :
  preserves f m -> (forall b, preserves f (k b)) -> preserves f (bind m k).
Proof.
  unfold preserves, bind. intros Hm Hk s.
  specialize (Hm s). destruct (m s) as [b s']. simpl in Hm.
  rewrite Hk. exact Hm.
Qed.

Lemma preserves_modify {A} (f : state -> A) (g : state -> state) :
  (forall s, f (g s) = f s) -> preserves f (modify g).
Proof. intros H s. apply H. Qed.

Lemma preserves_exec {A B} (f : state -> A) (m : M B) s :
  preserves f m -> f (exec m s) = f s.
Proof. intro H. apply H. Qed.

(** Splits a frame goal along the shape of the code. *)
Ltac frame_step :=
  first
    [ apply preserves_ret
    | apply preserves_get
    | apply preserves_bind; [ | intro ]
    | match goal with
      | |- preserves _ (if ?b then _ else _) => destruct b
      | |- preserves _ (match ?x with _ => _ end) => destruct x
      end ].

Section Frame.
Context {A : Type} (f : state -> A).

Hypothesis f_trace : forall v s, f (set_trace v s) = f s.
Hypothesis f_next_object : forall v s, f (set_next_object v s) = f s.
Hypothesis f_frame_count : forall v s, f (set_frame_count v s) = f s.
Hypothesis f_last_frame_count : forall v s, f (set_last_frame_count v s) = f s.
Hypothesis f_loop : forall v s, f (set_loop v s) = f s.
Hypothesis f_current_stage : forall v s, f (set_current_stage v s) = f s.
Hypothesis f_sources : forall v s, f (set_sources v s) = f s.
Hypothesis f_next_source_id : forall v s, f (set_next_source_id v s) = f s.
Hypothesis f_state_timer_id : forall v s, f (set_state_timer_id v s) = f s.
Hypothesis f_tee_req_pad_udp : forall v s, f (set_tee_req_pad_udp v s) = f s.
Hypothesis f_tee_req_pad_fps : forall v s, f (set_tee_req_pad_fps v s) = f s.
Hypothesis f_pipeline : forall v s, f (set_pipeline v s) = f s.
Hypothesis f_phase : forall v s, f (set_phase v s) = f s.
Hypothesis f_state_tick : forall v s, f (set_state_tick v s) = f s.
Hypothesis f_phase_mode : forall v s, f (set_phase_mode v s) = f s.

Lemma preserves_emit ev : preserves f (emit ev).
Proof. apply preserves_modify. intro s. apply f_trace. Qed.

Lemma preserves_fresh_object : preserves f fresh_object.
Proof. intro s. apply f_next_object. Qed.

Lemma preserves_g_timeout_add_seconds seconds cb :
  preserves f (g_timeout_add_seconds seconds cb).
Proof.
  intro s. unfold g_timeout_add_seconds. simpl.
  rewrite f_next_source_id. apply f_sources.
Qed.

(** The leaves of the program: one write each. *)
Ltac frame_leaf :=
  first [ apply preserves_emit
        | apply preserves_fresh_object
        | apply preserves_g_timeout_add_seconds
        | apply preserves_modify; intro; solve [ auto ] ].

Ltac frame := repeat frame_step; frame_leaf.

Lemma preserves_on_handoff : preserves f on_handoff.
Proof. frame. Qed.

Lemma preserves_fps_log_cb : preserves f fps_log_cb.
Proof. frame. Qed.

Lemma preserves_bus_cb msg : preserves f (bus_cb msg).
Proof. destruct msg; frame. Qed.

Lemma preserves_handle_sigint : preserves f handle_sigint.
Proof. frame. Qed.

Lemma preserves_set_pipeline_state target name :
  preserves f (set_pipeline_state target name).
Proof. frame. Qed.

Lemma preserves_arm_next_state_timer seconds :
  preserves f (arm_next_state_timer seconds).
Proof. frame. Qed.

Lemma preserves_link_tee_to_queue_and_keep_pad t pipe :
  preserves f (link_tee_to_queue_and_keep_pad t pipe).
Proof. frame. Qed.

Lemma preserves_create_pipeline e host port :
  preserves f (create_pipeline e host port).
Proof. frame. Qed.

Lemma preserves_unref_tee_req_pads : preserves f unref_tee_req_pads.
Proof. frame. Qed.

Lemma preserves_recreate_pipeline e : preserves f (recreate_pipeline e).
Proof. frame. Qed.

Lemma preserves_state_machine_cb e : preserves f (state_machine_cb e).
Proof. frame. Qed.

Lemma preserves_main_shutdown : preserves f main_shutdown.
Proof. frame. Qed.

Lemma preserves_dispatch d : preserves f (dispatch d).
Proof. destruct d as [ | | e | msg | ]; [ | | | destruct msg | ]; frame. Qed.

Lemma preserves_sdk191_create_pipeline e host port :
  preserves f (Sdk191.create_pipeline e host port).
Proof. unfold Sdk191.create_pipeline. frame. Qed.

Lemma preserves_sdk191_state_machine_cb e :
  preserves f (Sdk191.state_machine_cb e).
Proof.
  repeat frame_step;
    first [ apply preserves_sdk191_create_pipeline | frame_leaf ].
Qed.

Lemma preserves_sdk191_dispatch d : preserves f (Sdk191.dispatch d).
Proof.
  destruct d; repeat frame_step;
    first [ apply preserves_sdk191_create_pipeline | frame_leaf ].
Qed.

Lemma initialised_frame mode : f (initialised mode) = f initial_state.
Proof.
  unfold initialised.
  rewrite (preserves_exec f (emit EvGstInit ;; emit EvSignal));
    [ apply f_phase_mode | frame ].
Qed.

Lemma preserves_main_enter_loop : preserves f main_enter_loop.
Proof. frame. Qed.

(** What [main] does not write before it enters the loop. *)
Lemma main_startup_frame argv e s0 :
  main_startup argv e = Run s0 -> f s0 = f initial_state.
Proof.
  rewrite main_startup_eq.
  destruct (main_arg_loop (tl argv) 3)
    as [ mode | ex mode | mode ]; try discriminate.
  destruct (negb (mode =? 3)%Z && negb (mode =? 4)%Z); try discriminate.
  destruct (gst_init_exits e argv); try discriminate.
  pose proof (preserves_create_pipeline e "10.0.0.2" 5000
                (initialised mode)) as Hc.
  destruct (create_pipeline e "10.0.0.2" 5000 (initialised mode))
    as [ [ p | ] s1 ]; try discriminate.
  intro H. injection H as <-. cbn [snd] in Hc.
  rewrite (preserves_exec f main_enter_loop _ preserves_main_enter_loop).
  rewrite f_pipeline, Hc. apply initialised_frame.
Qed.

End Frame.

(** How [main] gets to its loop. *)
Lemma main_startup_run argv e s0 :
  main_startup argv e = Run s0 ->
  exists mode p s1,
    main_arg_loop (tl argv) 3 = ArgsDone mode
    /\ (mode = 3 \/ mode = 4)
    /\ gst_init_exits e argv = None
    /\ create_pipeline e "10.0.0.2" 5000 (initialised mode) = (Some p, s1)
    /\ s0 = exec main_enter_loop (set_pipeline (Some p) s1).
Proof.
  rewrite main_startup_eq.
  destruct (main_arg_loop (tl argv) 3) as [ mode | ex mode | mode ];
    try discriminate.
  destruct (negb (mode =? 3)%Z && negb (mode =? 4)%Z) eqn:Hmode;
    try discriminate.
  destruct (gst_init_exits e argv) eqn:Hinit; try discriminate.
  destruct (create_pipeline e "10.0.0.2" 5000 (initialised mode))
    as [ [ p | ] s1 ] eqn:Hc; try discriminate.
  intro H. injection H as <-.
  exists mode, p, s1. split; [ reflexivity | ].
  split; [ | split; [ reflexivity | split; [ exact Hc | reflexivity ] ] ].
  destruct (mode =? 3)%Z eqn:H3; [ left; apply Z.eqb_eq, H3 | ].
  destruct (mode =? 4)%Z eqn:H4; [ right; apply Z.eqb_eq, H4 | discriminate ].
Qed.

(** ** Running a program backwards from what is to hold after it *)

Lemma wp_ret {A} (a : A) (Q : A -> state -> Prop) s : Q a s -> wp (ret a) Q s.
Proof. exact (fun H => H). Qed.

Lemma wp_bind {A B} (m : M A) (k : A -> M B) (Q : B -> state -> Prop) s :
  wp m (fun a s' => wp (k a) Q s') s -> wp (bind m k) Q s.
Proof. unfold wp, bind. destruct (m s) as [a s']. exact (fun H => H). Qed.

Lemma wp_get {A} (g : state -> A) (Q : A -> state -> Prop) s :
  Q (g s) s -> wp (get g) Q s.
Proof. exact (fun H => H). Qed.

Lemma wp_modify (g : state -> state) (Q : unit -> state -> Prop) s :
  Q tt (g s) -> wp (modify g) Q s.
Proof. exact (fun H => H). Qed.

Lemma wp_preserves {A B} (f : state -> A) (m : M B) (Q : B -> state -> Prop) s :
  preserves f m -> (forall b s', f s' = f s -> Q b s') -> wp m Q s.
Proof. intros Hm HQ. apply HQ, Hm. Qed.

Lemma wp_hoare {A} (P : state -> Prop) (m : M A) (R Q : A -> state -> Prop) s :
  hoare P m R -> P s -> (forall a s', R a s' -> Q a s') -> wp m Q s.
Proof. intros H HP HQ. apply HQ, H, HP. Qed.

Lemma hoare_wp {A} (P : state -> Prop) (m : M A) (Q : A -> state -> Prop) :
  (forall s, P s -> wp m Q s) -> hoare P m Q.
Proof. exact (fun H => H). Qed.

Lemma wp_emit ev (Q : unit -> state -> Prop) s :
  Q tt (set_trace (trace s ++ [ev]) s) -> wp (emit ev) Q s.
Proof. exact (fun H => H). Qed.

Lemma wp_fresh_object (Q : nat -> state -> Prop) s :
  Q (next_object s) (set_next_object (S (next_object s)) s) ->
  wp fresh_object Q s.
Proof. exact (fun H => H). Qed.

Ltac state_simpl :=
  cbn [loop pipeline frame_count last_frame_count current_stage state_tick
       state_timer_id tee_req_pad_udp tee_req_pad_fps phase phase_mode
       next_object sources next_source_id clock trace
       set_loop set_pipeline set_frame_count set_last_frame_count
       set_current_stage set_state_tick set_state_timer_id
       set_tee_req_pad_udp set_tee_req_pad_fps set_phase set_phase_mode
       set_next_object set_sources set_next_source_id set_clock set_trace] in *.

Ltac wp_step :=
  lazymatch goal with
  | |- wp (bind _ _) _ _ => apply wp_bind
  | |- wp (ret _) _ _ => apply wp_ret
  | |- wp (get _) _ _ => apply wp_get
  | |- wp (modify _) _ _ => apply wp_modify
  | |- wp (emit _) _ _ => apply wp_emit
  | |- wp (cerr _) _ _ => apply wp_emit
  | |- wp fresh_object _ _ => apply wp_fresh_object
  | |- wp (set_pipeline_state _ _) _ _ => unfold set_pipeline_state
  | |- wp (recreate_pipeline _) _ _ => unfold recreate_pipeline
  | |- wp (state_machine_cb _) _ _ => unfold state_machine_cb
  | |- wp (Sdk191.set_pipeline_state _ _) _ _ => unfold Sdk191.set_pipeline_state
  | |- wp (Sdk191.state_machine_cb _) _ _ => unfold Sdk191.state_machine_cb
  | |- wp (if ?b then _ else _) _ _ => destruct b eqn:?
  | |- wp (match ?x with _ => _ end) _ _ => destruct x eqn:?
  end; cbv beta; state_simpl.

Lemma machine_arm_next_state_timer seconds :
  preserves machine (arm_next_state_timer seconds).
Proof. apply preserves_arm_next_state_timer; reflexivity. Qed.

Lemma state_machine_cb_machine e s :
  machine (exec (state_machine_cb e) s)
  = (next_phase (phase_mode s) (phase s), phase_mode s,
     wrap_int (state_tick s + 1),
     phase_label (next_phase (phase_mode s) (phase s))).
Proof.
  change (wp (state_machine_cb e)
             (fun _ s' => machine s' =
                (next_phase (phase_mode s) (phase s), phase_mode s,
                 wrap_int (state_tick s + 1),
                 phase_label (next_phase (phase_mode s) (phase s)))) s).
  repeat wp_step;
    repeat (apply (wp_preserves machine);
            [ first [ apply machine_arm_next_state_timer
                    | apply preserves_create_pipeline; reflexivity
                    | apply preserves_unref_tee_req_pads; reflexivity ]
            | intros ? ? ?; repeat wp_step ]);
    unfold machine, next_phase in *; state_simpl;
    repeat match goal with
           | H : (_ =? _)%Z = _ |- _ => rewrite H
           | H : phase _ = _ |- _ => rewrite H
           end;
    cbn [phase_label]; congruence.
Qed.

Lemma exec_then_ret {A B} (m : M A) (b : B) s :
  exec (m ;; ret b) s = exec m s.
Proof. unfold exec, bind. destruct (m s). reflexivity. Qed.

Lemma phase_state_machine_cb e s :
  phase (exec (state_machine_cb e) s) = next_phase (phase_mode s) (phase s).
Proof. pose proof (state_machine_cb_machine e s) as H. unfold machine in H. congruence. Qed.

Lemma state_tick_state_machine_cb e s :
  state_tick (exec (state_machine_cb e) s) = wrap_int (state_tick s + 1).
Proof. pose proof (state_machine_cb_machine e s) as H. unfold machine in H. congruence. Qed.

Lemma current_stage_state_machine_cb e s :
  current_stage (exec (state_machine_cb e) s)
  = phase_label (next_phase (phase_mode s) (phase s)).
Proof. pose proof (state_machine_cb_machine e s) as H. unfold machine in H. congruence. Qed.

Lemma phase_mode_dispatch d s : phase_mode (exec (dispatch d) s) = phase_mode s.
Proof. apply preserves_dispatch; reflexivity. Qed.

Lemma sdk191_state_machine_cb_machine e s :
  machine (exec (Sdk191.state_machine_cb e) s)
  = (next_phase 4 (phase s), phase_mode s, wrap_int (state_tick s + 1),
     phase_label (next_phase 4 (phase s))).
Proof.
  change (wp (Sdk191.state_machine_cb e)
             (fun _ s' => machine s' =
                (next_phase 4 (phase s), phase_mode s,
                 wrap_int (state_tick s + 1),
                 phase_label (next_phase 4 (phase s)))) s).
  repeat wp_step;
    repeat (apply (wp_preserves machine);
            [ first [ apply machine_arm_next_state_timer
                    | apply preserves_sdk191_create_pipeline; reflexivity ]
            | intros ? ? ?; repeat wp_step ]);
    unfold machine, next_phase in *; state_simpl;
    repeat match goal with
           | H : phase _ = _ |- _ => rewrite H
           end;
    cbn [phase_label Z.eqb Pos.eqb]; congruence.
Qed.

(** ** The phase cycle *)

Lemma phase_of_cycle_three_next k :
  next_phase 3 (phase_of_cycle three_phase_cycle k)
  = phase_of_cycle three_phase_cycle (S k).
Proof.
  unfold phase_of_cycle, three_phase_cycle. cbn [List.length].
  replace (S k) with (1 + k)%nat by reflexivity.
  rewrite (Nat.Div0.add_mod 1 k 3).
  pose proof (Nat.mod_upper_bound k 3 ltac:(discriminate)) as Hk.
  destruct (k mod 3)%nat as [ | [ | [ | r ] ] ]; try reflexivity. lia.
Qed.

Lemma phase_of_cycle_four_next k :
  next_phase 4 (phase_of_cycle four_phase_cycle k)
  = phase_of_cycle four_phase_cycle (S k).
Proof.
  unfold phase_of_cycle, four_phase_cycle. cbn [List.length].
  replace (S k) with (1 + k)%nat by reflexivity.
  rewrite (Nat.Div0.add_mod 1 k 4).
  pose proof (Nat.mod_upper_bound k 4 ltac:(discriminate)) as Hk.
  destruct (k mod 4)%nat as [ | [ | [ | [ | r ] ] ] ]; try reflexivity. lia.
Qed.

(** A dispatcher whose firings step the phase along [cycle], and whose other
    calls leave it where it is, visits the cycle in order. *)
Section Cycle.
Variable disp : dispatched -> M unit.
Variable cycle : list Phase.
Variable at_home : state -> Prop.       (* what is fixed at boot *)

Hypothesis at_home_kept : forall d s, at_home s -> at_home (exec (disp d) s).
Hypothesis firing_steps :
  forall e s k, at_home s -> phase s = phase_of_cycle cycle k ->
                phase (exec (disp (DoStateMachine e)) s)
                = phase_of_cycle cycle (S k).
Hypothesis others_stay :
  forall d s, is_firing d = false -> phase (exec (disp d) s) = phase s.

Lemma cycle_followed_from ops : forall s k,
  at_home s -> phase s = phase_of_cycle cycle k ->
  phases_visited disp ops s
  = map (phase_of_cycle cycle) (seq (S k) (count is_firing ops))
  /\ phase (run disp ops s)
     = phase_of_cycle cycle (k + count is_firing ops).
Proof.
  induction ops as [ | d ops IH ]; intros s k Hhome Hk.
  - split; [ reflexivity | ]. cbn. rewrite Nat.add_0_r. exact Hk.
  - assert (Hhome' := at_home_kept d s Hhome).
    destruct (is_firing d) eqn:Hd.
    + destruct d; try discriminate.
      specialize (IH _ (S k) Hhome' (firing_steps e s k Hhome Hk)).
      destruct IH as [IHv IHp].
      unfold count in *. cbn [phases_visited run fold_left filter is_firing List.length seq map].
      split.
      * rewrite IHv. f_equal.
        apply firing_steps; assumption.
      * unfold run in IHp. rewrite IHp. f_equal. lia.
    + assert (Hk' : phase (exec (disp d) s) = phase_of_cycle cycle k)
        by (rewrite others_stay; assumption).
      specialize (IH _ k Hhome' Hk'). destruct IH as [IHv IHp].
      unfold count in *. cbn [run fold_left filter]. rewrite Hd.
      split; [ | exact IHp ].
      destruct d; try discriminate; cbn [phases_visited]; exact IHv.
Qed.
End Cycle.

Lemma phase_other_dispatch d s :
  is_firing d = false -> phase (exec (dispatch d) s) = phase s.
Proof.
  destruct d; try discriminate; intros _.
  - apply preserves_on_handoff; reflexivity.
  - apply (preserves_bind phase); [ | intro; apply preserves_ret ].
    apply preserves_fps_log_cb; reflexivity.
  - apply (preserves_bind phase); [ | intro; apply preserves_ret ].
    apply preserves_bus_cb; reflexivity.
  - apply preserves_handle_sigint; reflexivity.
Qed.

Lemma phase_firing_dispatch e s :
  phase (exec (dispatch (DoStateMachine e)) s)
  = next_phase (phase_mode s) (phase s).
Proof. cbn [dispatch]. rewrite exec_then_ret. apply phase_state_machine_cb. Qed.

Lemma sdk191_phase_other_dispatch d s :
  is_firing d = false -> phase (exec (Sdk191.dispatch d) s) = phase s.
Proof.
  destruct d; try discriminate; intros _.
  - apply preserves_on_handoff; reflexivity.
  - apply (preserves_bind phase); [ | intro; apply preserves_ret ].
    apply preserves_fps_log_cb; reflexivity.
  - reflexivity.
  - apply preserves_handle_sigint; reflexivity.
Qed.

Lemma sdk191_phase_firing_dispatch e s :
  phase (exec (Sdk191.dispatch (DoStateMachine e)) s) = next_phase 4 (phase s).
Proof.
  cbn [Sdk191.dispatch]. rewrite exec_then_ret.
  pose proof (sdk191_state_machine_cb_machine e s) as H.
  unfold machine in H. injection H as H _ _ _. exact H.
Qed.

(** C4.  Started at [NULL_STATE], the firings of [state_machine_cb] enter the
    phases of the cycle of the boot-time mode, in order and nothing else:
    PLAYING, PAUSED, NULL, PLAYING, ... in 3-phase mode and PLAYING, PAUSED,
    READY, NULL, ... in 4-phase mode, whatever is dispatched in between and
    whatever the engine answers; the mode never changes.  The older
    program, which has no mode, follows the four-phase cycle. *)
Theorem phase_cycle_followed (ops : list dispatched) (s : state) :
  phase s = NULL_STATE ->
  phase_mode s = 3 \/ phase_mode s = 4 ->
  let cycle := cycle_of_mode (phase_mode s) in
  let firings := count is_firing ops in
  phases_visited dispatch ops s = map (phase_of_cycle cycle) (seq 1 firings)
  /\ phase (run dispatch ops s) = phase_of_cycle cycle firings
  /\ phase_mode (run dispatch ops s) = phase_mode s
  /\ phases_visited Sdk191.dispatch ops s
     = map (phase_of_cycle four_phase_cycle) (seq 1 firings)
  /\ phase (run Sdk191.dispatch ops s) = phase_of_cycle four_phase_cycle firings.
Proof.
  intros Hph Hmode cycle firings.
  assert (Hnew : phases_visited dispatch ops s
                 = map (phase_of_cycle cycle) (seq 1 firings)
                 /\ phase (run dispatch ops s) = phase_of_cycle cycle firings).
  { subst cycle firings.
    apply (cycle_followed_from dispatch (cycle_of_mode (phase_mode s))
             (fun s' => phase_mode s' = phase_mode s)) with (k := 0%nat).
    - intros d s' H. rewrite phase_mode_dispatch. exact H.
    - intros e s' k Hm Hk. rewrite phase_firing_dispatch, Hm, Hk.
      destruct Hmode as [-> | ->]; cbn [cycle_of_mode Z.eqb Pos.eqb].
      + apply phase_of_cycle_three_next.
      + apply phase_of_cycle_four_next.
    - apply phase_other_dispatch.
    - reflexivity.
    - rewrite Hph. destruct Hmode as [-> | ->]; reflexivity. }
  assert (Hold : phases_visited Sdk191.dispatch ops s
                 = map (phase_of_cycle four_phase_cycle) (seq 1 firings)
                 /\ phase (run Sdk191.dispatch ops s)
                    = phase_of_cycle four_phase_cycle firings).
  { subst firings.
    apply (cycle_followed_from Sdk191.dispatch four_phase_cycle
             (fun _ => True)) with (k := 0%nat).
    - trivial.
    - intros e s' k _ Hk. rewrite sdk191_phase_firing_dispatch, Hk.
      apply phase_of_cycle_four_next.
    - apply sdk191_phase_other_dispatch.
    - trivial.
    - exact Hph. }
  destruct Hnew as [Hv Hp], Hold as [Hv' Hp'].
  repeat split; try assumption.
  clear. induction ops as [ | d ops IH ] using rev_ind; [ reflexivity | ].
  unfold run in *. rewrite fold_left_app. cbn [fold_left].
  rewrite phase_mode_dispatch. exact IH.
Qed.

Lemma phase_cycle_followed_witness :
  phases_visited dispatch
    [DoStateMachine all_fine; DoHandoff; DoStateMachine all_fine; DoFpsLog;
     DoStateMachine all_fine; DoStateMachine all_fine] initial_state
  = [PLAYING; PAUSED; NULL_STATE; PLAYING].
Proof.
  exact (proj1 (phase_cycle_followed
                  [DoStateMachine all_fine; DoHandoff; DoStateMachine all_fine;
                   DoFpsLog; DoStateMachine all_fine; DoStateMachine all_fine]
                  initial_state eq_refl (or_introl eq_refl))).
Defined.

(** ** The two counters *)

Lemma frame_count_dispatch d s :
  frame_count (exec (dispatch d) s)
  = if is_handoff d then wrap_uint64 (frame_count s + 1) else frame_count s.
Proof.
  destruct d; cbn [is_handoff].
  - reflexivity.
  - apply (preserves_bind frame_count); [ | intro; apply preserves_ret ].
    apply preserves_fps_log_cb; reflexivity.
  - apply (preserves_bind frame_count); [ | intro; apply preserves_ret ].
    apply preserves_state_machine_cb; reflexivity.
  - apply (preserves_bind frame_count); [ | intro; apply preserves_ret ].
    apply preserves_bus_cb; reflexivity.
  - apply preserves_handle_sigint; reflexivity.
Qed.

Lemma state_tick_dispatch d s :
  state_tick (exec (dispatch d) s)
  = if is_firing d then wrap_int (state_tick s + 1) else state_tick s.
Proof.
  destruct d; cbn [is_firing].
  - apply preserves_on_handoff; reflexivity.
  - apply (preserves_bind state_tick); [ | intro; apply preserves_ret ].
    apply preserves_fps_log_cb; reflexivity.
  - cbn [dispatch]. rewrite exec_then_ret. apply state_tick_state_machine_cb.
  - apply (preserves_bind state_tick); [ | intro; apply preserves_ret ].
    apply preserves_bus_cb; reflexivity.
  - apply preserves_handle_sigint; reflexivity.
Qed.

Lemma wrap_uint64_small z : 0 <= z <= UINT64_MAX -> wrap_uint64 z = z.
Proof.
  unfold wrap_uint64, UINT64_MAX, UINT64_MODULUS. intro H.
  apply Z.mod_small. lia.
Qed.

Lemma wrap_int_small z : INT_MIN <= z <= INT_MAX -> wrap_int z = z.
Proof.
  unfold wrap_int, INT_MIN, INT_MAX. intro H.
  rewrite Z.mod_small; lia.
Qed.

Lemma run_snoc disp ops d s :
  run disp (ops ++ [d]) s = exec (disp d) (run disp ops s).
Proof. unfold run. rewrite fold_left_app. reflexivity. Qed.

Lemma count_snoc {A} (f : A -> bool) l a :
  count f (l ++ [a]) = (count f l + (if f a then 1 else 0))%nat.
Proof.
  unfold count. rewrite filter_app, length_app. cbn [filter].
  destruct (f a); reflexivity.
Qed.

(** Handoffs alone: the counter modulo 2^64. *)
Lemma frame_count_after_handoffs n s :
  0 <= frame_count s < UINT64_MODULUS ->
  frame_count (run dispatch (repeat DoHandoff n) s)
  = wrap_uint64 (frame_count s + Z.of_nat n).
Proof.
  intro Hs. induction n as [ | n IH ].
  - cbn [repeat run fold_left]. rewrite Z.add_0_r.
    symmetry. apply Z.mod_small. exact Hs.
  - cbn [repeat]. rewrite repeat_cons, run_snoc, frame_count_dispatch.
    cbn [is_handoff]. rewrite IH. unfold wrap_uint64.
    rewrite Z.add_mod_idemp_l by (unfold UINT64_MODULUS; lia).
    f_equal. lia.
Qed.

(** C5, as the program has it.  While the 64-bit [frame_count] has not
    reached 2^64-1 (and the [int] [state_tick] not [INT_MAX]), no call resets
    either counter: [frame_count] is the number of handoffs so far and
    [state_tick] the number of firings so far, rebuilds included, so both are
    non-decreasing along the run; only [on_handoff] writes [frame_count],
    only [state_machine_cb] writes [state_tick]. *)
Theorem counters_never_reset (ops : list dispatched) (s : state) :
  0 <= frame_count s ->
  frame_count s + Z.of_nat (count is_handoff ops) <= UINT64_MAX ->
  INT_MIN <= state_tick s ->
  state_tick s + Z.of_nat (count is_firing ops) <= INT_MAX ->
  frame_count (run dispatch ops s)
  = frame_count s + Z.of_nat (count is_handoff ops)
  /\ state_tick (run dispatch ops s)
     = state_tick s + Z.of_nat (count is_firing ops)
  /\ (forall d s', is_handoff d = false ->
                   frame_count (exec (dispatch d) s') = frame_count s')
  /\ (forall d s', is_firing d = false ->
                   state_tick (exec (dispatch d) s') = state_tick s').
Proof.
  intros Hf0 Hf1 Ht0 Ht1.
  assert (H : frame_count (run dispatch ops s)
              = frame_count s + Z.of_nat (count is_handoff ops)
              /\ state_tick (run dispatch ops s)
                 = state_tick s + Z.of_nat (count is_firing ops)).
  { revert Hf1 Ht1. induction ops as [ | d ops IH ] using rev_ind; intros Hf1 Ht1.
    - cbn. split; lia.
    - rewrite !count_snoc in *. rewrite run_snoc.
      rewrite frame_count_dispatch, state_tick_dispatch.
      destruct IH as [IHf IHt]; [ lia | lia | ].
      rewrite IHf, IHt. split.
      + destruct (is_handoff d); [ rewrite wrap_uint64_small | ]; lia.
      + destruct (is_firing d); [ rewrite wrap_int_small | ]; lia. }
  destruct H as [Hf Ht]. repeat split; try assumption.
  - intros d s' Hd. rewrite frame_count_dispatch, Hd. reflexivity.
  - intros d s' Hd. rewrite state_tick_dispatch, Hd. reflexivity.
Qed.

Lemma counters_never_reset_witness :
  frame_count (run dispatch [DoHandoff; DoStateMachine all_fine; DoHandoff;
                             DoStateMachine all_fine; DoStateMachine all_fine;
                             DoHandoff] initial_state) = 3
  /\ state_tick (run dispatch [DoHandoff; DoStateMachine all_fine; DoHandoff;
                               DoStateMachine all_fine; DoStateMachine all_fine;
                               DoHandoff] initial_state) = 3.
Proof.
  destruct (counters_never_reset
              [DoHandoff; DoStateMachine all_fine; DoHandoff;
               DoStateMachine all_fine; DoStateMachine all_fine; DoHandoff]
              initial_state) as (Hf & Ht & _).
  - vm_compute. discriminate.
  - vm_compute. discriminate.
  - vm_compute. discriminate.
  - vm_compute. discriminate.
  - split; [ exact Hf | exact Ht ].
Defined.

(** C5 as stated fails where the counter wraps: with [frame_count] at
    2^64-1 (by [frame_count_after_handoffs], where 2^64-1 handoffs after the
    start leave it) the next handoff takes it to 0. *)
Lemma frame_count_wraps_to_zero :
  frame_count counter_at_max = 18446744073709551615
  /\ frame_count (exec (dispatch DoHandoff) counter_at_max) = 0
  /\ ~ frame_count counter_at_max
       <= frame_count (exec (dispatch DoHandoff) counter_at_max).
Proof.
  assert (H : frame_count (exec (dispatch DoHandoff) counter_at_max) = 0)
    by reflexivity.
  rewrite H. repeat split. intro Hle. vm_compute in Hle. apply Hle. reflexivity.
Qed.

(** ** The sampler *)

Lemma wrap_uint64_range z : 0 <= wrap_uint64 z < UINT64_MODULUS.
Proof. apply Z.mod_pos_bound. reflexivity. Qed.

Lemma fps_log_cb_eq s :
  fps_log_cb s
  = (true,
     set_trace
       (trace s ++
        [EvStderr
           (LogFps (current_stage s)
              (double_div
                 (double_of_Z (wrap_uint64 (frame_count s - last_frame_count s)))
                 five))])
       (set_last_frame_count (frame_count s) s)).
Proof. reflexivity. Qed.

Lemma last_frame_count_dispatch d s :
  last_frame_count (exec (dispatch d) s)
  = if is_fps_log d then frame_count s else last_frame_count s.
Proof.
  destruct d; cbn [is_fps_log].
  - apply preserves_on_handoff; reflexivity.
  - reflexivity.
  - apply (preserves_bind last_frame_count); [ | intro; apply preserves_ret ].
    apply preserves_state_machine_cb; reflexivity.
  - apply (preserves_bind last_frame_count); [ | intro; apply preserves_ret ].
    apply preserves_bus_cb; reflexivity.
  - apply preserves_handle_sigint; reflexivity.
Qed.

Lemma stage_dispatch d s :
  current_stage s = phase_label (phase s) ->
  current_stage (exec (dispatch d) s) = phase_label (phase (exec (dispatch d) s)).
Proof.
  intro H.
  destruct (is_firing d) eqn:Hd.
  - destruct d; try discriminate. cbn [dispatch]. rewrite exec_then_ret.
    rewrite current_stage_state_machine_cb, phase_state_machine_cb. reflexivity.
  - rewrite phase_other_dispatch by exact Hd. rewrite <- H.
    destruct d; try discriminate.
    + apply preserves_on_handoff; reflexivity.
    + apply (preserves_bind current_stage); [ | intro; apply preserves_ret ].
      apply preserves_fps_log_cb; reflexivity.
    + apply (preserves_bind current_stage); [ | intro; apply preserves_ret ].
      apply preserves_bus_cb; reflexivity.
    + apply preserves_handle_sigint; reflexivity.
Qed.

Lemma well_formed_dispatch d s :
  well_formed s -> well_formed (exec (dispatch d) s).
Proof.
  intros (Hstage & Hfc & Hlast). repeat split.
  - apply stage_dispatch, Hstage.
  - rewrite frame_count_dispatch. destruct (is_handoff d);
      [ apply wrap_uint64_range | apply Hfc ].
  - rewrite frame_count_dispatch. destruct (is_handoff d);
      [ apply wrap_uint64_range | apply Hfc ].
  - rewrite last_frame_count_dispatch. destruct (is_fps_log d);
      [ apply Hfc | apply Hlast ].
  - rewrite last_frame_count_dispatch. destruct (is_fps_log d);
      [ apply Hfc | apply Hlast ].
Qed.

Lemma well_formed_run ops s :
  well_formed s -> well_formed (run dispatch ops s).
Proof.
  intro H. induction ops as [ | d ops IH ] using rev_ind; [ exact H | ].
  rewrite run_snoc. apply well_formed_dispatch, IH.
Qed.

Lemma well_formed_startup argv e s0 :
  main_startup argv e = Run s0 -> well_formed s0.
Proof.
  intro H. unfold well_formed.
  assert (Hs : current_stage s0 = current_stage initial_state)
    by (apply (main_startup_frame current_stage) with (argv := argv) (e := e);
        solve [ reflexivity | exact H ]).
  assert (Hp : phase s0 = phase initial_state)
    by (apply (main_startup_frame phase) with (argv := argv) (e := e);
        solve [ reflexivity | exact H ]).
  assert (Hf : frame_count s0 = frame_count initial_state)
    by (apply (main_startup_frame frame_count) with (argv := argv) (e := e);
        solve [ reflexivity | exact H ]).
  assert (Hl : last_frame_count s0 = last_frame_count initial_state)
    by (apply (main_startup_frame last_frame_count) with (argv := argv) (e := e);
        solve [ reflexivity | exact H ]).
  rewrite Hs, Hp, Hf, Hl. cbn. unfold UINT64_MODULUS.
  repeat split; try reflexivity; discriminate.
Qed.

(** The counter after any calls: the handoffs among them, modulo 2^64. *)
Lemma frame_count_run ops s :
  0 <= frame_count s < UINT64_MODULUS ->
  frame_count (run dispatch ops s)
  = wrap_uint64 (frame_count s + Z.of_nat (count is_handoff ops)).
Proof.
  intro Hs. induction ops as [ | d ops IH ] using rev_ind.
  - cbn [run fold_left count filter List.length Z.of_nat]. rewrite Z.add_0_r.
    symmetry. apply Z.mod_small. exact Hs.
  - rewrite run_snoc, frame_count_dispatch, count_snoc, IH.
    destruct (is_handoff d).
    + unfold wrap_uint64.
      rewrite Z.add_mod_idemp_l by (unfold UINT64_MODULUS; lia).
      f_equal. lia.
    + f_equal. lia.
Qed.

Lemma last_frame_count_run ops s :
  count is_fps_log ops = 0%nat ->
  last_frame_count (run dispatch ops s) = last_frame_count s.
Proof.
  induction ops as [ | d ops IH ] using rev_ind; intro H; [ reflexivity | ].
  rewrite count_snoc in H. rewrite run_snoc, last_frame_count_dispatch.
  destruct (is_fps_log d); [ lia | ]. apply IH. lia.
Qed.

Lemma run_app disp ops1 ops2 s :
  run disp (ops1 ++ ops2) s = run disp ops2 (run disp ops1 s).
Proof. unfold run. apply fold_left_app. Qed.

(** ** What the timers depend on

    The phase, the tick and the attached timeouts evolve the same way
    whatever the engine answers and whatever the rest of the state is. *)

Lemma agree_ret {A B} (f : state -> A) (R : B -> B -> Prop) b1 b2 :
  R b1 b2 -> agree f R (ret b1) (ret b2).
Proof. intros H s1 s2 Hs. split; assumption. Qed.

Lemma agree_bind_eq {A B C} (f : state -> A) (R : C -> C -> Prop)
      (m1 m2 : M B) (k1 k2 : B -> M C) :
  agree f eq m1 m2 -> (forall b, agree f R (k1 b) (k2 b)) ->
  agree f R (bind m1 k1) (bind m2 k2).
Proof.
  unfold agree, bind. intros Hm Hk s1 s2 Hs.
  specialize (Hm s1 s2 Hs).
  destruct (m1 s1) as [b1 t1], (m2 s2) as [b2 t2]. cbn [fst snd] in Hm.
  destruct Hm as [-> Ht]. apply Hk, Ht.
Qed.

Lemma agree_bind_any {A B C} (f : state -> A) (R : C -> C -> Prop)
      (m1 m2 : M B) (k1 k2 : B -> M C) :
  preserves f m1 -> preserves f m2 ->
  (forall b1 b2, agree f R (k1 b1) (k2 b2)) ->
  agree f R (bind m1 k1) (bind m2 k2).
Proof.
  unfold agree, preserves, bind. intros H1 H2 Hk s1 s2 Hs.
  specialize (H1 s1). specialize (H2 s2).
  destruct (m1 s1) as [b1 t1], (m2 s2) as [b2 t2]. cbn [fst snd] in *.
  apply Hk. congruence.
Qed.

Lemma agree_get {A B} (f : state -> A) (g : state -> B) :
  (forall s1 s2, f s1 = f s2 -> g s1 = g s2) -> agree f eq (get g) (get g).
Proof. intros H s1 s2 Hs. split; [ apply H, Hs | exact Hs ]. Qed.

Lemma agree_modify {A} (f : state -> A) (g : state -> state) :
  (forall s1 s2, f s1 = f s2 -> f (g s1) = f (g s2)) ->
  agree f eq (modify g) (modify g).
Proof. intros H s1 s2 Hs. split; [ reflexivity | apply H, Hs ]. Qed.

Lemma agree_any {A B} (f : state -> A) (R : B -> B -> Prop) (m1 m2 : M B) :
  agree f eq m1 m2 -> (forall b, R b b) -> agree f R m1 m2.
Proof.
  intros H HR s1 s2 Hs. destruct (H s1 s2 Hs) as [Hb Ht].
  split; [ rewrite Hb; apply HR | exact Ht ].
Qed.

Lemma tview_fields s1 s2 :
  tview s1 = tview s2 ->
  phase s1 = phase s2 /\ phase_mode s1 = phase_mode s2
  /\ state_tick s1 = state_tick s2 /\ state_timer_id s1 = state_timer_id s2
  /\ sources s1 = sources s2 /\ next_source_id s1 = next_source_id s2
  /\ clock s1 = clock s2.
Proof. unfold tview. intro H. injection H as -> -> -> -> -> -> ->. repeat split. Qed.

Ltac tview_solve :=
  let s1 := fresh "s1" in
  let s2 := fresh "s2" in
  let H := fresh "H" in
  intros s1 s2 H; apply tview_fields in H;
  let H1 := fresh in let H2 := fresh in let H3 := fresh in
  let H4 := fresh in let H5 := fresh in let H6 := fresh in
  let H7 := fresh in
  destruct H as (H1 & H2 & H3 & H4 & H5 & H6 & H7);
  unfold tview, source_attached; state_simpl;
  rewrite ?H1, ?H2, ?H3, ?H4, ?H5, ?H6, ?H7; reflexivity.

Lemma agree_g_source_remove id :
  agree tview eq (g_source_remove id) (g_source_remove id).
Proof. apply agree_modify. tview_solve. Qed.

Lemma agree_g_timeout_add_seconds seconds cb :
  agree tview eq (g_timeout_add_seconds seconds cb)
        (g_timeout_add_seconds seconds cb).
Proof.
  intros s1 s2 H. apply tview_fields in H.
  destruct H as (? & ? & ? & ? & ? & ? & ?).
  unfold g_timeout_add_seconds, tview. cbn [fst snd]. state_simpl.
  split; congruence.
Qed.

Lemma agree_arm_next_state_timer seconds :
  agree tview eq (arm_next_state_timer seconds) (arm_next_state_timer seconds).
Proof.
  unfold arm_next_state_timer.
  apply agree_bind_eq; [ apply agree_get; tview_solve | intros id ].
  apply agree_bind_eq.
  - destruct (negb (id =? 0)%nat); [ | apply agree_ret; reflexivity ].
    apply agree_bind_eq; [ apply agree_g_source_remove | intros _ ].
    apply agree_modify. tview_solve.
  - intros _.
    apply agree_bind_eq; [ apply agree_g_timeout_add_seconds | intros id' ].
    apply agree_modify. tview_solve.
Qed.

Ltac tview_frame :=
  first
    [ apply preserves_get
    | apply preserves_emit; reflexivity
    | apply preserves_set_pipeline_state; reflexivity
    | apply preserves_unref_tee_req_pads; reflexivity
    | apply preserves_create_pipeline; reflexivity
    | apply preserves_fps_log_cb; reflexivity
    | apply preserves_modify; reflexivity ].

Ltac agree_leaf :=
  first
    [ apply agree_get; solve [ tview_solve ]
    | apply agree_modify; solve [ tview_solve ]
    | apply agree_g_source_remove
    | apply agree_g_timeout_add_seconds
    | apply agree_arm_next_state_timer ].

Ltac agree_step :=
  lazymatch goal with
  | |- agree _ _ (bind _ _) (bind _ _) =>
      first [ apply agree_bind_eq; [ solve [ agree_known ] | intro ]
            | apply agree_bind_any;
              [ solve [ tview_frame ] | solve [ tview_frame ] | intros ? ? ] ]
  | |- agree _ _ (ret _) (ret _) => apply agree_ret; reflexivity
  | |- agree _ _ (if ?b then _ else _) (if ?b then _ else _) => destruct b
  | |- agree _ _ (match ?x with _ => _ end) (match ?x with _ => _ end) =>
      destruct x
  | |- agree _ _ _ _ => agree_leaf
  end
with agree_known :=
  first [ agree_leaf | repeat agree_step ].


Lemma agree_state_machine_cb e1 e2 :
  agree tview eq (state_machine_cb e1) (state_machine_cb e2).
Proof.
  unfold state_machine_cb, recreate_pipeline. repeat agree_step.
Qed.

Lemma agree_fps_log_cb : agree tview eq fps_log_cb fps_log_cb.
Proof. unfold fps_log_cb. repeat agree_step. Qed.

Lemma agree_reschedule id : agree tview eq (reschedule id) (reschedule id).
Proof. apply agree_modify. tview_solve. Qed.

Lemma agree_dispatch_source envs1 envs2 src :
  agree tview eq (dispatch_source envs1 src) (dispatch_source envs2 src).
Proof.
  unfold dispatch_source.
  apply agree_bind_eq; [ apply agree_get; tview_solve | intros attached ].
  destruct attached; [ | apply agree_ret; reflexivity ].
  apply agree_bind_eq; [ apply agree_get; tview_solve | intros now ].
  apply agree_bind_eq.
  - destruct (src_cb src);
      [ apply agree_fps_log_cb | apply agree_state_machine_cb ].
  - intros keep. destruct keep;
      [ apply agree_reschedule | apply agree_g_source_remove ].
Qed.

Lemma agree_second_elapses envs1 envs2 :
  agree tview eq (second_elapses envs1) (second_elapses envs2).
Proof.
  unfold second_elapses.
  apply agree_bind_eq; [ apply agree_modify; tview_solve | intros _ ].
  apply agree_bind_eq; [ apply agree_get; tview_solve | intros due ].
  induction due as [ | src due IH ]; cbn [fold_right].
  - apply agree_ret. reflexivity.
  - apply agree_bind_eq; [ apply agree_dispatch_source | intros _; exact IH ].
Qed.

Lemma agree_elapse envs1 envs2 seconds : forall s1 s2,
  tview s1 = tview s2 ->
  tview (elapse envs1 seconds s1) = tview (elapse envs2 seconds s2).
Proof.
  induction seconds as [ | n IH ]; intros s1 s2 H; [ exact H | ].
  cbn [elapse]. apply IH. apply agree_second_elapses, H.
Qed.

Lemma agree_main_enter_loop : agree tview eq main_enter_loop main_enter_loop.
Proof.
  unfold main_enter_loop.
  repeat (apply agree_bind_eq;
          [ first [ apply agree_modify; tview_solve
                  | apply agree_g_timeout_add_seconds
                  | apply agree_arm_next_state_timer ]
          | intro ]).
  apply agree_modify. tview_solve.
Qed.

(** What the clocked context starts from. *)
Lemma tview_startup argv e s0 :
  main_startup argv e = Run s0 ->
  tview s0
  = tview (exec main_enter_loop (set_phase_mode (phase_mode s0) initial_state)).
Proof.
  intro H.
  assert (Hmode : phase_mode s0 = phase_mode s0) by reflexivity.
  destruct (main_startup_run argv e s0 H) as (mode & p & s1 & _ & _ & _ & Hc & ->).
  apply agree_main_enter_loop.
  pose proof (preserves_create_pipeline tview
                ltac:(reflexivity) ltac:(reflexivity) ltac:(reflexivity)
                ltac:(reflexivity) e "10.0.0.2" 5000
                (initialised mode)) as Hs.
  rewrite Hc in Hs. cbn [snd] in Hs.
  assert (Hm : phase_mode (exec main_enter_loop (set_pipeline (Some p) s1))
               = mode).
  { rewrite (preserves_exec phase_mode main_enter_loop);
      [ | apply preserves_main_enter_loop; reflexivity ].
    apply (f_equal (fun v => snd (fst (fst (fst (fst (fst v))))))) in Hs.
    exact Hs. }
  rewrite Hm.
  transitivity (tview s1); [ reflexivity | ]. rewrite Hs. reflexivity.
Qed.

Lemma tview_after argv e envs s0 seconds :
  main_startup argv e = Run s0 ->
  tview (elapse envs seconds s0)
  = tview (elapse (fun _ => all_fine) seconds
             (exec main_enter_loop
                   (set_phase_mode (phase_mode s0) initial_state))).
Proof. intro H. apply agree_elapse, (tview_startup argv e), H. Qed.

(** C7.  In 3-phase mode, with the timers as [main] and [state_machine_cb]
    arm them (1 s at start, 10 s in PLAYING, 1 s in PAUSED, 1 s after the
    rebuild) and callbacks taking no time, the state machine has fired four
    times when 22 seconds have elapsed (at seconds 1, 11, 12 and 13), so
    [state_tick] is 4, which is at least 2, and the phase is PLAYING, as it
    is from second 13 to second 22; this whatever the engine answers at the
    rebuild. *)
Theorem after_22_seconds_playing
        (argv : list string) (e : build_env) (envs : nat -> build_env)
        (s0 : state) :
  main_startup argv e = Run s0 ->
  phase_mode s0 = 3 ->
  let s := elapse envs 22 s0 in
  clock s = 22%nat
  /\ 2 <= state_tick s
  /\ state_tick s = 4
  /\ phase s = PLAYING
  /\ (forall t, (13 <= t <= 22)%nat ->
                phase (elapse envs t s0) = PLAYING
                /\ state_tick (elapse envs t s0) = 4).
Proof.
  intros Hrun Hmode s.
  assert (Hat : forall t,
             tview (elapse envs t s0)
             = tview (elapse (fun _ => all_fine) t
                        (exec main_enter_loop (set_phase_mode 3 initial_state)))).
  { intro t. rewrite (tview_after argv e envs s0 t Hrun), Hmode. reflexivity. }
  assert (H22 := Hat 22%nat). fold s in H22.
  apply tview_fields in H22.
  destruct H22 as (Hp & _ & Ht & _ & _ & _ & Hc).
  split; [ rewrite Hc; vm_compute; reflexivity | ].
  split; [ rewrite Ht; vm_compute; discriminate | ].
  split; [ rewrite Ht; vm_compute; reflexivity | ].
  split; [ rewrite Hp; vm_compute; reflexivity | ].
  intros t Hrange.
  specialize (Hat t). apply tview_fields in Hat.
  destruct Hat as (Hp' & _ & Ht' & _).
  rewrite Hp', Ht'.
  assert (Hcases : (t = 13 \/ t = 14 \/ t = 15 \/ t = 16 \/ t = 17 \/ t = 18
                    \/ t = 19 \/ t = 20 \/ t = 21 \/ t = 22)%nat) by lia.
  repeat (destruct Hcases as [-> | Hcases]; [ vm_compute; split; reflexivity | ]).
  subst t. vm_compute. split; reflexivity.
Qed.

Lemma after_22_seconds_playing_witness :
  phase (elapse (fun _ => all_fine) 22
           (exec main_enter_loop
              (set_pipeline (fst (create_pipeline all_fine "10.0.0.2" 5000
                                    (initialised 3)))
                 (snd (create_pipeline all_fine "10.0.0.2" 5000
                         (initialised 3)))))) = PLAYING.
Proof.
  exact (proj1 (proj2 (proj2 (proj2
    (after_22_seconds_playing ["gst_cycle"] all_fine (fun _ => all_fine) _
       eq_refl eq_refl))))).
Defined.

(** The timeouts [main] leaves attached: the 5-second sampler and the
    1-second first state timer. *)
Lemma sources_startup argv e s0 :
  main_startup argv e = Run s0 ->
  sources s0
  = [ {| src_id := 1%nat; src_interval := 5%nat; src_due := 5%nat;
         src_cb := CbFpsLog |};
      {| src_id := 2%nat; src_interval := 1%nat; src_due := 1%nat;
         src_cb := CbStateMachine |} ].
Proof.
  intro H. pose proof (tview_startup argv e s0 H) as Hv.
  apply tview_fields in Hv. destruct Hv as (_ & _ & _ & _ & Hs & _).
  rewrite Hs. reflexivity.
Qed.

(** C6.  In every state the running program reaches, a call of [fps_log_cb]
    returns [TRUE] and: computes the rate as the [uint64_t] difference
    [frame_count - last_frame_count] (the plain difference whenever the
    counter has not wrapped since the last sample) divided, as a double, by
    5.0; stores the current count in [last_frame_count]; writes one [FPS]
    line carrying the label of the current phase and that rate.  [main]
    attaches it as a 5-second timeout.  150 handoffs between two consecutive
    samples, whatever else is dispatched in between, give the rate 30.0. *)
Theorem sampler_reports_windowed_rate
        (argv : list string) (e : build_env) (ops window : list dispatched)
        (s0 : state) :
  main_startup argv e = Run s0 ->
  count is_fps_log window = 0%nat ->
  count is_handoff window = 150%nat ->
  let s := run dispatch ops s0 in
  let diff := wrap_uint64 (frame_count s - last_frame_count s) in
  let s' := run dispatch window (exec fps_log_cb s) in
  fps_log_cb s
  = (true,
     set_trace
       (trace s ++
        [EvStderr (LogFps (phase_label (phase s))
                          (double_div (double_of_Z diff) five))])
       (set_last_frame_count (frame_count s) s))
  /\ (last_frame_count s <= frame_count s ->
      diff = frame_count s - last_frame_count s)
  /\ five = double_of_Z 5
  /\ In {| src_id := 1%nat; src_interval := 5%nat; src_due := 5%nat;
           src_cb := CbFpsLog |} (sources s0)
  /\ trace (exec fps_log_cb s')
     = (trace s' ++ [EvStderr (LogFps (phase_label (phase s')) thirty)])%list
  /\ thirty = double_of_Z 30.
Proof.
  intros Hrun Hno Hn s diff s'.
  assert (Hwf : well_formed s)
    by (apply well_formed_run, (well_formed_startup argv e), Hrun).
  assert (Hwf1 : well_formed (exec fps_log_cb s)).
  { change (exec fps_log_cb s) with (exec (fps_log_cb ;; ret tt) s).
    apply (well_formed_dispatch DoFpsLog), Hwf. }
  assert (Hwf' : well_formed s') by (apply well_formed_run, Hwf1).
  destruct Hwf as (Hstage & Hfc & Hlast).
  split; [ rewrite fps_log_cb_eq, Hstage; reflexivity | ].
  split.
  { intro Hle. subst diff. apply Z.mod_small. lia. }
  split; [ reflexivity | ].
  split.
  { rewrite (sources_startup argv e s0 Hrun). left. reflexivity. }
  split; [ | reflexivity ].
  unfold exec at 1. rewrite fps_log_cb_eq. cbn [snd]. state_simpl.
  destruct Hwf' as (Hstage' & _ & _). rewrite Hstage'.
  do 4 f_equal.
  assert (Hf' : frame_count s' = wrap_uint64 (frame_count s + 150)).
  { subst s'. rewrite frame_count_run by apply Hwf1. rewrite Hn. reflexivity. }
  assert (Hl' : last_frame_count s' = frame_count s).
  { subst s'. rewrite last_frame_count_run by exact Hno. reflexivity. }
  rewrite Hf', Hl'. unfold wrap_uint64.
  rewrite Zminus_mod_idemp_l.
  replace (frame_count s + 150 - frame_count s) with 150 by lia.
  reflexivity.
Qed.


Lemma sampler_reports_windowed_rate_witness :
  let s0 := exec main_enter_loop
              (set_pipeline (fst (create_pipeline all_fine "10.0.0.2" 5000
                                    (initialised 3)))
                 (snd (create_pipeline all_fine "10.0.0.2" 5000
                         (initialised 3)))) in
  let s' := run dispatch (repeat DoHandoff 150)
                (exec fps_log_cb (run dispatch [] s0)) in
  trace (exec fps_log_cb s')
  = (trace s' ++ [EvStderr (LogFps (phase_label (phase s')) thirty)])%list.
Proof.
  exact (proj1 (proj2 (proj2 (proj2 (proj2
    (sampler_reports_windowed_rate ["gst_cycle"] all_fine [] (repeat DoHandoff 150)
       _ eq_refl eq_refl eq_refl)))))).
Defined.

(** ** A rebuild that fails *)

Lemma create_pipeline_launch_failure e host port s :
  parse_launch_ok e = false -> fst (create_pipeline e host port s) = None.
Proof.
  intro H. unfold create_pipeline, bind, modify, emit, cerr, ret.
  rewrite H. destruct (launch_error e); reflexivity.
Qed.

(** What [arm_next_state_timer] leaves behind: one new timeout, remembered in
    [state_timer_id]. *)
Lemma arm_next_state_timer_armed seconds s :
  let s' := exec (arm_next_state_timer seconds) s in
  state_timer_id s' = next_source_id s
  /\ In {| src_id := next_source_id s; src_interval := seconds;
           src_due := (clock s + seconds)%nat; src_cb := CbStateMachine |}
        (sources s')
  /\ pipeline s' = pipeline s /\ loop s' = loop s.
Proof.
  unfold arm_next_state_timer, exec, bind, get, modify, g_source_remove,
    g_timeout_add_seconds, ret.
  destruct (negb (state_timer_id s =? 0)%nat); cbn [fst snd]; state_simpl;
    (split; [ reflexivity | ]); (split; [ | split; reflexivity ]);
    apply in_or_app; right; left; reflexivity.
Qed.

Lemma wp_arm_next_state_timer seconds (Q : unit -> state -> Prop) s :
  (forall s',
      state_timer_id s' = next_source_id s ->
      In {| src_id := next_source_id s; src_interval := seconds;
            src_due := (clock s + seconds)%nat; src_cb := CbStateMachine |}
         (sources s') ->
      pipeline s' = pipeline s -> loop s' = loop s -> Q tt s') ->
  wp (arm_next_state_timer seconds) Q s.
Proof.
  intro H. destruct (arm_next_state_timer_armed seconds s) as (H1 & H2 & H3 & H4).
  unfold wp, exec in *. destruct (arm_next_state_timer seconds s) as [[] s'].
  cbn [fst snd] in *. apply H; assumption.
Qed.

Lemma wp_create_pipeline_launch_failure e host port
      (Q : option GstElement -> state -> Prop) s :
  parse_launch_ok e = false ->
  (forall s', tview s' = tview s -> loop s' = loop s -> Q None s') ->
  wp (create_pipeline e host port) Q s.
Proof.
  intros He H. unfold wp.
  rewrite create_pipeline_launch_failure by exact He.
  apply H; apply preserves_create_pipeline; reflexivity.
Qed.

(** C2, what the program does.  When [create_pipeline] fails during a rebuild
    (here: the launch line does not parse), [state_machine_cb] stores the
    null pipeline, goes to [NULL_STATE] and arms the next 1-second timer all
    the same; the loop is not quit and nothing exits. *)
Theorem rebuild_failure_rearms_timer (e : build_env) (s : state) :
  parse_launch_ok e = false ->
  (phase s = PAUSED /\ phase_mode s <> 4) \/ phase s = READY ->
  let s' := exec (state_machine_cb e) s in
  pipeline s' = None
  /\ phase s' = NULL_STATE
  /\ loop s' = loop s
  /\ state_timer_id s' = next_source_id s
  /\ In {| src_id := next_source_id s; src_interval := 1%nat;
           src_due := (clock s + 1)%nat; src_cb := CbStateMachine |}
        (sources s').
Proof.
  intros He Hph s'.
  assert (Hnext : next_phase (phase_mode s) (phase s) = NULL_STATE).
  { destruct Hph as [[-> Hm] | ->]; [ | reflexivity ]. cbn [next_phase].
    destruct (phase_mode s =? 4)%Z eqn:E; [ | reflexivity ].
    apply Z.eqb_eq in E. contradiction. }
  split; [ | split; [ | split ] ].
  2: { subst s'. rewrite phase_state_machine_cb. exact Hnext. }
  2: { subst s'. apply preserves_state_machine_cb; reflexivity. }
  all: subst s'.
  all: match goal with
       | |- ?G =>
           let P := eval pattern (exec (state_machine_cb e) s) in G in
           match P with
           | ?F _ => change (wp (state_machine_cb e) (fun _ s' => F s') s)
           end
       end; cbv beta.
  all: unfold state_machine_cb; repeat wp_step.
  all: try (exfalso; destruct Hph as [[? ?] | ?]; congruence).
  all: try (exfalso; destruct Hph as [[_ Hm] | Hp]; [ | congruence ];
            match goal with
            | H : (_ =? 4)%Z = true |- _ => apply Z.eqb_eq in H
            end; contradiction).
  all: apply (wp_preserves tview);
    [ apply preserves_unref_tee_req_pads; reflexivity | intros _ s1 H1 ];
    repeat wp_step;
    apply wp_create_pipeline_launch_failure; [ exact He | intros s2 H2 _ ];
    repeat wp_step;
    apply wp_arm_next_state_timer; intros s3 Hid Hin Hp _;
    repeat wp_step;
    apply tview_fields in H1, H2; state_simpl;
    destruct H1 as (_ & _ & _ & _ & _ & H1n & H1c);
    destruct H2 as (_ & _ & _ & _ & _ & H2n & H2c).
  1, 2: exact Hp.
  all: rewrite H2n, H1n in Hid, Hin; rewrite H2c, H1c in Hin; tauto.
Qed.

Lemma rebuild_failure_rearms_timer_witness :
  pipeline (exec (state_machine_cb launch_fails)
                 (set_phase PAUSED initial_state)) = None.
Proof.
  apply (rebuild_failure_rearms_timer launch_fails
           (set_phase PAUSED initial_state)).
  - reflexivity.
  - left. split; [ reflexivity | discriminate ].
Defined.

(** ** Construction *)

(** C3 as stated fails on a link failure: when the tee pad of the FPS
    (measurement) branch does not link, [create_pipeline] unrefs that pad,
    logs, and returns the pipeline, the UDP pad still held. *)
Lemma fps_link_failure_returns_pipeline :
  create_pipeline fps_link_fails "10.0.0.2" 5000 initial_state
  = (Some 1%nat,
     set_trace
       [EvParseLaunch (Some 1%nat); EvBusAddWatch 1%nat;
        EvBinAddBranches 1%nat "10.0.0.2" 5000;
        EvRequestPad 1%nat 2%nat;
        EvRequestPad 1%nat 3%nat; EvUnrefPad 3%nat;
        EvStderr (LogError "[ERROR] failed to link tee -> FPS queue");
        EvConnectHandoff 1%nat; EvUnrefTee 1%nat]
       (set_next_object 4%nat
          (set_tee_req_pad_udp (Some 2%nat) initial_state))).
Proof. reflexivity. Qed.

Lemma branch_element_missing_iff e :
  branch_element_missing e = true
  <-> (q_udp_ok e = false \/ pay_ok e = false \/ udp_ok e = false
       \/ q_fps_ok e = false \/ id_ok e = false \/ fsink_ok e = false).
Proof.
  unfold branch_element_missing.
  destruct (q_udp_ok e), (pay_ok e), (udp_ok e), (q_fps_ok e), (id_ok e),
    (fsink_ok e); cbn [negb orb]; split; intro H; try reflexivity;
    try discriminate; intuition congruence.
Qed.

(** The link helper: what it returns, and that it tears nothing down. *)
Lemma link_tee_to_queue_and_keep_pad_quiet t pipe s :
  let r := link_tee_to_queue_and_keep_pad t pipe s in
  fst r = (if tee_link_ok t then Some (next_object s) else None)
  /\ tee_req_pad_udp (snd r) = tee_req_pad_udp s
  /\ tee_req_pad_fps (snd r) = tee_req_pad_fps s
  /\ exists evs,
       trace (snd r) = (trace s ++ evs)%list
       /\ forallb (fun ev => negb (is_teardown ev)) evs = true.
Proof.
  unfold link_tee_to_queue_and_keep_pad, tee_link_ok, bind, fresh_object, emit,
    modify, ret.
  destruct (request_pad_ok t), (static_pad_ok t), (pad_link_ok t);
    cbn [fst snd andb]; state_simpl;
    (split; [ reflexivity | split; [ reflexivity | split; [ reflexivity | ] ] ]);
    rewrite <- ?app_assoc; cbn [app];
    first [ eexists; split; [ reflexivity | reflexivity ]
          | exists []; split; [ symmetry; apply app_nil_r | reflexivity ] ].
Qed.

Lemma wp_link_tee_to_queue_and_keep_pad_quiet t pipe
      (Q : option GstPad -> state -> Prop) s :
  (forall s' evs,
      trace s' = (trace s ++ evs)%list ->
      forallb (fun ev => negb (is_teardown ev)) evs = true ->
      tee_req_pad_udp s' = tee_req_pad_udp s ->
      tee_req_pad_fps s' = tee_req_pad_fps s ->
      Q (if tee_link_ok t then Some (next_object s) else None) s') ->
  wp (link_tee_to_queue_and_keep_pad t pipe) Q s.
Proof.
  intro H.
  destruct (link_tee_to_queue_and_keep_pad_quiet t pipe s)
    as (H1 & H2 & H3 & evs & H4 & H5).
  unfold wp. rewrite H1. apply (H _ evs); assumption.
Qed.

(** C3, as the program has it.  Once the launch line is parsed and the tee
    found: if any of the six branch elements cannot be made, those of the
    measurement sub-chain or any other, [create_pipeline] has requested no
    pad yet, logs, unrefs the tee and the pipeline and returns null, no pad
    kept.  If all six are made it returns the pipeline whatever the four
    links do: a link that fails, of the measurement sub-chain, of its tee
    pad or of the other branch, is logged and nothing is torn down; a tee
    pad that did not link is not kept. *)
Theorem construction_fails_whole_on_missing_element
        (e : build_env) (host : string) (port : Z) (s : state) :
  parse_launch_ok e = true ->
  tee_found e = true ->
  let pipe := next_object s in
  let r := create_pipeline e host port s in
  (q_udp_ok e = false \/ pay_ok e = false \/ udp_ok e = false
   \/ q_fps_ok e = false \/ id_ok e = false \/ fsink_ok e = false ->
   fst r = None
   /\ kept_pads (snd r) = []
   /\ trace (snd r)
      = (trace s ++
         [EvParseLaunch (Some pipe); EvBusAddWatch pipe;
          EvStderr (LogError "[ERROR] failed to create branch elements");
          EvUnrefTee pipe; EvUnrefPipeline (Some pipe)])%list)
  /\ (branch_element_missing e = false ->
      fst r = Some pipe
      /\ exists evs,
           trace (snd r)
           = (trace s ++
              EvParseLaunch (Some pipe) :: EvBusAddWatch pipe
              :: EvBinAddBranches pipe host port :: evs)%list
           /\ forallb (fun ev => negb (is_teardown ev)) evs = true
           /\ (link_udp_branch_ok e = false ->
               In (EvStderr (LogError "[ERROR] failed to link UDP branch")) evs)
           /\ (link_fps_branch_ok e = false ->
               In (EvStderr (LogError "[ERROR] failed to link FPS branch")) evs)
           /\ (tee_link_ok (udp_tee e) = false ->
               tee_req_pad_udp (snd r) = None
               /\ In (EvStderr (LogError "[ERROR] failed to link tee -> UDP queue"))
                     evs)
           /\ (tee_link_ok (fps_tee e) = false ->
               tee_req_pad_fps (snd r) = None
               /\ In (EvStderr (LogError "[ERROR] failed to link tee -> FPS queue"))
                     evs)).
Proof.
  intros Hp Ht pipe r. split.
  - intro Hmiss. apply branch_element_missing_iff in Hmiss.
    subst r pipe.
    change (wp (create_pipeline e host port)
               (fun r s' =>
                  r = None /\ kept_pads s' = []
                  /\ trace s'
                     = (trace s ++
                        [EvParseLaunch (Some (next_object s));
                         EvBusAddWatch (next_object s);
                         EvStderr (LogError "[ERROR] failed to create branch elements");
                         EvUnrefTee (next_object s);
                         EvUnrefPipeline (Some (next_object s))])%list) s).
    unfold create_pipeline. rewrite Hp, Ht, Hmiss. cbn [negb].
    repeat wp_step. unfold kept_pads. state_simpl.
    repeat split. rewrite <- !app_assoc. reflexivity.
  - intro Hall. subst r pipe.
    match goal with
    | |- fst ?m = _ /\ (exists evs, @?B evs) =>
        change (wp (create_pipeline e host port)
                  (fun r s' =>
                     r = Some (next_object s)
                     /\ exists evs,
                          trace s'
                          = (trace s ++
                             EvParseLaunch (Some (next_object s))
                             :: EvBusAddWatch (next_object s)
                             :: EvBinAddBranches (next_object s) host port
                             :: evs)%list
                          /\ forallb (fun ev => negb (is_teardown ev)) evs = true
                          /\ (link_udp_branch_ok e = false ->
                              In (EvStderr (LogError "[ERROR] failed to link UDP branch")) evs)
                          /\ (link_fps_branch_ok e = false ->
                              In (EvStderr (LogError "[ERROR] failed to link FPS branch")) evs)
                          /\ (tee_link_ok (udp_tee e) = false ->
                              tee_req_pad_udp s' = None
                              /\ In (EvStderr (LogError "[ERROR] failed to link tee -> UDP queue")) evs)
                          /\ (tee_link_ok (fps_tee e) = false ->
                              tee_req_pad_fps s' = None
                              /\ In (EvStderr (LogError "[ERROR] failed to link tee -> FPS queue")) evs)) s)
    end.
    unfold create_pipeline. rewrite Hp, Ht, Hall. cbn [negb].
    repeat wp_step.
    all: apply wp_link_tee_to_queue_and_keep_pad_quiet;
      intros s1 evs1 Ht1 Hq1 Hu1 Hf1.
    all: repeat wp_step.
    all: apply wp_link_tee_to_queue_and_keep_pad_quiet;
      intros s2 evs2 Ht2 Hq2 Hu2 Hf2.
    all: repeat wp_step.
    all: (split; [ reflexivity | ]).
    all: rewrite ?Ht2; state_simpl; rewrite ?Ht2; state_simpl;
      rewrite ?Ht1; state_simpl.
    all: rewrite <- ?app_assoc; cbn [app].
    all: eexists; (split; [ reflexivity | ]).
    all: repeat match goal with
                | H : negb _ = true |- _ => apply negb_true_iff in H
                | H : negb _ = false |- _ => apply negb_false_iff in H
                end.
    all: rewrite ?forallb_app; cbn [forallb is_teardown negb andb];
      rewrite ?Hq1, ?Hq2; cbn [andb].
    all: rewrite ?Hu2; state_simpl.
    all: repeat match goal with
                | H : (if ?b then _ else _) = _ |- _ =>
                    destruct b; try discriminate; clear H
                end.
    all: repeat split; try reflexivity; try congruence; intros;
      try congruence.
    all: try (repeat first
                [ rewrite forallb_app
                | progress cbn [forallb is_teardown negb andb] ];
              rewrite ?Hq1, ?Hq2; reflexivity).
    all: repeat first [ rewrite in_app_iff | cbn [In] ]; tauto.
Qed.

Lemma construction_fails_whole_on_missing_element_witness :
  fst (create_pipeline identity_missing "10.0.0.2" 5000 initial_state) = None.
Proof.
  exact (proj1 (proj1 (construction_fails_whole_on_missing_element
                         identity_missing "10.0.0.2" 5000 initial_state
                         eq_refl eq_refl)
                      (or_intror (or_intror (or_intror
                         (or_intror (or_introl eq_refl))))))).
Defined.

(** ** The command line *)

Lemma main_arg_loop_plain arg rest mode :
  plain_token arg = true ->
  main_arg_loop (arg :: rest) mode = main_arg_loop rest mode.
Proof.
  unfold plain_token. intro H. apply negb_true_iff in H.
  apply orb_false_iff in H. destruct H as [H Hphase].
  cbn [main_arg_loop]. rewrite H, Hphase. reflexivity.
Qed.

Lemma main_arg_loop_plain_prefix pre rest mode :
  forallb plain_token pre = true ->
  main_arg_loop (pre ++ rest) mode = main_arg_loop rest mode.
Proof.
  induction pre as [ | arg pre IH ]; intro H; [ reflexivity | ].
  cbn [forallb] in H. apply andb_true_iff in H. destruct H as [Ha Hpre].
  rewrite <- app_comm_cons, main_arg_loop_plain by exact Ha. apply IH, Hpre.
Qed.

Lemma main_arg_loop_phase value rest mode :
  main_arg_loop ("--phase" :: value :: rest) mode
  = match stoi value with
    | Ok v => main_arg_loop rest v
    | Throw ex => ArgsThrow ex mode
    end.
Proof. reflexivity. Qed.

Lemma main_arg_loop_plain_only args mode :
  forallb plain_token args = true -> main_arg_loop args mode = ArgsDone mode.
Proof.
  intro H. rewrite <- (app_nil_r args).
  rewrite main_arg_loop_plain_prefix by exact H. reflexivity.
Qed.

(** The one way the loop throws: [std::stoi] threw on some argument. *)
Lemma main_arg_loop_throw_bounded n : forall args mode ex mode',
  (List.length args <= n)%nat ->
  main_arg_loop args mode = ArgsThrow ex mode' ->
  exists value, In value args /\ stoi value = Throw ex.
Proof.
  induction n as [ | n IH ]; intros args mode ex mode' Hn H.
  - destruct args; [ discriminate | cbn in Hn; lia ].
  - destruct args as [ | arg rest ]; [ discriminate | ].
    cbn [main_arg_loop] in H. cbn [List.length] in Hn.
    destruct ((arg =? "--help") || (arg =? "-h"))%bool; [ discriminate | ].
    destruct (arg =? "--phase")%string.
    + destruct rest as [ | value rest' ]; [ discriminate | ].
      cbn [List.length] in Hn.
      destruct (stoi value) as [ v | ex' ] eqn:Hv.
      * destruct (IH rest' _ _ _ ltac:(lia) H) as (w & Hin & Hw).
        exists w. split; [ right; right; exact Hin | exact Hw ].
      * injection H as -> _. exists value.
        split; [ right; left; reflexivity | exact Hv ].
    + destruct (IH rest _ _ _ ltac:(lia) H) as (w & Hin & Hw).
      exists w. split; [ right; exact Hin | exact Hw ].
Qed.

Lemma main_arg_loop_throw args mode ex mode' :
  main_arg_loop args mode = ArgsThrow ex mode' ->
  exists value, In value args /\ stoi value = Throw ex.
Proof. apply (main_arg_loop_throw_bounded (List.length args)). lia. Qed.

(** C8 as stated fails when a help flag follows: [--phase 5 --help] parses 5,
    then prints the help and returns 0. *)
Lemma help_after_invalid_phase_exits_zero :
  stoi "5" = Ok 5
  /\ main ["gst_cycle"; "--phase"; "5"; "--help"] all_fine []
     = Returned 0 (exec (emit (EvPrintHelp "gst_cycle"))
                        (set_phase_mode 5 initial_state)).
Proof. split; reflexivity. Qed.

(** C8, as the program has it.  When the argument loop runs to its end (no
    help flag met, no exception from [std::stoi]) and leaves in [phase_mode]
    a number other than 3 and 4 (the value of the last [--phase] parsed),
    [main] writes the error line and returns -1: [gst_init] is not called,
    no pipeline is built.  One [--phase v] among arguments the loop steps
    over is such a command line, when [v] parses to such a number. *)
Theorem invalid_phase_exits_before_init
        (argv : list string) (e : build_env) (ops : list dispatched) (mode : Z) :
  main_arg_loop (tl argv) 3 = ArgsDone mode ->
  mode <> 3 -> mode <> 4 ->
  main argv e ops
  = Returned (-1)
      (set_trace [EvStderr (LogError "[ERROR] --phase must be 3 or 4")]
                 (set_phase_mode mode initial_state))
  /\ (forall prog pre value post,
         forallb plain_token pre = true ->
         forallb plain_token post = true ->
         stoi value = Ok mode ->
         main_arg_loop (tl (prog :: pre ++ "--phase" :: value :: post)) 3
         = ArgsDone mode).
Proof.
  intros Hloop H3 H4. split.
  - unfold main, main_startup. cbn [phase_mode initial_state]. rewrite Hloop.
    apply Z.eqb_neq in H3, H4. rewrite H3, H4. reflexivity.
  - intros prog pre value post Hpre Hpost Hv. cbn [tl].
    rewrite main_arg_loop_plain_prefix by exact Hpre.
    rewrite main_arg_loop_phase, Hv.
    apply main_arg_loop_plain_only, Hpost.
Qed.

Lemma invalid_phase_exits_before_init_witness :
  main ["gst_cycle"; "--verbose"; "--phase"; "7"] all_fine [DoHandoff]
  = Returned (-1)
      (set_trace [EvStderr (LogError "[ERROR] --phase must be 3 or 4")]
                 (set_phase_mode 7 initial_state)).
Proof.
  apply (invalid_phase_exits_before_init
           ["gst_cycle"; "--verbose"; "--phase"; "7"] all_fine [DoHandoff] 7).
  - reflexivity.
  - discriminate.
  - discriminate.
Defined.

(** C10 as stated fails on a value [std::stoi] cannot convert: nothing
    catches the exception and the process is terminated; and a trailing
    [--phase] after [--phase 4] leaves the mode at 4, not at the default. *)
Lemma unparsable_phase_value_terminates :
  stoi "abc" = Throw invalid_argument
  /\ main ["gst_cycle"; "--phase"; "abc"] all_fine []
     = Terminated initial_state
  /\ main_arg_loop ["--phase"; "4"; "--phase"] 3 = ArgsDone 4.
Proof. repeat split; reflexivity. Qed.

(** C10, as the program has it.  What [main] does with its arguments is
    decided by how the loop over them ends: at a help flag it returns 0; on
    an exception of [std::stoi] (a [--phase] value that is no number, or no
    [int]) the process is terminated; otherwise it returns -1 exactly when
    the mode left is neither 3 nor 4.  When it is 3 or 4, all of [argv] goes
    to [gst_init]: if [gst_init] ends the process on it, [main] is over with
    that exit code and has done nothing else; only if [gst_init] returns
    does [main] install its handler and build the pipeline.  The loop itself
    steps over every argument other than [-h], [--help] and [--phase]; a
    [--phase] with nothing after it changes nothing, so after arguments the
    loop steps over it leaves the default mode 3; and the loop throws only
    where [std::stoi] does. *)
Theorem command_line_leniency
        (argv : list string) (e : build_env) (ops : list dispatched) :
  match main_arg_loop (tl argv) 3 with
  | ArgsHelp mode =>
      main argv e ops
      = Returned 0 (exec (emit (EvPrintHelp (hd "" argv)))
                         (set_phase_mode mode initial_state))
  | ArgsThrow _ mode =>
      main argv e ops = Terminated (set_phase_mode mode initial_state)
  | ArgsDone mode =>
      if ((mode =? 3)%Z || (mode =? 4)%Z)%bool
      then match gst_init_exits e argv with
           | Some code =>
               main argv e ops
               = Returned code (set_trace [EvGstInit]
                                          (set_phase_mode mode initial_state))
           | None =>
               main_startup argv e
               = let (p, s) := create_pipeline e "10.0.0.2" 5000
                                 (initialised mode) in
                 match p with
                 | None => Exit (-1) (set_pipeline p s)
                 | Some _ => Run (exec main_enter_loop (set_pipeline p s))
                 end
           end
      else main argv e ops
           = Returned (-1)
               (set_trace [EvStderr (LogError "[ERROR] --phase must be 3 or 4")]
                          (set_phase_mode mode initial_state))
  end
  /\ (forall arg rest mode,
         plain_token arg = true ->
         main_arg_loop (arg :: rest) mode = main_arg_loop rest mode)
  /\ (forall mode, main_arg_loop ["--phase"] mode = ArgsDone mode)
  /\ (forall prog pre,
         forallb plain_token pre = true ->
         main_arg_loop (tl (prog :: pre ++ ["--phase"])) 3 = ArgsDone 3)
  /\ (forall args mode ex mode',
         main_arg_loop args mode = ArgsThrow ex mode' ->
         exists value, In value args /\ stoi value = Throw ex).
Proof.
  split; [ | split; [ | split; [ | split ] ] ].
  - unfold main. rewrite main_startup_eq.
    destruct (main_arg_loop (tl argv) 3) as [ mode | ex mode | mode ];
      try reflexivity.
    destruct (mode =? 3)%Z, (mode =? 4)%Z; cbn [negb andb orb];
      try reflexivity.
    all: destruct (gst_init_exits e argv); reflexivity.
  - apply main_arg_loop_plain.
  - reflexivity.
  - intros prog pre Hpre. cbn [tl].
    rewrite main_arg_loop_plain_prefix by exact Hpre. reflexivity.
  - apply main_arg_loop_throw.
Qed.

Lemma command_line_leniency_witness :
  main_arg_loop (tl ["gst_cycle"; "--verbose"; "extra"; "--phase"]) 3
  = ArgsDone 3.
Proof.
  exact (proj1 (proj2 (proj2 (proj2
    (command_line_leniency ["gst_cycle"] all_fine []))))
    "gst_cycle" ["--verbose"; "extra"] eq_refl).
Defined.

(** ** Leaving the loop *)

Lemma loop_dispatch d s :
  is_sigint d = false -> loop (exec (dispatch d) s) = loop s.
Proof.
  destruct d; try discriminate; intros _.
  - apply preserves_on_handoff; reflexivity.
  - apply (preserves_bind loop); [ | intro; apply preserves_ret ].
    apply preserves_fps_log_cb; reflexivity.
  - apply (preserves_bind loop); [ | intro; apply preserves_ret ].
    apply preserves_state_machine_cb; reflexivity.
  - apply (preserves_bind loop); [ | intro; apply preserves_ret ].
    apply preserves_bus_cb; reflexivity.
Qed.

Lemma loop_startup argv e s0 :
  main_startup argv e = Run s0 -> loop s0 = Some false.
Proof.
  intro H.
  destruct (main_startup_run argv e s0 H) as (mode & p & s1 & _ & _ & _ & _ & ->).
  change (wp main_enter_loop (fun _ s' => loop s' = Some false)
             (set_pipeline (Some p) s1)).
  unfold main_enter_loop. repeat wp_step.
  apply (wp_preserves loop);
    [ apply preserves_g_timeout_add_seconds; reflexivity | intros _ s2 H2 ].
  repeat wp_step.
  apply (wp_preserves loop);
    [ apply preserves_arm_next_state_timer; reflexivity | intros _ s3 H3 ].
  repeat wp_step. rewrite H3, H2. reflexivity.
Qed.

(** The loop returns only after a SIGINT, and right after it. *)
Lemma g_main_loop_run_quit ops : forall s s',
  loop s = Some false ->
  g_main_loop_run dispatch ops s = (true, s') ->
  exists before after,
    ops = (before ++ DoSigint :: after)%list
    /\ forallb (fun d => negb (is_sigint d)) before = true
    /\ s' = run dispatch (before ++ [DoSigint]) s.
Proof.
  induction ops as [ | d ops IH ]; intros s s' Hloop H; [ discriminate | ].
  cbn [g_main_loop_run] in H.
  destruct (is_sigint d) eqn:Hd.
  - destruct d; try discriminate.
    assert (Hq : loop (exec (dispatch DoSigint) s) = Some true).
    { unfold dispatch, handle_sigint, exec, bind, cerr, emit, modify, get.
      cbn [fst snd]. state_simpl. rewrite Hloop. reflexivity. }
    rewrite Hq in H. injection H as <-.
    exists [], ops. repeat split.
  - rewrite (loop_dispatch d s Hd), Hloop in H.
    assert (Hl' : loop (exec (dispatch d) s) = Some false)
      by (rewrite loop_dispatch; assumption).
    destruct (IH _ _ Hl' H) as (before & after & -> & Hb & ->).
    exists (d :: before), after. repeat split.
    cbn [forallb]. rewrite Hd, Hb. reflexivity.
Qed.

Lemma main_shutdown_eq s :
  fst (main_shutdown s) = 0
  /\ trace (exec main_shutdown s)
     = (trace s ++ EvSetState (pipeline s) GST_STATE_NULL
                   :: map EvUnrefPad (kept_pads s)
                   ++ [EvUnrefPipeline (pipeline s); EvLoopUnref])%list
  /\ kept_pads (exec main_shutdown s) = []
  /\ pipeline (exec main_shutdown s) = pipeline s.
Proof.
  change (wp main_shutdown
            (fun r s' =>
               r = 0
               /\ trace s'
                  = (trace s ++ EvSetState (pipeline s) GST_STATE_NULL
                       :: map EvUnrefPad (kept_pads s)
                       ++ [EvUnrefPipeline (pipeline s); EvLoopUnref])%list
               /\ kept_pads s' = [] /\ pipeline s' = pipeline s) s).
  unfold main_shutdown, unref_tee_req_pads, kept_pads.
  repeat wp_step;
    repeat match goal with H : _ = _ |- _ => rewrite H end;
    cbn [opt_list map app]; rewrite <- ?app_assoc; repeat split.
Qed.

(** C9.  When the loop returns it is because a SIGINT was dispatched, the
    last thing dispatched; [main] then sets the pipeline to NULL, unrefs the
    tee pads it still holds (UDP, then FPS), unrefs the pipeline, unrefs the
    loop, in this order and nothing in between, and returns 0, holding no
    pad. *)
Theorem graceful_stop_in_order
        (argv : list string) (e : build_env) (ops : list dispatched)
        (s0 s : state) :
  main_startup argv e = Run s0 ->
  g_main_loop_run dispatch ops s0 = (true, s) ->
  main argv e ops = Returned 0 (exec main_shutdown s)
  /\ trace (exec main_shutdown s)
     = (trace s ++ EvSetState (pipeline s) GST_STATE_NULL
                   :: map EvUnrefPad (kept_pads s)
                   ++ [EvUnrefPipeline (pipeline s); EvLoopUnref])%list
  /\ kept_pads (exec main_shutdown s) = []
  /\ (exists before after,
         ops = (before ++ DoSigint :: after)%list
         /\ forallb (fun d => negb (is_sigint d)) before = true
         /\ s = run dispatch (before ++ [DoSigint]) s0).
Proof.
  intros Hrun Hloop.
  destruct (main_shutdown_eq s) as (Hcode & Htrace & Hpads & _).
  repeat split; try assumption.
  - unfold main. rewrite Hrun, Hloop. unfold exec.
    destruct (main_shutdown s) as [code s'']. cbn [fst snd] in *.
    rewrite Hcode. reflexivity.
  - apply g_main_loop_run_quit; [ apply (loop_startup argv e), Hrun | exact Hloop ].
Qed.

Lemma graceful_stop_in_order_witness :
  let s0 := exec main_enter_loop
              (set_pipeline (fst (create_pipeline all_fine "10.0.0.2" 5000
                                    (initialised 3)))
                 (snd (create_pipeline all_fine "10.0.0.2" 5000
                         (initialised 3)))) in
  let s := exec (dispatch DoSigint) (exec (dispatch (DoStateMachine all_fine)) s0) in
  main ["gst_cycle"] all_fine [DoStateMachine all_fine; DoSigint; DoHandoff]
  = Returned 0 (exec main_shutdown s).
Proof.
  intros s0 s.
  apply (graceful_stop_in_order ["gst_cycle"] all_fine
           [DoStateMachine all_fine; DoSigint; DoHandoff] s0 s).
  - vm_compute; reflexivity.
  - vm_compute; reflexivity.
Defined.

(** ** The connector ledger *)

Lemma mem_In n l : mem n l = true <-> In n l.
Proof.
  unfold mem. rewrite existsb_exists. split.
  - intros (x & Hin & Hx). apply Nat.eqb_eq in Hx. subst. exact Hin.
  - intro H. exists n. split; [ exact H | apply Nat.eqb_refl ].
Qed.

Lemma mem_not_In n l : mem n l = false <-> ~ In n l.
Proof.
  rewrite <- mem_In. destruct (mem n l); split; intro H;
    try reflexivity; try discriminate; try (intro; discriminate).
  exfalso. apply H. reflexivity.
Qed.

Lemma count_app {A} (f : A -> bool) l1 l2 :
  count f (l1 ++ l2) = (count f l1 + count f l2)%nat.
Proof. unfold count. rewrite filter_app, length_app. reflexivity. Qed.

Lemma audit_from_none tr : audit_from None tr = None.
Proof. induction tr as [ | ev tr IH ]; [ reflexivity | exact IH ]. Qed.

Lemma audit_from_app L t1 t2 :
  audit_from L (t1 ++ t2) = audit_from (audit_from L t1) t2.
Proof. unfold audit_from. apply fold_left_app. Qed.

Lemma audit_snoc tr ev :
  audit (tr ++ [ev])
  = match audit tr with
    | Some L => audit_step L ev
    | None => None
    end.
Proof. unfold audit. rewrite audit_from_app. reflexivity. Qed.

(** An audit that succeeds has succeeded on every prefix. *)
Lemma audit_prefix t1 t2 L :
  audit (t1 ++ t2) = Some L ->
  exists L1, audit t1 = Some L1 /\ audit_from (Some L1) t2 = Some L.
Proof.
  unfold audit. rewrite audit_from_app.
  destruct (audit_from (Some empty_ledger) t1) as [ L1 | ].
  - intro H. exists L1. split; [ reflexivity | exact H ].
  - rewrite audit_from_none. discriminate.
Qed.

Lemma filter_fst_neq (pad : GstPad) (l : list (GstPad * GstElement)) :
  map fst (filter (fun x => negb (fst x =? pad)%nat) l)
  = filter (fun h => negb (h =? pad)%nat) (map fst l).
Proof.
  induction l as [ | [h p] l IH ]; [ reflexivity | ].
  cbn [filter map fst]. destruct (h =? pad)%nat; cbn [negb map fst];
    rewrite IH; reflexivity.
Qed.

Lemma length_filter_remove (pad : GstPad) (l : list (GstPad * GstElement)) :
  NoDup (map fst l) -> In pad (map fst l) ->
  S (List.length (filter (fun x => negb (fst x =? pad)%nat) l)) = List.length l.
Proof.
  induction l as [ | [h p] l IH ]; intros Hnd Hin; [ destruct Hin | ].
  cbn [map fst] in Hnd, Hin. inversion Hnd as [ | ? ? Hnot Hnd' ]; subst.
  cbn [filter fst List.length]. destruct (Nat.eqb_spec h pad) as [-> | Hne].
  - cbn [negb]. f_equal.
    assert (Hall : forall l', ~ In pad (map fst l') ->
              filter (fun x : GstPad * GstElement => negb (fst x =? pad)%nat) l' = l').
    { induction l' as [ | [h' p'] l' IH' ]; intro Hn; [ reflexivity | ].
      cbn [filter fst map] in *. destruct (Nat.eqb_spec h' pad) as [-> | _].
      - exfalso. apply Hn. left. reflexivity.
      - cbn [negb]. f_equal. apply IH'. intro Hx. apply Hn. right. exact Hx. }
    rewrite Hall by exact Hnot. reflexivity.
  - cbn [negb List.length]. f_equal. apply IH; [ exact Hnd' | ].
    destruct Hin as [Heq | Hin]; [ contradiction | exact Hin ].
Qed.

Lemma In_filter_neq (pad h : GstPad) (p : GstElement) l :
  In (h, p) l -> h <> pad ->
  In (h, p) (filter (fun x => negb (fst x =? pad)%nat) l).
Proof.
  intros Hin Hne. apply filter_In. split; [ exact Hin | ].
  cbn [fst]. apply negb_true_iff, Nat.eqb_neq, Hne.
Qed.

(** One more event, one more line in the ledger. *)
Lemma sound_step tr L ev L' :
  sound tr L -> audit_step L ev = Some L' -> sound (tr ++ [ev]) L'.
Proof.
  intros [Hnd Hrel Hapart Hcnt Hreq Htd] Hstep.
  destruct ev as [ l | prog | | | r | pipe | pipe host port | pipe pad | pad
                 | pipe | [ pipe | ] | pipe target | pipe | pipe | | | | ];
    cbn [audit_step] in Hstep;
    try (injection Hstep as <-;
         constructor;
         [ exact Hnd
         | intro pad0; rewrite count_snoc; cbn [is_release_of];
           rewrite Nat.add_0_r; apply Hrel
         | exact Hapart
         | rewrite !count_snoc; cbn [is_request is_release];
           rewrite !Nat.add_0_r; exact Hcnt
         | intros pipe0 pad0 Hin; apply in_app_or in Hin;
           destruct Hin as [Hin | [Heq | []]];
           [ apply Hreq, Hin | discriminate Heq ]
         | intros pipe0 Hin; apply in_app_or in Hin;
           destruct Hin as [Hin | [Heq | []]];
           [ apply Htd, Hin | discriminate Heq ] ]).
  - (* a pad is requested *)
    destruct (mem pad (map fst (outstanding L))) eqn:Hout; [ discriminate | ].
    destruct (mem pad (released L)) eqn:Hr; [ discriminate | ].
    destruct (mem pipe (torn_down L)) eqn:Ht; [ discriminate | ].
    cbn [orb] in Hstep. injection Hstep as <-.
    apply mem_not_In in Hout.
    constructor; cbn [outstanding released torn_down].
    + rewrite map_app. cbn [map fst]. apply NoDup_app.
      * exact Hnd.
      * constructor; [ intros [] | constructor ].
      * intros h Hh [<- | []]. contradiction.
    + intro pad0. rewrite count_snoc. cbn [is_release_of].
      rewrite Nat.add_0_r. apply Hrel.
    + intros pad0 Hin. rewrite map_app in Hin. apply in_app_or in Hin.
      destruct Hin as [Hin | [<- | []]]; [ apply Hapart, Hin | exact Hr ].
    + rewrite !count_snoc, length_app. cbn [is_request is_release List.length].
      lia.
    + intros pipe0 pad0 Hin. apply in_app_or in Hin.
      destruct Hin as [Hin | [Heq | []]].
      * destruct (Hreq _ _ Hin) as [Ho | Hm]; [ left | right; exact Hm ].
        apply in_or_app. left. exact Ho.
      * injection Heq as <- <-. left. apply in_or_app. right. left. reflexivity.
    + intros pipe0 Hin. apply in_app_or in Hin.
      destruct Hin as [Hin | [Heq | []]]; [ apply Htd, Hin | discriminate Heq ].
  - (* a pad is released *)
    destruct (mem pad (map fst (outstanding L))) eqn:Hout; [ | discriminate ].
    injection Hstep as <-. apply mem_In in Hout.
    pose proof (Hapart _ Hout) as Hfresh.
    constructor; cbn [outstanding released torn_down].
    + rewrite filter_fst_neq. apply NoDup_filter, Hnd.
    + intro pad0. unfold mem at 1. cbn [existsb]. fold (mem pad0 (released L)).
      destruct (Nat.eqb_spec pad0 pad) as [-> | Hne].
      * rewrite count_snoc. cbn [is_release_of]. rewrite Nat.eqb_refl.
        rewrite Hrel, Hfresh. reflexivity.
      * rewrite count_snoc. cbn [is_release_of].
        replace (pad =? pad0)%nat with false
          by (symmetry; apply Nat.eqb_neq; congruence).
        rewrite Nat.add_0_r. cbn [orb]. apply Hrel.
    + intros pad0 Hin. rewrite filter_fst_neq in Hin.
      apply filter_In in Hin. destruct Hin as [Hin Hneq].
      unfold mem. cbn [existsb]. fold (mem pad0 (released L)).
      rewrite (Hapart _ Hin), orb_false_r.
      apply negb_true_iff in Hneq. exact Hneq.
    + rewrite !count_snoc. cbn [is_request is_release]. rewrite Nat.add_0_r, Hcnt.
      pose proof (length_filter_remove pad (outstanding L) Hnd Hout) as Hlen.
      unfold GstPad, GstElement in *. lia.
    + intros pipe0 pad0 Hin. apply in_app_or in Hin.
      destruct Hin as [Hin | [Heq | []]]; [ | discriminate Heq ].
      unfold mem. cbn [existsb]. fold (mem pad0 (released L)).
      destruct (Nat.eqb_spec pad0 pad) as [-> | Hne]; [ right; reflexivity | ].
      destruct (Hreq _ _ Hin) as [Ho | Hm]; [ left | right; exact Hm ].
      apply In_filter_neq; assumption.
    + intros pipe0 Hin. apply in_app_or in Hin.
      destruct Hin as [Hin | [Heq | []]]; [ apply Htd, Hin | discriminate Heq ].
  - (* a pipeline is unreffed *)
    destruct (outstanding L) as [ | x rest ] eqn:Hout; [ | discriminate ].
    destruct (mem pipe (torn_down L)) eqn:Ht; [ discriminate | ].
    injection Hstep as <-.
    constructor; cbn [outstanding released torn_down].
    + constructor.
    + intro pad0. rewrite count_snoc. cbn [is_release_of].
      rewrite Nat.add_0_r. apply Hrel.
    + intros pad0 [].
    + rewrite !count_snoc. cbn [is_request is_release List.length] in *. lia.
    + intros pipe0 pad0 Hin. apply in_app_or in Hin.
      destruct Hin as [Hin | [Heq | []]]; [ | discriminate Heq ].
      destruct (Hreq _ _ Hin) as [[] | Hm]. right. exact Hm.
    + intros pipe0 Hin. apply in_app_or in Hin.
      unfold mem. cbn [existsb]. fold (mem pipe0 (torn_down L)).
      destruct Hin as [Hin | [Heq | []]].
      * rewrite (Htd _ Hin). apply orb_true_r.
      * injection Heq as <-. rewrite Nat.eqb_refl. reflexivity.
Qed.

Lemma sound_empty : sound [] empty_ledger.
Proof.
  constructor; cbn; try reflexivity; try (intros; contradiction).
  - constructor.
Qed.

Lemma audit_sound tr : forall L, audit tr = Some L -> sound tr L.
Proof.
  induction tr as [ | ev tr IH ] using rev_ind; intros L H.
  - injection H as <-. apply sound_empty.
  - rewrite audit_snoc in H. destruct (audit tr) as [ L0 | ]; [ | discriminate ].
    apply (sound_step tr L0 ev L (IH L0 eq_refl) H).
Qed.

(** What a successful audit says about the trace itself. *)

Lemma audit_release_once tr L pad :
  audit tr = Some L -> (count (is_release_of pad) tr <= 1)%nat.
Proof.
  intro H. rewrite (sound_released _ _ (audit_sound tr L H) pad).
  destruct (mem pad (released L)); lia.
Qed.

Lemma audit_no_request_after_teardown t1 pipe pad t2 L :
  In (EvUnrefPipeline (Some pipe)) t1 ->
  audit (t1 ++ EvRequestPad pipe pad :: t2) = Some L -> False.
Proof.
  intros Hin H. apply audit_prefix in H. destruct H as (L1 & H1 & H2).
  pose proof (sound_torn_down _ _ (audit_sound t1 L1 H1) pipe Hin) as Htd.
  cbn [audit_from fold_left audit_step] in H2. rewrite Htd in H2.
  rewrite !orb_true_r in H2. fold (audit_from None t2) in H2.
  rewrite audit_from_none in H2. discriminate.
Qed.

Lemma audit_teardown tr L before pipe after :
  audit tr = Some L ->
  tr = (before ++ EvUnrefPipeline (Some pipe) :: after)%list ->
  count is_request before = count is_release before
  /\ (forall pad,
         In (EvRequestPad pipe pad) tr ->
         In (EvRequestPad pipe pad) before
         /\ count (is_release_of pad) before = 1%nat
         /\ count (is_release_of pad) after = 0%nat).
Proof.
  intros Haudit ->.
  pose proof Haudit as Hsplit. apply audit_prefix in Hsplit.
  destruct Hsplit as (L1 & H1 & H2).
  pose proof (audit_sound _ _ H1) as S1.
  cbn [audit_from fold_left audit_step] in H2.
  destruct (outstanding L1) as [ | x rest ] eqn:Hout.
  2: { fold (audit_from None after) in H2. rewrite audit_from_none in H2.
       discriminate. }
  split.
  - rewrite (sound_counts _ _ S1), Hout. cbn [List.length]. lia.
  - intros pad Hin.
    assert (Hbefore : In (EvRequestPad pipe pad) before).
    { apply in_app_or in Hin. destruct Hin as [Hin | [Heq | Hin]];
        [ exact Hin | discriminate Heq | exfalso ].
      apply in_split in Hin. destruct Hin as (a1 & a2 & ->).
      apply (audit_no_request_after_teardown
               (before ++ EvUnrefPipeline (Some pipe) :: a1) pipe pad a2 L).
      - apply in_or_app. right. left. reflexivity.
      - rewrite <- app_assoc. exact Haudit. }
    split; [ exact Hbefore | ].
    assert (Hone : count (is_release_of pad) before = 1%nat).
    { rewrite (sound_released _ _ S1 pad).
      destruct (sound_requested _ _ S1 _ _ Hbefore) as [Ho | ->];
        [ rewrite Hout in Ho; destruct Ho | reflexivity ]. }
    split; [ exact Hone | ].
    pose proof (audit_release_once _ _ pad Haudit) as Hle.
    rewrite count_app in Hle.
    change (EvUnrefPipeline (Some pipe) :: after)
      with ([EvUnrefPipeline (Some pipe)] ++ after)%list in Hle.
    rewrite count_app in Hle. lia.
Qed.

(** ** The program keeps its books *)

Lemma books_at_quiet tr n owner pads ev :
  quiet ev = true ->
  books_at tr n owner pads -> books_at (tr ++ [ev]) n owner pads.
Proof.
  intros Hq (L & Ha & Hrest). exists L. split; [ | exact Hrest ].
  rewrite audit_snoc, Ha.
  destruct ev as [ | | | | | | | | | | [ | ] | | | | | | | ];
    try discriminate; reflexivity.
Qed.

Lemma map_fst_pair (pipe : GstElement) (pads : list GstPad) :
  map fst (map (fun pad => (pad, pipe)) pads) = pads.
Proof. rewrite map_map. cbn [fst]. apply map_id. Qed.

Lemma books_at_request tr n pipe pads :
  books_at tr n (Some pipe) pads ->
  books_at (tr ++ [EvRequestPad pipe n]) (S n) (Some pipe) (pads ++ [n]).
Proof.
  intros (L & Ha & (Hout & Hrel & Htd) & Hnd & Ho & Hp & Hm).
  assert (Hfresh : ~ In n pads).
  { intro Hin. rewrite <- (map_fst_pair pipe pads), <- Ho in Hin.
    apply in_map_iff in Hin. destruct Hin as (x & Hx & Hin).
    apply Hout in Hin. lia. }
  eexists. split; [ | split; [ | split; [ | split; [ | split ] ] ] ].
  - rewrite audit_snoc, Ha. cbn [audit_step].
    replace (mem n (map fst (outstanding L))) with false.
    2: { symmetry. apply mem_not_In. rewrite Ho, map_fst_pair. exact Hfresh. }
    replace (mem n (released L)) with false.
    2: { symmetry. apply mem_not_In. intro Hin. apply Hrel in Hin. lia. }
    rewrite Hm. reflexivity.
  - cbn [outstanding released torn_down].
    split; [ | split ]; intros x H.
    + apply in_app_or in H. destruct H as [H | [<- | []]];
        [ apply Hout in H; lia | cbn [fst snd]; lia ].
    + apply Hrel in H. lia.
    + apply Htd in H. lia.
  - apply NoDup_app; [ exact Hnd | constructor; [ intros [] | constructor ] | ].
    intros h Hh [<- | []]. contradiction.
  - cbn [outstanding]. rewrite Ho, map_app. reflexivity.
  - lia.
  - exact Hm.
Qed.

Lemma filter_neq_middle (h : GstPad) l1 l2 :
  NoDup (l1 ++ h :: l2) ->
  filter (fun x => negb (x =? h)%nat) (l1 ++ h :: l2) = (l1 ++ l2)%list.
Proof.
  intro Hnd.
  assert (Hkeep : forall l, ~ In h l -> filter (fun x => negb (x =? h)%nat) l = l).
  { induction l as [ | a l IH ]; intro Hn; [ reflexivity | ].
    cbn [filter]. destruct (Nat.eqb_spec a h) as [-> | _].
    - exfalso. apply Hn. left. reflexivity.
    - cbn [negb]. rewrite IH; [ reflexivity | ].
      intro Hx. apply Hn. right. exact Hx. }
  apply NoDup_remove_2 in Hnd.
  rewrite filter_app. cbn [filter]. rewrite Nat.eqb_refl. cbn [negb].
  rewrite !Hkeep; [ reflexivity | | ];
    intro Hx; apply Hnd, in_or_app; [ right | left ]; exact Hx.
Qed.

Lemma books_at_release tr n pipe l1 h l2 :
  books_at tr n (Some pipe) (l1 ++ h :: l2) ->
  books_at (tr ++ [EvUnrefPad h]) n (Some pipe) (l1 ++ l2).
Proof.
  intros (L & Ha & (Hout & Hrel & Htd) & Hnd & Ho & Hp & Hm).
  eexists. split; [ | split; [ | split; [ | split; [ | split ] ] ] ].
  - rewrite audit_snoc, Ha. cbn [audit_step].
    replace (mem h (map fst (outstanding L))) with true; [ reflexivity | ].
    symmetry. apply mem_In. rewrite Ho, map_fst_pair.
    apply in_or_app. right. left. reflexivity.
  - cbn [outstanding released torn_down].
    split; [ | split ]; intros x H.
    + apply filter_In in H. destruct H as [H _]. apply Hout in H. lia.
    + destruct H as [<- | H]; [ | apply Hrel in H; lia ].
      assert (Hin : In (h, pipe) (outstanding L)).
      { rewrite Ho. apply in_map_iff. exists h. split; [ reflexivity | ].
        apply in_or_app. right. left. reflexivity. }
      apply Hout in Hin. cbn [fst] in Hin. lia.
    + apply Htd in H. lia.
  - apply NoDup_remove_1 in Hnd. exact Hnd.
  - cbn [outstanding]. rewrite Ho.
    rewrite <- (filter_neq_middle h l1 l2 Hnd).
    generalize (l1 ++ h :: l2)%list. intro l.
    induction l as [ | a l IH ]; [ reflexivity | ].
    cbn [map filter fst]. destruct (a =? h)%nat; cbn [negb map];
      rewrite IH; reflexivity.
  - exact Hp.
  - exact Hm.
Qed.

Lemma books_at_teardown tr n pipe :
  books_at tr n (Some pipe) [] ->
  books_at (tr ++ [EvUnrefPipeline (Some pipe)]) n None [].
Proof.
  intros (L & Ha & (Hout & Hrel & Htd) & Hnd & Ho & Hp & Hm).
  cbn [map] in Ho.
  eexists. split; [ | split; [ | split; [ | split ] ] ].
  - rewrite audit_snoc, Ha. cbn [audit_step]. rewrite Ho, Hm. reflexivity.
  - cbn [outstanding released torn_down].
    split; [ | split ]; intros x H.
    + destruct H.
    + apply Hrel in H. lia.
    + destruct H as [<- | H]; [ lia | apply Htd in H; lia ].
  - constructor.
  - reflexivity.
  - reflexivity.
Qed.

Lemma books_at_adopt tr n :
  books_at tr n None [] -> books_at tr (S n) (Some n) [].
Proof.
  intros (L & Ha & (Hout & Hrel & Htd) & Hnd & Ho & _).
  exists L. split; [ exact Ha | ]. split; [ | split; [ constructor | ] ].
  - split; [ | split ]; intros x H.
    + apply Hout in H. lia.
    + apply Hrel in H. lia.
    + apply Htd in H. lia.
  - split; [ rewrite Ho; reflexivity | ]. split; [ lia | ].
    apply mem_not_In. intro Hin. apply Htd in Hin. lia.
Qed.

Lemma books_at_empty : books_at [] 1%nat None [].
Proof.
  exists empty_ledger. split; [ reflexivity | ].
  split; [ | split; [ constructor | split; reflexivity ] ].
  split; [ | split ]; intros x H; destruct H.
Qed.

(** Closes a goal about the books of a state reached by emitting events
    the audit passes over. *)
Ltac books_quiet H :=
  state_simpl; rewrite ?app_nil_r;
  repeat (apply books_at_quiet; [ reflexivity | ]);
  first [ exact H | idtac ].

Lemma wp_link_tee_to_queue_and_keep_pad t pipe pads
      (Q : option GstPad -> state -> Prop) s :
  books_at (trace s) (next_object s) (Some pipe) pads ->
  (forall r s',
      books_at (trace s') (next_object s') (Some pipe) (pads ++ opt_list r) ->
      tee_req_pad_udp s' = tee_req_pad_udp s ->
      tee_req_pad_fps s' = tee_req_pad_fps s ->
      Q r s') ->
  wp (link_tee_to_queue_and_keep_pad t pipe) Q s.
Proof.
  intros H HQ. unfold link_tee_to_queue_and_keep_pad.
  repeat wp_step; apply HQ; try reflexivity; cbn [opt_list]; state_simpl.
  - apply books_at_request, H.
  - apply (books_at_release _ _ _ pads _ []). apply books_at_request, H.
  - apply (books_at_release _ _ _ pads _ []). apply books_at_request, H.
  - rewrite app_nil_r. exact H.
Qed.

Lemma wp_create_pipeline e host port
      (Q : option GstElement -> state -> Prop) s :
  books_at (trace s) (next_object s) None [] ->
  (forall r s',
      books_at (trace s') (next_object s') r (kept_pads s') -> Q r s') ->
  wp (create_pipeline e host port) Q s.
Proof.
  intros H HQ. unfold create_pipeline.
  do 4 wp_step. wp_step.
  - (* the launch line does not parse *)
    do 2 wp_step. destruct (launch_error e); repeat wp_step.
    all: apply HQ; unfold kept_pads; books_quiet H.
  - do 6 wp_step. wp_step; [ | wp_step ].
    + (* no tee *)
      repeat wp_step. apply HQ. unfold kept_pads. state_simpl.
      apply books_at_teardown.
      repeat (apply books_at_quiet; [ reflexivity | ]).
      apply books_at_adopt, H.
    + (* a branch element is missing *)
      repeat wp_step. apply HQ. unfold kept_pads. state_simpl.
      apply books_at_teardown.
      repeat (apply books_at_quiet; [ reflexivity | ]).
      apply books_at_adopt, H.
    + (* the branches *)
      assert (H0 : forall tr, tr = trace s ->
                books_at tr (S (next_object s)) (Some (next_object s)) [])
        by (intros tr ->; apply books_at_adopt, H).
      repeat wp_step.
      all: apply wp_link_tee_to_queue_and_keep_pad with (pads := []);
        [ books_quiet (H0 _ eq_refl) | intros r1 s1 H1 Hu1 Hf1 ].
      all: repeat wp_step.
      all: apply wp_link_tee_to_queue_and_keep_pad with (pads := opt_list r1);
        [ try (subst r1); cbn [opt_list app] in *; books_quiet H1
        | intros r2 s2 H2 Hu2 Hf2 ].
      all: repeat wp_step.
      all: apply HQ; unfold kept_pads; state_simpl.
      all: repeat match goal with
                  | E : ?r = Some _ |- _ => is_var r; subst r
                  | E : ?r = None |- _ => is_var r; subst r
                  end.
      all: rewrite ?Hu2; cbn [opt_list app] in *.
      all: books_quiet H2.
Qed.

Lemma books_at_release_head tr n owner h rest :
  books_at tr n owner (h :: rest) ->
  books_at (tr ++ [EvUnrefPad h]) n owner rest.
Proof.
  destruct owner as [ pipe | ].
  - apply (books_at_release tr n pipe [] h rest).
  - intros (L & _ & _ & _ & _ & Hpads). discriminate Hpads.
Qed.

Lemma books_at_unref_pipeline tr n owner :
  books_at tr n owner [] ->
  books_at (tr ++ [EvUnrefPipeline owner]) n None [].
Proof.
  destruct owner as [ pipe | ]; [ apply books_at_teardown | ].
  apply books_at_quiet. reflexivity.
Qed.

Lemma books_bview s s' : bview s' = bview s -> books s -> books s'.
Proof.
  unfold bview, books, kept_pads. intro H.
  injection H as -> -> -> -> ->. exact (fun H => H).
Qed.

Lemma wp_unref_tee_req_pads (Q : unit -> state -> Prop) s :
  books s ->
  (forall s',
      books_at (trace s') (next_object s') (pipeline s) [] ->
      kept_pads s' = [] -> pipeline s' = pipeline s -> Q tt s') ->
  wp unref_tee_req_pads Q s.
Proof.
  unfold books, kept_pads. intros H HQ. unfold unref_tee_req_pads.
  repeat wp_step; apply HQ; unfold kept_pads; state_simpl;
    repeat match goal with
           | E : tee_req_pad_udp _ = _ |- _ => rewrite E in *; clear E
           | E : tee_req_pad_fps _ = _ |- _ => rewrite E in *; clear E
           end;
    cbn [opt_list app] in *; try reflexivity.
  - apply books_at_release_head, books_at_release_head, H.
  - apply books_at_release_head, H.
  - apply books_at_release_head, H.
  - exact H.
Qed.

Lemma wp_recreate_pipeline e (Q : unit -> state -> Prop) s :
  books s -> (forall s', books s' -> Q tt s') -> wp (recreate_pipeline e) Q s.
Proof.
  intros H HQ. unfold recreate_pipeline. repeat wp_step.
  apply wp_unref_tee_req_pads.
  { unfold books, kept_pads in *. books_quiet H. }
  state_simpl. intros s1 H1 Hk1 Hp1. repeat wp_step.
  apply wp_create_pipeline.
  { state_simpl. rewrite Hp1. apply books_at_unref_pipeline, H1. }
  intros r s2 H2. repeat wp_step.
  apply (wp_preserves bview);
    [ apply preserves_arm_next_state_timer; reflexivity | intros [] s3 H3 ].
  apply HQ. apply (books_bview _ _ H3).
  unfold books, kept_pads in *. state_simpl. exact H2.
Qed.

Lemma wp_state_machine_cb e (Q : bool -> state -> Prop) s :
  books s -> (forall r s', books s' -> Q r s') -> wp (state_machine_cb e) Q s.
Proof.
  intros H HQ. unfold state_machine_cb.
  repeat lazymatch goal with
         | |- wp (recreate_pipeline _) _ _ => fail
         | |- _ => wp_step
         end.
  1-3: apply (wp_preserves bview);
    [ apply preserves_arm_next_state_timer; reflexivity | intros [] s3 H3 ];
    repeat wp_step; apply HQ; apply (books_bview _ _ H3);
    unfold books, kept_pads in *; books_quiet H.
  all: apply wp_recreate_pipeline;
    [ unfold books, kept_pads in *; books_quiet H
    | intros s' H'; repeat wp_step; apply HQ, H' ].
Qed.

Lemma books_dispatch d s : books s -> books (exec (dispatch d) s).
Proof.
  intro H.
  change (wp (dispatch d) (fun _ s' => books s') s).
  destruct d as [ | | e | msg | ]; cbn [dispatch].
  - unfold on_handoff. wp_step. exact H.
  - unfold fps_log_cb. repeat wp_step.
    unfold books, kept_pads in *. books_quiet H.
  - wp_step. apply wp_state_machine_cb; [ exact H | ].
    intros r s' H'. wp_step. exact H'.
  - unfold bus_cb. destruct msg; repeat wp_step;
      unfold books, kept_pads in *; books_quiet H.
  - unfold handle_sigint. repeat wp_step;
      unfold books, kept_pads in *; books_quiet H.
Qed.

Lemma books_run ops s : books s -> books (run dispatch ops s).
Proof.
  intro H. induction ops as [ | d ops IH ] using rev_ind; [ exact H | ].
  rewrite run_snoc. apply books_dispatch, IH.
Qed.

(** Where the loop stops, it has dispatched a prefix of what there was. *)
Lemma g_main_loop_run_is_run disp ops : forall s b s',
  g_main_loop_run disp ops s = (b, s') ->
  exists done rest, ops = (done ++ rest)%list /\ s' = run disp done s.
Proof.
  induction ops as [ | d ops IH ]; intros s b s' H.
  - injection H as _ <-. exists [], []. split; reflexivity.
  - cbn [g_main_loop_run] in H.
    destruct (loop (exec (disp d) s)) as [ [ | ] | ].
    + injection H as _ <-. exists [d], ops. split; reflexivity.
    + destruct (IH _ _ _ H) as (done & rest & -> & ->).
      exists (d :: done), rest. split; reflexivity.
    + destruct (IH _ _ _ H) as (done & rest & -> & ->).
      exists (d :: done), rest. split; reflexivity.
Qed.

Lemma books_accounted s : books s -> accounted (trace s) (kept_pads s).
Proof.
  intros (L & Ha & _ & _ & Ho). exists L. split; [ exact Ha | ].
  destruct (pipeline s) as [ pipe | ].
  - destruct Ho as (-> & _). apply map_fst_pair.
  - destruct Ho as (-> & ->). reflexivity.
Qed.

Lemma books_at_accounted tr n owner pads :
  books_at tr n owner pads -> accounted tr pads.
Proof.
  intros (L & Ha & _ & _ & Ho). exists L. split; [ exact Ha | ].
  destruct owner as [ pipe | ].
  - destruct Ho as (-> & _). apply map_fst_pair.
  - destruct Ho as (-> & ->). reflexivity.
Qed.

Lemma books_initial mode :
  books_at (trace (initialised mode))
           (next_object (initialised mode))
           None [].
Proof.
  cbn. apply (books_at_quiet [EvGstInit]); [ reflexivity | ].
  apply (books_at_quiet []); [ reflexivity | ]. apply books_at_empty.
Qed.

Lemma books_startup argv e s0 : main_startup argv e = Run s0 -> books s0.
Proof.
  intro H.
  destruct (main_startup_run argv e s0 H) as (mode & p & s1 & _ & _ & _ & Hc & ->).
  assert (H1 : books_at (trace s1) (next_object s1) (Some p) (kept_pads s1)).
  { pose proof (wp_create_pipeline e "10.0.0.2" 5000
                  (fun r s' => books_at (trace s') (next_object s') r (kept_pads s'))
                  _ (books_initial mode) (fun r s' H' => H')) as Hw.
    unfold wp in Hw. rewrite Hc in Hw. exact Hw. }
  change (wp main_enter_loop (fun _ s' => books s') (set_pipeline (Some p) s1)).
  unfold main_enter_loop. repeat wp_step.
  apply (wp_preserves bview);
    [ apply preserves_g_timeout_add_seconds; reflexivity | intros ? s2 H2 ].
  repeat wp_step.
  apply (wp_preserves bview);
    [ apply preserves_arm_next_state_timer; reflexivity | intros ? s3 H3 ].
  repeat wp_step.
  unfold books, kept_pads, bview in *. state_simpl.
  injection H3 as -> -> -> -> ->. injection H2 as -> -> -> -> ->.
  books_quiet H1.
Qed.

(** Whatever [main] comes to, its trace passes the audit, with the pads it
    holds outstanding. *)
Lemma main_accounted argv e ops :
  accounted (trace (final_state (main argv e ops)))
            (kept_pads (final_state (main argv e ops))).
Proof.
  unfold main.
  destruct (main_startup argv e) as [ code s | s | s0 ] eqn:Hs.
  - (* left before the loop *)
    cbn [final_state]. rewrite main_startup_eq in Hs.
    destruct (main_arg_loop (tl argv) 3) as [ mode | ex mode | mode ];
      try discriminate.
    + injection Hs as _ <-. exists empty_ledger. split; reflexivity.
    + destruct (negb (mode =? 3)%Z && negb (mode =? 4)%Z).
      * injection Hs as _ <-. exists empty_ledger. split; reflexivity.
      * destruct (gst_init_exits e argv) as [ exited | ].
        { injection Hs as _ <-. exists empty_ledger. split; reflexivity. }
        pose proof (wp_create_pipeline e "10.0.0.2" 5000
                      (fun r s' => books_at (trace s') (next_object s') r (kept_pads s'))
                      _ (books_initial mode) (fun r s' H' => H')) as Hw.
        unfold wp in Hw.
        destruct (create_pipeline e "10.0.0.2" 5000
                    (initialised mode))
          as [ [ p | ] s1 ]; try discriminate.
        injection Hs as _ <-. cbn [fst snd] in Hw.
        apply (books_at_accounted _ _ _ _ Hw).
  - (* terminated *)
    cbn [final_state]. rewrite main_startup_eq in Hs.
    destruct (main_arg_loop (tl argv) 3) as [ mode | ex mode | mode ];
      try discriminate.
    + injection Hs as <-. exists empty_ledger. split; reflexivity.
    + destruct (negb (mode =? 3)%Z && negb (mode =? 4)%Z); try discriminate.
      destruct (gst_init_exits e argv); try discriminate.
      destruct (create_pipeline e "10.0.0.2" 5000
                  (initialised mode))
        as [ [ p | ] s1 ]; discriminate.
  - (* the loop was entered *)
    pose proof (books_startup argv e s0 Hs) as H0.
    destruct (g_main_loop_run dispatch ops s0) as [ [ | ] s' ] eqn:Hl.
    + destruct (g_main_loop_run_is_run _ _ _ _ _ Hl) as (done & rest & _ & ->).
      pose proof (books_run done s0 H0) as H1.
      pose proof (main_shutdown_eq (run dispatch done s0)) as (_ & Ht & Hk & _).
      unfold exec in Ht, Hk.
      destruct (main_shutdown (run dispatch done s0)) as [code s''].
      cbn [final_state fst snd] in *. rewrite Hk, Ht.
      apply (books_at_accounted _ (next_object (run dispatch done s0)) None).
      unfold books in H1.
      replace (trace (run dispatch done s0) ++
               EvSetState (pipeline (run dispatch done s0)) GST_STATE_NULL
               :: map EvUnrefPad (kept_pads (run dispatch done s0)) ++
                  [EvUnrefPipeline (pipeline (run dispatch done s0)); EvLoopUnref])%list
        with ((((trace (run dispatch done s0)
                 ++ [EvSetState (pipeline (run dispatch done s0)) GST_STATE_NULL])
                ++ map EvUnrefPad (kept_pads (run dispatch done s0)))
               ++ [EvUnrefPipeline (pipeline (run dispatch done s0))])
              ++ [EvLoopUnref])%list
        by (rewrite <- !app_assoc; reflexivity).
      apply books_at_quiet; [ reflexivity | ].
      apply books_at_unref_pipeline.
      apply (books_at_quiet _ _ _ _
               (EvSetState (pipeline (run dispatch done s0)) GST_STATE_NULL)
               eq_refl) in H1.
      revert H1. generalize (trace (run dispatch done s0) ++
               [EvSetState (pipeline (run dispatch done s0)) GST_STATE_NULL])%list.
      generalize (kept_pads (run dispatch done s0)).
      induction l as [ | h l IH ]; intros tr H1.
      * cbn [map]. rewrite app_nil_r. exact H1.
      * cbn [map].
        replace (tr ++ EvUnrefPad h :: map EvUnrefPad l)%list
          with ((tr ++ [EvUnrefPad h]) ++ map EvUnrefPad l)%list
          by (rewrite <- app_assoc; reflexivity).
        apply IH. apply books_at_release_head, H1.
    + destruct (g_main_loop_run_is_run _ _ _ _ _ Hl) as (done & rest & _ & ->).
      cbn [final_state]. apply books_accounted, books_run, H0.
Qed.

(** *** The older program *)

Lemma wp_sdk191_link_tee_to_queue t pipe pads (Q : bool -> state -> Prop) s :
  books_at (trace s) (next_object s) (Some pipe) pads ->
  (forall r s',
      books_at (trace s') (next_object s') (Some pipe) pads ->
      pipeline s' = pipeline s -> Q r s') ->
  wp (Sdk191.link_tee_to_queue t pipe) Q s.
Proof.
  intros H HQ. unfold Sdk191.link_tee_to_queue.
  repeat wp_step; apply HQ; try reflexivity; state_simpl.
  - rewrite <- (app_nil_r pads).
    apply (books_at_release _ _ _ pads _ []). apply books_at_request, H.
  - rewrite <- (app_nil_r pads).
    apply (books_at_release _ _ _ pads _ []). apply books_at_request, H.
  - exact H.
Qed.

Lemma wp_sdk191_create_pipeline e host port
      (Q : option GstElement -> state -> Prop) s :
  books_at (trace s) (next_object s) None [] ->
  (forall r s', books_at (trace s') (next_object s') r [] -> Q r s') ->
  wp (Sdk191.create_pipeline e host port) Q s.
Proof.
  intros H HQ. unfold Sdk191.create_pipeline. wp_step.
  - wp_step. destruct (launch_error e); repeat wp_step.
    all: apply HQ; books_quiet H.
  - repeat wp_step.
    apply wp_sdk191_link_tee_to_queue with (pads := []);
      [ state_simpl; repeat (apply books_at_quiet; [ reflexivity | ]);
        apply books_at_adopt, H
      | intros r1 s1 H1 _ ].
    repeat wp_step.
    apply wp_sdk191_link_tee_to_queue with (pads := []);
      [ exact H1 | intros r2 s2 H2 _ ].
    repeat wp_step. apply HQ. books_quiet H2.
Qed.

Lemma wp_sdk191_state_machine_cb e (Q : bool -> state -> Prop) s :
  books_sdk191 s -> (forall r s', books_sdk191 s' -> Q r s') ->
  wp (Sdk191.state_machine_cb e) Q s.
Proof.
  unfold books_sdk191. intros H HQ. unfold Sdk191.state_machine_cb.
  repeat wp_step.
  1-3: apply (wp_preserves bview);
    [ apply preserves_arm_next_state_timer; reflexivity | intros [] s3 H3 ];
    repeat wp_step; apply HQ; unfold bview in H3;
    injection H3 as -> -> -> _ _; books_quiet H.
  apply wp_sdk191_create_pipeline.
  { state_simpl. apply books_at_unref_pipeline. books_quiet H. }
  intros r s2 H2. repeat wp_step.
  apply (wp_preserves bview);
    [ apply preserves_arm_next_state_timer; reflexivity | intros [] s3 H3 ].
  repeat wp_step. apply HQ. unfold bview in H3.
  injection H3 as -> -> -> _ _. state_simpl. exact H2.
Qed.

Lemma books_sdk191_dispatch d s :
  books_sdk191 s -> books_sdk191 (exec (Sdk191.dispatch d) s).
Proof.
  intro H.
  change (wp (Sdk191.dispatch d) (fun _ s' => books_sdk191 s') s).
  destruct d as [ | | e | msg | ]; cbn [Sdk191.dispatch].
  - unfold on_handoff. wp_step. exact H.
  - unfold fps_log_cb. repeat wp_step.
    unfold books_sdk191 in *. books_quiet H.
  - wp_step. apply wp_sdk191_state_machine_cb; [ exact H | ].
    intros r s' H'. wp_step. exact H'.
  - wp_step. exact H.
  - unfold handle_sigint. repeat wp_step;
      unfold books_sdk191 in *; books_quiet H.
Qed.

Lemma books_sdk191_run ops s :
  books_sdk191 s -> books_sdk191 (run Sdk191.dispatch ops s).
Proof.
  intro H. induction ops as [ | d ops IH ] using rev_ind; [ exact H | ].
  rewrite run_snoc. apply books_sdk191_dispatch, IH.
Qed.

Lemma sdk191_main_accounted argv e ops :
  accounted (trace (final_state (Sdk191.main argv e ops))) [].
Proof.
  unfold Sdk191.main, gst_init.
  change ((emit EvGstInit;; ret (gst_init_exits e argv)) initial_state)
    with (gst_init_exits e argv, exec (emit EvGstInit) initial_state).
  cbv iota.
  destruct (gst_init_exits e argv) as [ exited | ].
  { cbn [final_state]. exists empty_ledger. split; reflexivity. }
  change (exec (emit EvSignal) (exec (emit EvGstInit) initial_state))
    with (exec (emit EvGstInit;; emit EvSignal) initial_state).
  pose proof (wp_sdk191_create_pipeline e "10.0.0.2" 5000
                (fun r s' => books_at (trace s') (next_object s') r [])
                _ (books_initial 3) (fun r s' H' => H')) as Hw.
  unfold wp in Hw.
  change (initialised 3)
    with (exec (emit EvGstInit;; emit EvSignal) initial_state) in Hw.
  destruct (Sdk191.create_pipeline e "10.0.0.2" 5000
              (exec (emit EvGstInit;; emit EvSignal) initial_state))
    as [ [ p | ] s1 ]; cbn [fst snd] in Hw.
  2: { cbn [final_state]. state_simpl. apply (books_at_accounted _ _ _ _ Hw). }
  match goal with
  | |- context [g_main_loop_run Sdk191.dispatch ops ?st] =>
      assert (H0 : books_sdk191 st); [ | set (s0 := st) in * ]
  end.
  { change (wp (emit EvLoopNew;;
                modify (set_loop (Some false));;
                g_timeout_add_seconds 5 CbFpsLog;;
                arm_next_state_timer 1;;
                cerr (LogInfo "[INFO] PLAYING=30s, PAUSED=1s, NULL=1s (recreate)");;
                emit EvLoopRun)
               (fun _ s' => books_sdk191 s') (set_pipeline (Some p) s1)).
    repeat wp_step.
    apply (wp_preserves bview);
      [ apply preserves_g_timeout_add_seconds; reflexivity | intros ? s2 H2 ].
    repeat wp_step.
    apply (wp_preserves bview);
      [ apply preserves_arm_next_state_timer; reflexivity | intros ? s3 H3 ].
    repeat wp_step.
    unfold books_sdk191, bview in *. state_simpl.
    injection H3 as -> -> -> _ _. injection H2 as -> -> -> _ _.
    state_simpl. books_quiet Hw. }
  destruct (g_main_loop_run Sdk191.dispatch ops s0) as [ [ | ] s' ] eqn:Hl;
    destruct (g_main_loop_run_is_run _ _ _ _ _ Hl) as (done & rest & _ & ->);
    pose proof (books_sdk191_run done s0 H0) as H1; unfold books_sdk191 in H1;
    cbn [final_state].
  - apply (books_at_accounted _ (next_object (run Sdk191.dispatch done s0)) None).
    unfold exec, bind, get, emit, modify. cbn [fst snd]. state_simpl.
    apply books_at_quiet; [ reflexivity | ].
    apply books_at_unref_pipeline.
    apply books_at_quiet; [ reflexivity | ]. exact H1.
  - apply (books_at_accounted _ _ _ _ H1).
Qed.

Lemma accounted_released_before_teardown tr held :
  accounted tr held -> released_before_teardown tr.
Proof.
  intros (L & Ha & _). split.
  - intro pad. apply (audit_release_once tr L pad Ha).
  - intros before pipe after Heq. apply (audit_teardown tr L _ _ _ Ha Heq).
Qed.

(** C1.  Whatever [main] is given and whatever the engine answers, in the
    trace of its calls: every tee pad requested on a pipeline is released
    exactly once, and before that pipeline is unreffed; no pad is released
    twice; at each unref of a pipeline as many pads have been released as
    were requested, so none outlives its pipeline; and the pads requested
    and not yet released are the ones the program holds in
    [tee_req_pad_udp] and [tee_req_pad_fps] (none once [main] has returned
    from the loop).  The same holds of the older program, which unrefs each
    pad inside the link helper and holds none. *)
Theorem connectors_released_before_teardown
        (argv : list string) (e : build_env) (ops : list dispatched) :
  let final := final_state (main argv e ops) in
  let final_old := final_state (Sdk191.main argv e ops) in
  accounted (trace final) (kept_pads final)
  /\ released_before_teardown (trace final)
  /\ (kept_pads final = [] ->
      count is_request (trace final) = count is_release (trace final))
  /\ accounted (trace final_old) []
  /\ released_before_teardown (trace final_old)
  /\ count is_request (trace final_old) = count is_release (trace final_old).
Proof.
  intros final final_old.
  pose proof (main_accounted argv e ops) as Hnew.
  pose proof (sdk191_main_accounted argv e ops) as Hold.
  fold final in Hnew. fold final_old in Hold.
  split; [ exact Hnew | ].
  split; [ apply (accounted_released_before_teardown _ _ Hnew) | ].
  split.
  { intro Hk. destruct Hnew as (L & Ha & Ho). rewrite Hk in Ho.
    rewrite (sound_counts _ _ (audit_sound _ _ Ha)).
    apply map_eq_nil in Ho. rewrite Ho. cbn [List.length]. lia. }
  split; [ exact Hold | ].
  split; [ apply (accounted_released_before_teardown _ _ Hold) | ].
  destruct Hold as (L & Ha & Ho).
  rewrite (sound_counts _ _ (audit_sound _ _ Ha)).
  apply map_eq_nil in Ho. rewrite Ho. cbn [List.length]. lia.
Qed.

(** * More of the program *)

(** ** What a function adds to the trace *)

Lemma emits_ret {A} P (a : A) : emits P (ret a).
Proof. intro s. exists []. split; [ symmetry; apply app_nil_r | reflexivity ]. Qed.

Lemma emits_get {A} P (g : state -> A) : emits P (get g).
Proof. intro s. exists []. split; [ symmetry; apply app_nil_r | reflexivity ]. Qed.

Lemma emits_modify P (g : state -> state) :
  (forall s, trace (g s) = trace s) -> emits P (modify g).
Proof.
  intros H s. exists []. split; [ | reflexivity ].
  cbn [modify snd]. rewrite H. symmetry. apply app_nil_r.
Qed.

Lemma emits_preserves {A} P (m : M A) : preserves trace m -> emits P m.
Proof.
  intros H s. exists []. split; [ | reflexivity ].
  rewrite (H s). symmetry. apply app_nil_r.
Qed.

Lemma emits_emit (P : event -> bool) ev : P ev = true -> emits P (emit ev).
Proof.
  intros H s. exists [ev]. split; [ reflexivity | ].
  cbn [forallb]. rewrite H. reflexivity.
Qed.

Lemma emits_bind {A B} P (m : M A) (k : A -> M B) :
  emits P m -> (forall a, emits P (k a)) -> emits P (bind m k).
Proof.
  unfold emits, bind. intros Hm Hk s.
  destruct (Hm s) as (evs1 & H1 & HP1). destruct (m s) as [a s1].
  cbn [snd] in H1. destruct (Hk a s1) as (evs2 & H2 & HP2).
  exists (evs1 ++ evs2)%list. split.
  - rewrite H2, H1. symmetry. apply app_assoc.
  - rewrite forallb_app, HP1, HP2. reflexivity.
Qed.

Lemma emits_weaken {A} (P Q : event -> bool) (m : M A) :
  (forall ev, P ev = true -> Q ev = true) -> emits P m -> emits Q m.
Proof.
  intros HPQ H s. destruct (H s) as (evs & H1 & H2). exists evs.
  split; [ exact H1 | ]. rewrite forallb_forall in *. auto.
Qed.

Lemma emits_exec {A} P (m : M A) s :
  emits P m ->
  exists evs, trace (exec m s) = (trace s ++ evs)%list /\ forallb P evs = true.
Proof. intro H. apply H. Qed.

Ltac emits_step :=
  lazymatch goal with
  | |- emits _ (ret _) => apply emits_ret
  | |- emits _ (get _) => apply emits_get
  | |- emits _ (bind _ _) => apply emits_bind; [ | intro ]
  | |- emits _ (if ?b then _ else _) => destruct b
  | |- emits _ (match ?x with _ => _ end) => destruct x
  end.

Lemma emits_on_handoff P : emits P on_handoff.
Proof. apply emits_preserves, preserves_on_handoff; reflexivity. Qed.

Lemma emits_arm_next_state_timer P seconds :
  emits P (arm_next_state_timer seconds).
Proof. apply emits_preserves, preserves_arm_next_state_timer; reflexivity. Qed.

Lemma emits_g_timeout_add_seconds P seconds cb :
  emits P (g_timeout_add_seconds seconds cb).
Proof. apply emits_preserves, preserves_g_timeout_add_seconds; reflexivity. Qed.

Lemma emits_fresh_object P : emits P fresh_object.
Proof. apply emits_preserves, preserves_fresh_object; reflexivity. Qed.

Section Emits.
Variable P : event -> bool.

Ltac emits_leaf :=
  lazymatch goal with
  | |- emits _ (emit _) => apply emits_emit; solve [ auto | reflexivity ]
  | |- emits _ (cerr _) => apply emits_emit; solve [ auto | reflexivity ]
  | |- emits _ fresh_object => apply emits_fresh_object
  | |- emits _ (g_timeout_add_seconds _ _) => apply emits_g_timeout_add_seconds
  | |- emits _ (arm_next_state_timer _) => apply emits_arm_next_state_timer
  | |- emits _ (modify _) => apply emits_modify; intro; reflexivity
  end.

Ltac emits_all := repeat emits_step; emits_leaf.

Hypothesis P_stderr : forall l, P (EvStderr l) = true.

Lemma emits_fps_log_cb : emits P fps_log_cb.
Proof. unfold fps_log_cb. emits_all. Qed.

Lemma emits_bus_cb msg : emits P (bus_cb msg).
Proof. unfold bus_cb. destruct msg; emits_all. Qed.

Hypothesis P_set_state : forall p t, P (EvSetState p t) = true.
Hypothesis P_get_state : forall p, P (EvGetState p) = true.
Hypothesis P_parse_launch : forall r, P (EvParseLaunch r) = true.
Hypothesis P_bus_add_watch : forall p, P (EvBusAddWatch p) = true.
Hypothesis P_bin_add : forall p h n, P (EvBinAddBranches p h n) = true.
Hypothesis P_request_pad : forall p n, P (EvRequestPad p n) = true.
Hypothesis P_unref_pad : forall n, P (EvUnrefPad n) = true.
Hypothesis P_unref_tee : forall p, P (EvUnrefTee p) = true.
Hypothesis P_unref_pipeline : forall p, P (EvUnrefPipeline p) = true.
Hypothesis P_connect_handoff : forall p, P (EvConnectHandoff p) = true.

Lemma emits_set_pipeline_state target name :
  emits P (set_pipeline_state target name).
Proof. unfold set_pipeline_state. emits_all. Qed.

Lemma emits_link_tee_to_queue_and_keep_pad t pipe :
  emits P (link_tee_to_queue_and_keep_pad t pipe).
Proof. unfold link_tee_to_queue_and_keep_pad. emits_all. Qed.

Lemma emits_create_pipeline e host port :
  emits P (create_pipeline e host port).
Proof.
  unfold create_pipeline.
  repeat emits_step;
    lazymatch goal with
    | |- emits _ (link_tee_to_queue_and_keep_pad _ _) =>
        apply emits_link_tee_to_queue_and_keep_pad
    | |- _ => emits_leaf
    end.
Qed.

Lemma emits_unref_tee_req_pads : emits P unref_tee_req_pads.
Proof. unfold unref_tee_req_pads. emits_all. Qed.

Lemma emits_recreate_pipeline e : emits P (recreate_pipeline e).
Proof.
  unfold recreate_pipeline.
  repeat emits_step;
    lazymatch goal with
    | |- emits _ (set_pipeline_state _ _) => apply emits_set_pipeline_state
    | |- emits _ unref_tee_req_pads => apply emits_unref_tee_req_pads
    | |- emits _ (create_pipeline _ _ _) => apply emits_create_pipeline
    | |- _ => emits_leaf
    end.
Qed.

Lemma emits_state_machine_cb e : emits P (state_machine_cb e).
Proof.
  unfold state_machine_cb.
  repeat emits_step;
    lazymatch goal with
    | |- emits _ (set_pipeline_state _ _) => apply emits_set_pipeline_state
    | |- emits _ (recreate_pipeline _) => apply emits_recreate_pipeline
    | |- _ => emits_leaf
    end.
Qed.

Hypothesis P_loop_quit : P EvLoopQuit = true.

Lemma emits_handle_sigint : emits P handle_sigint.
Proof. unfold handle_sigint. emits_all. Qed.

Lemma emits_dispatch d : emits P (dispatch d).
Proof.
  destruct d; cbn [dispatch].
  - apply emits_on_handoff.
  - apply emits_bind; [ apply emits_fps_log_cb | intro; apply emits_ret ].
  - apply emits_bind; [ apply emits_state_machine_cb | intro; apply emits_ret ].
  - apply emits_bind; [ apply emits_bus_cb | intro; apply emits_ret ].
  - apply emits_handle_sigint.
Qed.

Lemma emits_run ops : forall s,
  exists evs,
    trace (run dispatch ops s) = (trace s ++ evs)%list
    /\ forallb P evs = true.
Proof.
  induction ops as [ | d ops IH ]; intro s.
  - exists []. split; [ symmetry; apply app_nil_r | reflexivity ].
  - cbn [run fold_left].
    destruct (emits_dispatch d s) as (evs1 & H1 & HP1).
    destruct (IH (exec (dispatch d) s)) as (evs2 & H2 & HP2).
    exists (evs1 ++ evs2)%list. split.
    + unfold run in H2. rewrite H2. unfold exec. rewrite H1.
      symmetry. apply app_assoc.
    + rewrite forallb_app, HP1, HP2. reflexivity.
Qed.

Hypothesis P_loop_unref : P EvLoopUnref = true.

Lemma emits_main_shutdown : emits P main_shutdown.
Proof.
  unfold main_shutdown.
  repeat emits_step;
    lazymatch goal with
    | |- emits _ unref_tee_req_pads => apply emits_unref_tee_req_pads
    | |- _ => emits_leaf
    end.
Qed.

Hypothesis P_loop_new : P EvLoopNew = true.
Hypothesis P_loop_run : P EvLoopRun = true.

Lemma emits_main_enter_loop : emits P main_enter_loop.
Proof. unfold main_enter_loop. emits_all. Qed.

End Emits.

(** ** The loop and SIGINT *)

Lemma g_main_loop_run_without_sigint ops : forall s,
  loop s = Some false ->
  forallb (fun d => negb (is_sigint d)) ops = true ->
  g_main_loop_run dispatch ops s = (false, run dispatch ops s)
  /\ loop (run dispatch ops s) = Some false.
Proof.
  induction ops as [ | d ops IH ]; intros s Hl Hops.
  - split; [ reflexivity | exact Hl ].
  - cbn [forallb] in Hops. apply andb_prop in Hops. destruct Hops as (Hd & Hops).
    apply negb_true_iff in Hd.
    cbn [g_main_loop_run run fold_left].
    assert (Hl' : loop (exec (dispatch d) s) = Some false)
      by (rewrite loop_dispatch; assumption).
    rewrite Hl'. apply IH; assumption.
Qed.

Lemma g_main_loop_run_at_sigint before after s :
  loop s = Some false ->
  forallb (fun d => negb (is_sigint d)) before = true ->
  g_main_loop_run dispatch (before ++ DoSigint :: after) s
  = (true, run dispatch (before ++ [DoSigint]) s).
Proof.
  revert s. induction before as [ | d before IH ]; intros s Hl Hb.
  - cbn [app g_main_loop_run run fold_left].
    assert (Hq : loop (exec (dispatch DoSigint) s) = Some true).
    { unfold dispatch, handle_sigint, exec, bind, cerr, emit, modify, get.
      cbn [fst snd]. state_simpl. rewrite Hl. reflexivity. }
    rewrite Hq. reflexivity.
  - cbn [forallb] in Hb. apply andb_prop in Hb. destruct Hb as (Hd & Hb).
    apply negb_true_iff in Hd.
    cbn [app g_main_loop_run run fold_left].
    assert (Hl' : loop (exec (dispatch d) s) = Some false)
      by (rewrite loop_dispatch; assumption).
    rewrite Hl'. apply IH; assumption.
Qed.

Lemma first_sigint ops :
  existsb is_sigint ops = true ->
  exists before after,
    ops = (before ++ DoSigint :: after)%list
    /\ forallb (fun d => negb (is_sigint d)) before = true.
Proof.
  induction ops as [ | d ops IH ]; intro H; [ discriminate | ].
  cbn [existsb] in H. destruct (is_sigint d) eqn:Hd.
  - destruct d; try discriminate. exists [], ops. split; reflexivity.
  - destruct (IH H) as (before & after & -> & Hb).
    exists (d :: before), after. split; [ reflexivity | ].
    cbn [forallb]. rewrite Hd, Hb. reflexivity.
Qed.

Lemma existsb_sigint_app before after :
  existsb is_sigint (before ++ DoSigint :: after) = true.
Proof.
  rewrite existsb_app. cbn [existsb is_sigint].
  apply orb_true_r.
Qed.

Lemma main_shutdown_returns s :
  (let (code, s') := main_shutdown s in Returned code s')
  = Returned 0 (exec main_shutdown s).
Proof.
  destruct (main_shutdown_eq s) as (Hcode & _).
  unfold exec. destruct (main_shutdown s) as [code s''].
  cbn [fst snd] in *. rewrite Hcode. reflexivity.
Qed.

(** ** The ways [main] can go *)

Lemma main_outcomes argv e ops :
  let o := main argv e ops in
  let start mode := initialised mode in
  (exists mode,
      o = Returned 0 (exec (emit (EvPrintHelp (hd "" argv)))
                           (set_phase_mode mode initial_state)))
  \/ (exists mode, o = Terminated (set_phase_mode mode initial_state))
  \/ (exists mode,
         mode <> 3 /\ mode <> 4
         /\ o = Returned (-1)
                  (exec (cerr (LogError "[ERROR] --phase must be 3 or 4"))
                        (set_phase_mode mode initial_state)))
  \/ (exists mode code,
         (mode = 3 \/ mode = 4)
         /\ gst_init_exits e argv = Some code
         /\ o = Returned code (exec (emit EvGstInit)
                                    (set_phase_mode mode initial_state)))
  \/ (exists mode s1,
         (mode = 3 \/ mode = 4)
         /\ gst_init_exits e argv = None
         /\ create_pipeline e "10.0.0.2" 5000 (start mode) = (None, s1)
         /\ o = Returned (-1) (set_pipeline None s1))
  \/ (exists mode p s1 done,
         (mode = 3 \/ mode = 4)
         /\ gst_init_exits e argv = None
         /\ create_pipeline e "10.0.0.2" 5000 (start mode) = (Some p, s1)
         /\ main_startup argv e
            = Run (exec main_enter_loop (set_pipeline (Some p) s1))
         /\ let s := run dispatch done
                         (exec main_enter_loop (set_pipeline (Some p) s1)) in
            o = Looping s
            \/ (loop s = Some true /\ o = Returned 0 (exec main_shutdown s))).
Proof.
  intros o start. subst o. unfold main.
  assert (Hmode : forall mode,
             negb (mode =? 3)%Z && negb (mode =? 4)%Z = false ->
             mode = 3 \/ mode = 4).
  { intros mode H.
    destruct (mode =? 3)%Z eqn:H3; [ left; apply Z.eqb_eq, H3 | ].
    destruct (mode =? 4)%Z eqn:H4; [ right; apply Z.eqb_eq, H4 | discriminate ]. }
  destruct (main_startup argv e) as [ code s | s | s0 ] eqn:Hs.
  - rewrite main_startup_eq in Hs.
    destruct (main_arg_loop (tl argv) 3) as [ mode | ex mode | mode ];
      try discriminate.
    + injection Hs as <- <-. left. exists mode. reflexivity.
    + destruct (negb (mode =? 3)%Z && negb (mode =? 4)%Z) eqn:Hm.
      * injection Hs as <- <-. right. right. left. exists mode.
        apply andb_prop in Hm. destruct Hm as (H3 & H4).
        apply negb_true_iff in H3, H4. apply Z.eqb_neq in H3, H4.
        repeat split; assumption.
      * destruct (gst_init_exits e argv) as [ exited | ] eqn:Hinit.
        { injection Hs as <- <-. right. right. right. left.
          exists mode, exited.
          split; [ exact (Hmode _ Hm) | split; reflexivity ]. }
        destruct (create_pipeline e "10.0.0.2" 5000
                    (initialised mode))
          as [ [ p | ] s1 ] eqn:Hc; try discriminate.
        injection Hs as <- <-. right. right. right. right. left.
        exists mode, s1.
        split; [ exact (Hmode _ Hm) | ].
        split; [ reflexivity | split; [ exact Hc | reflexivity ] ].
  - rewrite main_startup_eq in Hs.
    destruct (main_arg_loop (tl argv) 3) as [ mode | ex mode | mode ];
      try discriminate.
    + injection Hs as <-. right. left. exists mode. reflexivity.
    + destruct (negb (mode =? 3)%Z && negb (mode =? 4)%Z); try discriminate.
      destruct (gst_init_exits e argv); try discriminate.
      destruct (create_pipeline e "10.0.0.2" 5000
                  (initialised mode))
        as [ [ p | ] s1 ]; discriminate.
  - destruct (main_startup_run argv e s0 Hs)
      as (mode & p & s1 & _ & Hm & Hinit & Hc & ->).
    right. right. right. right. right.
    destruct (g_main_loop_run dispatch ops
                (exec main_enter_loop (set_pipeline (Some p) s1)))
      as [ b s' ] eqn:Hl.
    destruct (g_main_loop_run_is_run _ _ _ _ _ Hl) as (done & rest & _ & ->).
    exists mode, p, s1, done.
    split; [ exact Hm | ].
    split; [ exact Hinit | split; [ exact Hc | split; [ reflexivity | ] ] ].
    cbv zeta. destruct b.
    + right.
      destruct (g_main_loop_run_quit _ _ _ (loop_startup argv e _ Hs) Hl)
        as (before & after & _ & Hb & Hq).
      split.
      * rewrite Hq, run_app.
        destruct (g_main_loop_run_without_sigint before _
                    (loop_startup argv e _ Hs) Hb) as (_ & Hlb).
        revert Hlb.
        generalize (run dispatch before
                      (exec main_enter_loop (set_pipeline (Some p) s1))).
        intros sb Hlb. cbn [run fold_left].
        unfold dispatch, handle_sigint, exec, bind, cerr, emit, modify, get.
        cbn [fst snd]. state_simpl. rewrite Hlb. reflexivity.
      * apply main_shutdown_returns.
    + left. reflexivity.
Qed.

(** X1.  Once in its loop, [main] leaves it on SIGINT and on nothing else.
    With no SIGINT among the calls dispatched it is still looping after all
    of them, whatever the engine answered at the rebuilds.  If it has
    returned, it returned 0 and a SIGINT was dispatched.  And with a SIGINT
    among the calls it does return 0, after the shutdown sequence, having
    dispatched some first part of the calls which includes a SIGINT. *)
Theorem main_leaves_loop_only_on_sigint
        (argv : list string) (e : build_env) (s0 : state) :
  main_startup argv e = Run s0 ->
  (forall ops,
      forallb (fun d => negb (is_sigint d)) ops = true ->
      main argv e ops = Looping (run dispatch ops s0))
  /\ (forall ops code s,
         main argv e ops = Returned code s ->
         code = 0 /\ existsb is_sigint ops = true)
  /\ (forall ops,
         existsb is_sigint ops = true ->
         exists done rest,
           ops = (done ++ rest)%list
           /\ existsb is_sigint done = true
           /\ main argv e ops
              = Returned 0 (exec main_shutdown (run dispatch done s0))).
Proof.
  intro Hs. pose proof (loop_startup argv e s0 Hs) as Hl.
  split; [ | split ].
  - intros ops Hops. unfold main. rewrite Hs.
    destruct (g_main_loop_run_without_sigint ops s0 Hl Hops) as (-> & _).
    reflexivity.
  - intros ops code s. unfold main. rewrite Hs.
    destruct (g_main_loop_run dispatch ops s0) as [ [ | ] s' ] eqn:Hrun;
      [ | discriminate ].
    rewrite main_shutdown_returns. intro H. injection H as <- _.
    split; [ reflexivity | ].
    destruct (g_main_loop_run_quit _ _ _ Hl Hrun) as (before & after & -> & _).
    apply existsb_sigint_app.
  - intros ops Hops.
    destruct (first_sigint ops Hops) as (before & after & -> & Hb).
    exists (before ++ [DoSigint])%list, after.
    split; [ rewrite <- app_assoc; reflexivity | ].
    split; [ apply existsb_sigint_app | ].
    unfold main. rewrite Hs.
    rewrite (g_main_loop_run_at_sigint before after s0 Hl Hb).
    apply main_shutdown_returns.
Qed.

Lemma main_leaves_loop_only_on_sigint_witness :
  let s0 := exec main_enter_loop
              (set_pipeline (fst (create_pipeline all_fine "10.0.0.2" 5000
                                    (initialised 3)))
                 (snd (create_pipeline all_fine "10.0.0.2" 5000
                         (initialised 3)))) in
  main ["gst_cycle"] all_fine
       [DoStateMachine launch_fails; DoBusMessage (GST_MESSAGE_ERROR None None)]
  = Looping (run dispatch
               [DoStateMachine launch_fails;
                DoBusMessage (GST_MESSAGE_ERROR None None)] s0).
Proof.
  intro s0.
  assert (H : main_startup ["gst_cycle"] all_fine = Run s0)
    by (vm_compute; reflexivity).
  apply (proj1 (main_leaves_loop_only_on_sigint ["gst_cycle"] all_fine s0 H)).
  reflexivity.
Defined.

(** ** [gst_init] comes first *)

(** X2.  Whatever the command line, the engine and the calls dispatched, the
    calls [main] has made are one of four.  None at all (it was terminated
    over a [--phase] value).  One line of output, the help text or the
    [--phase] complaint.  [gst_init] alone, when [gst_init] ended the
    process over an argument: no SIGINT handler was installed then.  Or
    [gst_init] returned, and the first two calls are [gst_init] and the
    installation of the SIGINT handler, neither ever made again. *)
Theorem gst_init_first_and_once
        (argv : list string) (e : build_env) (ops : list dispatched) :
  let tr := trace (final_state (main argv e ops)) in
  tr = []
  \/ (exists ev, tr = [ev] /\ (is_print_help ev || is_stderr ev) = true)
  \/ (tr = [EvGstInit]
      /\ exists code,
           gst_init_exits e argv = Some code
           /\ exists s, main argv e ops = Returned code s)
  \/ (gst_init_exits e argv = None
      /\ exists rest,
           tr = EvGstInit :: EvSignal :: rest
           /\ forallb (fun ev => negb (is_init_event ev)) rest = true).
Proof.
  set (P := fun ev => negb (is_init_event ev)).
  assert (Hcreate : forall mode,
             exists evs,
               trace (snd (create_pipeline e "10.0.0.2" 5000
                             (initialised mode)))
               = (EvGstInit :: EvSignal :: evs)%list
               /\ forallb P evs = true).
  { intro mode.
    destruct (emits_create_pipeline P) with
      (e := e) (host := "10.0.0.2") (port := 5000)
      (s := initialised mode)
      as (evs & H1 & H2); try reflexivity.
    exists evs. split; [ exact H1 | exact H2 ]. }
  cbv zeta.
  destruct (main_outcomes argv e ops)
    as [ (mode & ->) | [ (mode & ->) | [ (mode & _ & _ & ->)
       | [ (mode & code & _ & Hinit & ->)
       | [ (mode & s1 & _ & Hinit & Hc & ->)
         | (mode & p & s1 & done & _ & Hinit & Hc & _ & Ho) ] ] ] ] ].
  - right. left. eexists. split; reflexivity.
  - left. reflexivity.
  - right. left. eexists. split; reflexivity.
  - right. right. left. split; [ reflexivity | ].
    exists code. split; [ exact Hinit | eexists; reflexivity ].
  - right. right. right. split; [ exact Hinit | ].
    destruct (Hcreate mode) as (evs & H1 & H2).
    rewrite Hc in H1. exists evs. split; assumption.
  - right. right. right. split; [ exact Hinit | ].
    destruct (Hcreate mode) as (evs & H1 & H2).
    rewrite Hc in H1. cbn [snd] in H1.
    destruct (emits_main_enter_loop P) with (s := set_pipeline (Some p) s1)
      as (evs2 & H3 & H4); try reflexivity.
    change (trace (set_pipeline (Some p) s1)) with (trace s1) in H3.
    destruct (emits_run P) with
      (ops := done) (s := exec main_enter_loop (set_pipeline (Some p) s1))
      as (evs3 & H5 & H6); try reflexivity.
    cbv zeta in Ho. destruct Ho as [ -> | (_ & ->) ]; cbn [final_state].
    + exists (evs ++ evs2 ++ evs3)%list. split.
      * rewrite H5. unfold exec. rewrite H3, H1.
        cbn [app]. rewrite <- app_assoc. reflexivity.
      * rewrite !forallb_app, H2, H4, H6. reflexivity.
    + destruct (emits_main_shutdown P) with
        (s := run dispatch done (exec main_enter_loop (set_pipeline (Some p) s1)))
        as (evs4 & H7 & H8); try reflexivity.
      exists (evs ++ evs2 ++ evs3 ++ evs4)%list. split.
      * unfold exec at 1. rewrite H7, H5. unfold exec. rewrite H3, H1.
        cbn [app]. rewrite <- !app_assoc. reflexivity.
      * rewrite !forallb_app, H2, H4, H6, H8. reflexivity.
Qed.

(** ** The timers *)

Lemma arm_next_state_timer_tview seconds s :
  tview (exec (arm_next_state_timer seconds) s)
  = (phase s, phase_mode s, state_tick s, next_source_id s,
     ((if (state_timer_id s =? 0)%nat then sources s
       else filter (fun src => negb (src_id src =? state_timer_id s)%nat)
                   (sources s))
      ++ [ {| src_id := next_source_id s; src_interval := seconds;
              src_due := (clock s + seconds)%nat;
              src_cb := CbStateMachine |} ])%list,
     S (next_source_id s), clock s).
Proof.
  unfold arm_next_state_timer, exec, bind, get, modify, g_source_remove,
    g_timeout_add_seconds, ret, tview.
  destruct (state_timer_id s =? 0)%nat; reflexivity.
Qed.

Lemma wp_arm_next_state_timer_tview seconds (Q : unit -> state -> Prop) s :
  (forall s',
      tview s'
      = (phase s, phase_mode s, state_tick s, next_source_id s,
         ((if (state_timer_id s =? 0)%nat then sources s
           else filter (fun src => negb (src_id src =? state_timer_id s)%nat)
                       (sources s))
          ++ [ {| src_id := next_source_id s; src_interval := seconds;
                  src_due := (clock s + seconds)%nat;
                  src_cb := CbStateMachine |} ])%list,
         S (next_source_id s), clock s) ->
      Q tt s') ->
  wp (arm_next_state_timer seconds) Q s.
Proof.
  intro H. pose proof (arm_next_state_timer_tview seconds s) as Ht.
  unfold wp, exec in *. destruct (arm_next_state_timer seconds s) as [[] s'].
  cbn [fst snd] in *. apply H, Ht.
Qed.

(** One firing, as far as phases and timers go: the phase moves on, the
    tick is counted, the timer that fired is dropped and one new timer is
    attached, for as long as the phase entered lasts. *)
Lemma state_machine_cb_tview e s :
  tview (exec (state_machine_cb e) s)
  = (next_phase (phase_mode s) (phase s), phase_mode s,
     wrap_int (state_tick s + 1), next_source_id s,
     ((if (state_timer_id s =? 0)%nat then sources s
       else filter (fun src => negb (src_id src =? state_timer_id s)%nat)
                   (sources s))
      ++ [ {| src_id := next_source_id s;
              src_interval := dwell (next_phase (phase_mode s) (phase s));
              src_due := (clock s + dwell (next_phase (phase_mode s) (phase s)))%nat;
              src_cb := CbStateMachine |} ])%list,
     S (next_source_id s), clock s).
Proof.
  match goal with
  | |- _ = ?R => change (wp (state_machine_cb e) (fun _ s' => tview s' = R) s)
  end.
  repeat wp_step;
    repeat (apply (wp_preserves tview);
            [ first [ apply preserves_create_pipeline; reflexivity
                    | apply preserves_unref_tee_req_pads; reflexivity ]
            | intros ? ? ?; repeat wp_step ]);
    (apply wp_arm_next_state_timer_tview; intros sa Hsa; repeat wp_step);
    rewrite Hsa; state_simpl;
    repeat match goal with
           | H : tview _ = tview _ |- _ =>
               apply tview_fields in H; state_simpl;
               destruct H as (? & ? & ? & ? & ? & ? & ?)
           end;
    unfold next_phase;
    repeat match goal with
           | H : (_ =? _)%Z = _ |- _ => rewrite H
           | H : phase _ = _ |- _ => rewrite H
           | H : phase_mode _ = _ |- _ => rewrite H
           | H : state_tick _ = _ |- _ => rewrite H
           | H : state_timer_id _ = _ |- _ => rewrite H
           | H : sources _ = _ |- _ => rewrite H
           | H : next_source_id _ = _ |- _ => rewrite H
           | H : clock _ = _ |- _ => rewrite H
           end;
    reflexivity.
Qed.

Lemma state_machine_cb_returns e s : fst (state_machine_cb e s) = false.
Proof.
  change (wp (state_machine_cb e) (fun r _ => r = false) s).
  repeat wp_step;
    repeat (apply (wp_preserves (fun _ => tt));
            [ intro; reflexivity | intros ? ? _; repeat wp_step ]);
    reflexivity.
Qed.

Lemma dwell_positive ph : (1 <= dwell ph)%nat.
Proof. destruct ph; cbn [dwell]; lia. Qed.

Lemma timers_ok_tview s1 s2 :
  tview s1 = tview s2 -> timers_ok s2 -> timers_ok s1.
Proof.
  intros H (fps & st & H2). apply tview_fields in H. unfold timers_ok.
  destruct H as (-> & _ & _ & -> & -> & -> & _). exists fps, st. exact H2.
Qed.

Lemma timers_due_ok k s : timers_due k s -> timers_ok s.
Proof.
  intros (fps & st & H1 & H2 & H3 & H4 & _ & H5 & H6 & H7 & H8 & _).
  exists fps, st. rewrite H4. repeat split; try assumption; lia.
Qed.

Lemma timers_ok_state_machine_cb e s :
  timers_ok s -> timers_ok (exec (state_machine_cb e) s).
Proof.
  intros ([idf intf duef cbf] & [ids ints dues cbs] & Hsrc & H).
  cbn [src_id src_interval src_due src_cb] in H.
  destruct H as (-> & -> & -> & -> & Hid & Hlt & Hnx').
  pose proof (state_machine_cb_tview e s) as Ht. unfold tview in Ht.
  injection Ht as Hph _ _ Htid Hs' Hnx _.
  rewrite Hsrc, <- Hid in Hs'.
  assert (E0 : (ids =? 0)%nat = false) by (apply Nat.eqb_neq; lia).
  assert (E1 : (idf =? ids)%nat = false) by (apply Nat.eqb_neq; lia).
  rewrite E0 in Hs'. cbn [filter src_id negb app] in Hs'.
  rewrite E1, Nat.eqb_refl in Hs'. cbn [negb app] in Hs'.
  eexists _, _. split; [ exact Hs' | ].
  cbn [src_id src_interval src_due src_cb].
  rewrite Hph, Htid, Hnx. repeat split; lia.
Qed.

Lemma tview_dispatch_other d s :
  is_firing d = false -> tview (exec (dispatch d) s) = tview s.
Proof.
  destruct d; try discriminate; intros _; cbn [dispatch].
  - apply preserves_on_handoff; reflexivity.
  - apply (preserves_bind tview); [ | intro; apply preserves_ret ].
    apply preserves_fps_log_cb; reflexivity.
  - apply (preserves_bind tview); [ | intro; apply preserves_ret ].
    apply preserves_bus_cb; reflexivity.
  - apply preserves_handle_sigint; reflexivity.
Qed.

Lemma timers_ok_dispatch d s :
  timers_ok s -> timers_ok (exec (dispatch d) s).
Proof.
  intro H. destruct (is_firing d) eqn:Hd.
  - destruct d; try discriminate. cbn [dispatch]. rewrite exec_then_ret.
    apply timers_ok_state_machine_cb, H.
  - apply (timers_ok_tview _ s); [ apply tview_dispatch_other, Hd | exact H ].
Qed.

Lemma timers_due_startup argv e s0 :
  main_startup argv e = Run s0 -> timers_due 1 s0.
Proof.
  intro H. pose proof (tview_startup argv e s0 H) as Hv.
  apply tview_fields in Hv.
  destruct Hv as (Hph & _ & _ & Hid & Hs & Hnx & Hck).
  unfold timers_due. rewrite Hph, Hid, Hs, Hnx, Hck.
  eexists _, _. split; [ reflexivity | ].
  cbn. repeat split; lia.
Qed.

(** ** The timers under the clock *)

Lemma second_elapses_eq envs s :
  exec (second_elapses envs) s
  = exec (fold_right (fun src rest => dispatch_source envs src ;; rest) (ret tt)
            (filter (fun src => (src_due src <=? S (clock s))%nat) (sources s)))
         (set_clock (S (clock s)) s).
Proof. reflexivity. Qed.

Lemma exec_seq {A B} (m : M A) (k : M B) s :
  exec (m ;; k) s = exec k (exec m s).
Proof. unfold exec, bind. destruct (m s). reflexivity. Qed.

Lemma exec_ret {A} (a : A) s : exec (ret a) s = s.
Proof. reflexivity. Qed.

Lemma tview_dispatch_source_fps envs src s :
  src_cb src = CbFpsLog ->
  source_attached (src_id src) s = true ->
  tview (exec (dispatch_source envs src) s)
  = (phase s, phase_mode s, state_tick s, state_timer_id s,
     map (fun x =>
            if (src_id x =? src_id src)%nat
            then {| src_id := src_id x; src_interval := src_interval x;
                    src_due := (clock s + src_interval x)%nat;
                    src_cb := src_cb x |}
            else x) (sources s),
     next_source_id s, clock s).
Proof.
  intros Hcb Hat. unfold dispatch_source, exec, bind, get. cbn [fst snd].
  rewrite Hat, Hcb, fps_log_cb_eq. reflexivity.
Qed.

Lemma tview_dispatch_source_state envs src s :
  src_cb src = CbStateMachine ->
  source_attached (src_id src) s = true ->
  let s' := exec (state_machine_cb (envs (clock s))) s in
  tview (exec (dispatch_source envs src) s)
  = (phase s', phase_mode s', state_tick s', state_timer_id s',
     filter (fun x => negb (src_id x =? src_id src)%nat) (sources s'),
     next_source_id s', clock s').
Proof.
  intros Hcb Hat. unfold dispatch_source, exec, bind, get. cbn [fst snd].
  rewrite Hat, Hcb.
  pose proof (state_machine_cb_returns (envs (clock s)) s) as Hr.
  destruct (state_machine_cb (envs (clock s)) s) as [keep s1].
  cbn [fst snd] in *. rewrite Hr. reflexivity.
Qed.

Lemma tview_dispatch_sampler envs s fps st :
  sources s = [fps; st] ->
  src_id fps = 1%nat -> src_cb fps = CbFpsLog -> src_id st <> 1%nat ->
  tview (exec (dispatch_source envs fps) s)
  = (phase s, phase_mode s, state_tick s, state_timer_id s,
     [ {| src_id := 1%nat; src_interval := src_interval fps;
          src_due := (clock s + src_interval fps)%nat; src_cb := CbFpsLog |};
       st ],
     next_source_id s, clock s).
Proof.
  intros Hsrc Hid Hcb Hst.
  rewrite tview_dispatch_source_fps;
    [ | exact Hcb | unfold source_attached; rewrite Hsrc; cbn [existsb];
                    rewrite Hid; reflexivity ].
  rewrite Hsrc. cbn [map]. rewrite Hid, Hcb. cbn [Nat.eqb].
  apply Nat.eqb_neq in Hst. rewrite Hst. reflexivity.
Qed.

Lemma tview_dispatch_state_timer envs s fps st :
  sources s = [fps; st] ->
  src_id fps = 1%nat -> src_cb st = CbStateMachine ->
  src_id st = state_timer_id s ->
  (1 < src_id st < next_source_id s)%nat ->
  tview (exec (dispatch_source envs st) s)
  = (next_phase (phase_mode s) (phase s), phase_mode s,
     wrap_int (state_tick s + 1), next_source_id s,
     [ fps;
       {| src_id := next_source_id s;
          src_interval := dwell (next_phase (phase_mode s) (phase s));
          src_due := (clock s + dwell (next_phase (phase_mode s) (phase s)))%nat;
          src_cb := CbStateMachine |} ],
     S (next_source_id s), clock s).
Proof.
  intros Hsrc Hid Hcb Hst Hlt.
  rewrite tview_dispatch_source_state;
    [ | exact Hcb
      | unfold source_attached; rewrite Hsrc; cbn [existsb];
        rewrite Nat.eqb_refl; apply orb_true_r ].
  pose proof (state_machine_cb_tview (envs (clock s)) s) as Ht.
  unfold tview in Ht. injection Ht as -> -> -> -> Hs' -> ->.
  rewrite Hs', Hsrc, <- Hst.
  assert (E0 : (src_id st =? 0)%nat = false) by (apply Nat.eqb_neq; lia).
  assert (E1 : (1 =? src_id st)%nat = false) by (apply Nat.eqb_neq; lia).
  assert (E2 : (next_source_id s =? src_id st)%nat = false)
    by (apply Nat.eqb_neq; lia).
  rewrite E0. cbn [filter app negb]. rewrite Hid, E1, Nat.eqb_refl.
  cbn [filter app negb src_id]. rewrite Hid, E1, E2. reflexivity.
Qed.

Lemma tview_is s ph md tk id srcs nx ck :
  tview s = (ph, md, tk, id, srcs, nx, ck) ->
  phase s = ph /\ phase_mode s = md /\ state_tick s = tk
  /\ state_timer_id s = id /\ sources s = srcs /\ next_source_id s = nx
  /\ clock s = ck.
Proof. unfold tview. intro H. injection H as <- <- <- <- <- <- <-. repeat split. Qed.

(** One second on the clock.  While the state timer is not yet due nothing
    changes but the time left; when it is due the state machine fires, once,
    and its next timer is set for as long as the phase entered lasts. *)
Lemma second_elapses_timers envs k s :
  timers_due k s ->
  let s' := exec (second_elapses envs) s in
  clock s' = S (clock s)
  /\ phase_mode s' = phase_mode s
  /\ match k with
     | 1%nat =>
         phase s' = next_phase (phase_mode s) (phase s)
         /\ state_tick s' = wrap_int (state_tick s + 1)
         /\ timers_due (dwell (phase s')) s'
     | _ =>
         phase s' = phase s /\ state_tick s' = state_tick s
         /\ timers_due (k - 1) s'
     end.
Proof.
  intros (fps & st & Hsrc & Hcbf & Hintf & Hidf & Hduef & Hcbs & Hints & Hids
          & Hlt & Hdues & Hk) s'.
  subst s'. rewrite second_elapses_eq, Hsrc. cbn [filter].
  set (s1 := set_clock (S (clock s)) s).
  assert (Hs1 : sources s1 = [fps; st]) by exact Hsrc.
  assert (Hne : src_id st <> 1%nat) by lia.
  destruct (src_due fps <=? S (clock s))%nat eqn:Ef;
    destruct (src_due st <=? S (clock s))%nat eqn:Es;
    cbn [fold_right];
    repeat rewrite exec_seq;
    try (pose proof (tview_dispatch_sampler envs s1 fps st Hs1 Hidf Hcbf Hne)
          as Ha;
         apply tview_is in Ha;
         destruct Ha as (Hap & Ham & Hat & Hai & Has & Han & Hac));
    change (phase s1) with (phase s) in *;
    change (phase_mode s1) with (phase_mode s) in *;
    change (state_tick s1) with (state_tick s) in *;
    change (state_timer_id s1) with (state_timer_id s) in *;
    change (next_source_id s1) with (next_source_id s) in *;
    change (clock s1) with (S (clock s)) in *;
    try (apply Nat.leb_le in Ef); try (apply Nat.leb_gt in Ef);
    try (apply Nat.leb_le in Es); try (apply Nat.leb_gt in Es).
  - (* both are due *)
    assert (k = 1%nat) by lia. subst k.
    set (sa := exec (dispatch_source envs fps) s1) in *.
    assert (Hids' : src_id st = state_timer_id sa) by congruence.
    assert (Hlt' : (1 < src_id st < next_source_id sa)%nat)
      by (rewrite Han; exact Hlt).
    pose proof (tview_dispatch_state_timer envs sa _ st Has eq_refl Hcbs
                  Hids' Hlt') as Hb.
    apply tview_is in Hb. rewrite Ham, Hap, Hat, Han, Hac in Hb.
    destruct Hb as (Hbp & Hbm & Hbt & Hbi & Hbs & Hbn & Hbc).
    rewrite exec_ret.
    repeat split; try assumption.
    unfold timers_due. rewrite Hbp, Hbi, Hbs, Hbn, Hbc.
    eexists _, _. split; [ reflexivity | ].
    cbn [src_id src_interval src_due src_cb clock s1 set_clock].
    pose proof (dwell_positive (next_phase (phase_mode s) (phase s))).
    repeat split; lia.
  - (* the sampler alone *)
    rewrite exec_ret.
    set (sa := exec (dispatch_source envs fps) s1) in *.
    split; [ exact Hac | split; [ exact Ham | ] ].
    assert (Hdue : timers_due (k - 1) sa).
    { unfold timers_due. rewrite Hap, Hai, Has, Han, Hac.
      eexists _, _. split; [ reflexivity | ].
      cbn [src_id src_interval src_due src_cb clock phase state_timer_id
           next_source_id s1 set_clock].
      repeat split; try assumption; lia. }
    destruct k as [ | [ | k ] ]; [ lia | lia | ].
    split; [ exact Hap | split; [ exact Hat | exact Hdue ] ].
  - (* the state timer alone *)
    assert (k = 1%nat) by lia. subst k.
    pose proof (tview_dispatch_state_timer envs s1 fps st Hs1 Hidf Hcbs Hids Hlt)
      as Hb.
    apply tview_is in Hb.
    destruct Hb as (Hbp & Hbm & Hbt & Hbi & Hbs & Hbn & Hbc).
    rewrite exec_ret.
    set (sb := exec (dispatch_source envs st) s1) in *.
    repeat split; try assumption.
    unfold timers_due. rewrite Hbp, Hbi, Hbs, Hbn, Hbc.
    eexists _, _. split; [ reflexivity | ].
    cbn [src_id src_interval src_due src_cb clock phase phase_mode
         next_source_id s1 set_clock].
    pose proof (dwell_positive (next_phase (phase_mode s) (phase s))).
    repeat split; try assumption; lia.
  - (* nothing is due *)
    rewrite exec_ret.
    split; [ reflexivity | split; [ reflexivity | ] ].
    assert (Hdue : timers_due (k - 1) s1).
    { exists fps, st. cbn [clock phase state_timer_id next_source_id s1 set_clock].
      repeat split; try assumption; lia. }
    destruct k as [ | [ | k ] ]; [ lia | lia | ].
    split; [ reflexivity | split; [ reflexivity | exact Hdue ] ].
Qed.

Lemma timers_due_elapse envs seconds : forall k s,
  timers_due k s -> exists k', timers_due k' (elapse envs seconds s).
Proof.
  induction seconds as [ | n IH ]; intros k s H; [ exists k; exact H | ].
  cbn [elapse].
  pose proof (second_elapses_timers envs k s H) as (_ & _ & Hk).
  destruct k as [ | [ | k ] ].
  - destruct Hk as (_ & _ & Hk). exact (IH _ _ Hk).
  - destruct Hk as (_ & _ & Hk). exact (IH _ _ Hk).
  - destruct Hk as (_ & _ & Hk). exact (IH _ _ Hk).
Qed.

(** X3.  From [main]'s entry into the loop on, after any calls dispatched and
    after any number of seconds on the clock, exactly two timeouts are
    attached: the sampler, with interval 5, and one state timer, whose id is
    the one in [state_timer_id] and whose interval is what the current phase
    lasts (10 s in PLAYING, 1 s otherwise).  The two have different ids: the
    sampler's was given out first. *)
Theorem one_state_timer_at_all_times
        (argv : list string) (e : build_env) (s0 : state) :
  main_startup argv e = Run s0 ->
  (forall ops, timers_ok (run dispatch ops s0))
  /\ (forall envs seconds, timers_ok (elapse envs seconds s0)).
Proof.
  intro H. pose proof (timers_due_startup argv e s0 H) as H0. split.
  - intro ops. induction ops as [ | d ops IH ] using rev_ind.
    + exact (timers_due_ok _ _ H0).
    + rewrite run_snoc. apply timers_ok_dispatch, IH.
  - intros envs seconds.
    destruct (timers_due_elapse envs seconds 1 s0 H0) as (k & Hk).
    exact (timers_due_ok _ _ Hk).
Qed.

Lemma one_state_timer_at_all_times_witness :
  let s0 := exec main_enter_loop
              (set_pipeline (fst (create_pipeline all_fine "10.0.0.2" 5000
                                    (initialised 3)))
                 (snd (create_pipeline all_fine "10.0.0.2" 5000
                         (initialised 3)))) in
  timers_ok (run dispatch [DoStateMachine launch_fails; DoFpsLog] s0).
Proof.
  intro s0.
  assert (H : main_startup ["gst_cycle"] all_fine = Run s0)
    by (vm_compute; reflexivity).
  exact (proj1 (one_state_timer_at_all_times ["gst_cycle"] all_fine s0 H)
               [DoStateMachine launch_fails; DoFpsLog]).
Defined.

(** X4.  Under the clock, a phase lasts exactly as long as its timer says.  With
    the state timer due in [k] seconds: for the [k - 1] seconds before, phase
    and tick stay as they are; in second [k] the state machine fires, once,
    the phase moves on to the next of its cycle, and the new timer is set to
    the full time of the phase entered: 10 seconds for PLAYING, 1 second for
    any other. *)
Theorem phase_lasts_as_long_as_its_timer
        (envs : nat -> build_env) (k : nat) (s : state) :
  timers_due k s ->
  (forall j, (j < k)%nat ->
     phase (elapse envs j s) = phase s
     /\ state_tick (elapse envs j s) = state_tick s)
  /\ phase (elapse envs k s) = next_phase (phase_mode s) (phase s)
  /\ state_tick (elapse envs k s) = wrap_int (state_tick s + 1)
  /\ timers_due (dwell (next_phase (phase_mode s) (phase s)))
                (elapse envs k s).
Proof.
  revert s. induction k as [ | k IH ]; intros s H.
  - destruct H as (? & ? & H). exfalso. decompose [and] H. lia.
  - pose proof (second_elapses_timers envs (S k) s H) as (_ & Hm & Hk).
    destruct k as [ | k ].
    + destruct Hk as (Hp & Ht & Hd). split.
      * intros j Hj. assert (j = 0%nat) by lia. subst j. split; reflexivity.
      * cbn [elapse]. rewrite <- Hp. repeat split; assumption.
    + destruct Hk as (Hp & Ht & Hd).
      replace (S (S k) - 1)%nat with (S k) in Hd by lia.
      destruct (IH _ Hd) as (Hwait & Hph & Htk & Hdue).
      rewrite Hm, Hp, Ht in *. split.
      * intros [ | j ] Hj; [ split; reflexivity | ].
        cbn [elapse]. destruct (Hwait j ltac:(lia)) as (Hw1 & Hw2).
        split; assumption.
      * cbn [elapse] in *. repeat split; assumption.
Qed.

Lemma phase_lasts_as_long_as_its_timer_witness :
  let s0 := exec main_enter_loop
              (set_pipeline (fst (create_pipeline all_fine "10.0.0.2" 5000
                                    (initialised 3)))
                 (snd (create_pipeline all_fine "10.0.0.2" 5000
                         (initialised 3)))) in
  let s := elapse (fun _ => all_fine) 1 s0 in
  phase s = PLAYING
  /\ phase (elapse (fun _ => launch_fails) 9 s) = PLAYING
  /\ phase (elapse (fun _ => launch_fails) 10 s) = PAUSED.
Proof.
  intros s0 s.
  assert (Hp : phase s = PLAYING) by (vm_compute; reflexivity).
  assert (Hm : phase_mode s = 3) by (vm_compute; reflexivity).
  assert (H : timers_due 10 s).
  { exists {| src_id := 1%nat; src_interval := 5%nat; src_due := 5%nat;
              src_cb := CbFpsLog |},
           {| src_id := 3%nat; src_interval := 10%nat; src_due := 11%nat;
              src_cb := CbStateMachine |}.
    split; [ vm_compute; reflexivity | ].
    rewrite Hp.
    assert (Hc : clock s = 1%nat) by (vm_compute; reflexivity).
    assert (Hi : state_timer_id s = 3%nat) by (vm_compute; reflexivity).
    assert (Hn : next_source_id s = 4%nat) by (vm_compute; reflexivity).
    rewrite Hc, Hi, Hn. cbn [src_id src_interval src_due src_cb dwell].
    repeat split; lia. }
  pose proof (phase_lasts_as_long_as_its_timer (fun _ => launch_fails) 10 s H)
    as (Hwait & Hfire & _).
  rewrite Hp, Hm in *. split; [ reflexivity | ].
  split; [ apply (Hwait 9%nat); lia | exact Hfire ].
Defined.

(** ** One pipeline at a time *)

Lemma one_alive_app tr1 : forall b tr2,
  one_alive b (tr1 ++ tr2)
  = match one_alive b tr1 with
    | Some b' => one_alive b' tr2
    | None => None
    end.
Proof.
  induction tr1 as [ | ev tr1 IH ]; intros b tr2; [ reflexivity | ].
  cbn [app one_alive].
  destruct (is_launched ev); [ destruct b; [ reflexivity | apply IH ] | ].
  destruct (is_teardown ev); [ destruct b; [ apply IH | reflexivity ] | ].
  apply IH.
Qed.

Lemma one_alive_keeps evs : forall b,
  forallb keeps_pipelines evs = true -> one_alive b evs = Some b.
Proof.
  induction evs as [ | ev evs IH ]; intros b H; [ reflexivity | ].
  cbn [forallb] in H. apply andb_prop in H. destruct H as (Hev & H).
  unfold keeps_pipelines in Hev. apply negb_true_iff, orb_false_iff in Hev.
  destruct Hev as (H1 & H2). cbn [one_alive]. rewrite H1, H2. apply IH, H.
Qed.

Lemma one_alive_after tr evs b :
  one_alive false tr = Some b ->
  forallb keeps_pipelines evs = true ->
  one_alive false (tr ++ evs) = Some b.
Proof. intros H He. rewrite one_alive_app, H. apply one_alive_keeps, He. Qed.

(** A call that makes and unrefs no pipeline, and leaves [pipeline] alone. *)
Lemma wp_keeps_pipelines {A} (m : M A) (Q : A -> state -> Prop) s :
  emits keeps_pipelines m -> preserves pipeline m ->
  (forall a s',
      (forall b, one_alive false (trace s) = Some b ->
                 one_alive false (trace s') = Some b) ->
      pipeline s' = pipeline s -> Q a s') ->
  wp m Q s.
Proof.
  intros He Hp H. unfold wp. apply H; [ | apply Hp ].
  intros b Hb. destruct (He s) as (evs & -> & Hq).
  apply one_alive_after; assumption.
Qed.

Ltac alive_trace :=
  repeat match goal with
         | H : forall b, one_alive false (trace ?s) = Some b -> _ |- _ =>
             lazymatch goal with
             | |- context [ trace s ] => fail
             | |- _ => clear H
             end
         end;
  rewrite ?one_alive_app;
  repeat match goal with
         | H : one_alive false _ = Some _ |- _ => rewrite H
         | H : forall b, _ -> one_alive false _ = Some b |- _ =>
             erewrite H by eassumption
         end;
  cbn [one_alive is_launched is_teardown is_some]; try reflexivity.

Lemma create_pipeline_one_alive e host port s :
  one_alive false (trace s) = Some false ->
  one_alive false (trace (snd (create_pipeline e host port s)))
  = Some (is_some (fst (create_pipeline e host port s)))
  /\ pipeline (snd (create_pipeline e host port s)) = pipeline s.
Proof.
  intro H. split; [ | apply preserves_create_pipeline; reflexivity ].
  change (wp (create_pipeline e host port)
             (fun r s' => one_alive false (trace s') = Some (is_some r)) s).
  unfold create_pipeline.
  repeat wp_step; try solve [ alive_trace ].
  all: apply wp_keeps_pipelines;
    [ apply emits_link_tee_to_queue_and_keep_pad; intros; reflexivity
    | apply preserves_link_tee_to_queue_and_keep_pad; reflexivity
    | intros pad_udp s1 H1 _ ].
  all: repeat wp_step.
  all: apply wp_keeps_pipelines;
    [ apply emits_link_tee_to_queue_and_keep_pad; intros; reflexivity
    | apply preserves_link_tee_to_queue_and_keep_pad; reflexivity
    | intros pad_fps s2 H2 _ ].
  all: repeat wp_step.
  all: rewrite ?one_alive_app.
  all: erewrite H2;
    [ reflexivity
    | state_simpl; rewrite ?one_alive_app; erewrite H1;
      [ reflexivity
      | state_simpl; rewrite ?one_alive_app, H; reflexivity ] ].
Qed.

Lemma wp_create_pipeline_one_alive e host port
      (Q : option GstElement -> state -> Prop) s :
  one_alive false (trace s) = Some false ->
  (forall r s', one_alive false (trace s') = Some (is_some r) -> Q r s') ->
  wp (create_pipeline e host port) Q s.
Proof.
  intros H HQ. unfold wp. apply HQ, create_pipeline_one_alive, H.
Qed.

(** [pipeline] tells whether a pipeline is alive. *)
Lemma recreate_pipeline_one_alive e s :
  one_alive false (trace s) = Some (is_some (pipeline s)) ->
  one_alive false (trace (exec (recreate_pipeline e) s))
  = Some (is_some (pipeline (exec (recreate_pipeline e) s))).
Proof.
  intro H.
  change (wp (recreate_pipeline e)
             (fun _ s' => one_alive false (trace s')
                          = Some (is_some (pipeline s'))) s).
  unfold recreate_pipeline.
  apply wp_bind. apply wp_keeps_pipelines;
    [ apply emits_set_pipeline_state; intros; reflexivity
    | apply preserves_set_pipeline_state; reflexivity
    | intros _ s1 H1 Hp1 ].
  apply wp_bind. apply wp_keeps_pipelines;
    [ apply emits_unref_tee_req_pads; intros; reflexivity
    | apply preserves_unref_tee_req_pads; reflexivity
    | intros _ s2 H2 Hp2 ].
  repeat wp_step.
  assert (H3 : one_alive false (trace s2 ++ [EvUnrefPipeline (pipeline s2)])
               = Some false).
  { rewrite one_alive_app, (H2 _ (H1 _ H)), Hp2, Hp1.
    destruct (pipeline s); reflexivity. }
  apply wp_create_pipeline_one_alive; [ exact H3 | intros p' s4 H4 ].
  repeat wp_step.
  apply (wp_preserves (fun s => (trace s, pipeline s)));
    [ apply preserves_arm_next_state_timer; reflexivity | intros _ s5 H5 ].
  injection H5 as -> ->. state_simpl. exact H4.
Qed.

Lemma state_machine_cb_one_alive e s :
  one_alive false (trace s) = Some (is_some (pipeline s)) ->
  one_alive false (trace (exec (state_machine_cb e) s))
  = Some (is_some (pipeline (exec (state_machine_cb e) s))).
Proof.
  intro H.
  change (wp (state_machine_cb e)
             (fun _ s' => one_alive false (trace s')
                          = Some (is_some (pipeline s'))) s).
  unfold state_machine_cb.
  repeat lazymatch goal with
         | |- wp (recreate_pipeline _) _ _ => fail
         | |- wp (set_pipeline_state _ _) _ _ => fail
         | |- _ => wp_step
         end.
  all: lazymatch goal with
       | |- wp (set_pipeline_state _ _) _ _ =>
           apply wp_keeps_pipelines;
           [ apply emits_set_pipeline_state; intros; reflexivity
           | apply preserves_set_pipeline_state; reflexivity
           | intros _ s1 H1 Hp1 ];
           repeat wp_step;
           apply (wp_preserves (fun s => (trace s, pipeline s)));
           [ apply preserves_arm_next_state_timer; reflexivity
           | intros _ s2 H2 ];
           repeat wp_step;
           injection H2 as -> ->; state_simpl; rewrite Hp1;
           apply H1; state_simpl; rewrite one_alive_app, H; reflexivity
       | |- wp (recreate_pipeline _) _ ?s1 =>
           assert (H1 : one_alive false (trace s1)
                        = Some (is_some (pipeline s1)))
             by (state_simpl; rewrite one_alive_app, H; reflexivity);
           apply (wp_hoare (fun s => one_alive false (trace s)
                                     = Some (is_some (pipeline s)))
                           (recreate_pipeline e)
                           (fun _ s => one_alive false (trace s)
                                       = Some (is_some (pipeline s))));
           [ intros s0 H0; apply recreate_pipeline_one_alive, H0
           | exact H1
           | intros _ s2 H2; repeat wp_step; exact H2 ]
       end.
Qed.

Lemma dispatch_one_alive d s :
  one_alive false (trace s) = Some (is_some (pipeline s)) ->
  one_alive false (trace (exec (dispatch d) s))
  = Some (is_some (pipeline (exec (dispatch d) s))).
Proof.
  intro H. destruct (is_firing d) eqn:Hd.
  - destruct d; try discriminate. cbn [dispatch]. rewrite exec_then_ret.
    apply state_machine_cb_one_alive, H.
  - assert (He : emits keeps_pipelines (dispatch d)).
    { destruct d; try discriminate; cbn [dispatch].
      - apply emits_on_handoff.
      - apply emits_bind; [ | intro; apply emits_ret ].
        apply emits_fps_log_cb; intros; reflexivity.
      - apply emits_bind; [ | intro; apply emits_ret ].
        apply emits_bus_cb; intros; reflexivity.
      - apply emits_handle_sigint; intros; reflexivity. }
    assert (Hp : pipeline (exec (dispatch d) s) = pipeline s).
    { destruct d; try discriminate; cbn [dispatch].
      - apply preserves_on_handoff; reflexivity.
      - apply (preserves_bind pipeline); [ | intro; apply preserves_ret ].
        apply preserves_fps_log_cb; reflexivity.
      - apply (preserves_bind pipeline); [ | intro; apply preserves_ret ].
        apply preserves_bus_cb; reflexivity.
      - apply preserves_handle_sigint; reflexivity. }
    rewrite Hp. destruct (He s) as (evs & Ht & Hq). unfold exec. rewrite Ht.
    apply one_alive_after; assumption.
Qed.

Lemma run_one_alive ops s :
  one_alive false (trace s) = Some (is_some (pipeline s)) ->
  one_alive false (trace (run dispatch ops s))
  = Some (is_some (pipeline (run dispatch ops s))).
Proof.
  intro H. induction ops as [ | d ops IH ] using rev_ind; [ exact H | ].
  rewrite run_snoc. apply dispatch_one_alive, IH.
Qed.

Lemma main_shutdown_one_alive s :
  one_alive false (trace s) = Some (is_some (pipeline s)) ->
  one_alive false (trace (exec main_shutdown s)) = Some false.
Proof.
  intro H. destruct (main_shutdown_eq s) as (_ & -> & _).
  rewrite one_alive_app, H. cbn [one_alive is_launched is_teardown].
  rewrite one_alive_app, one_alive_keeps.
  - destruct (pipeline s); reflexivity.
  - clear. induction (kept_pads s); [ reflexivity | assumption ].
Qed.

(** X5.  Whatever the command line, the engine's answers and the calls
    dispatched: reading the trace of [main] from its start, a pipeline is
    made only while none is alive and unreffed only while one is, so there
    are never two; while the loop runs, one is alive exactly when [pipeline]
    is not null; and when [main] returns, with whatever code, none is. *)
Theorem one_pipeline_at_a_time
        (argv : list string) (e : build_env) (ops : list dispatched) :
  exists alive,
    one_alive false (trace (final_state (main argv e ops))) = Some alive
    /\ (forall code s, main argv e ops = Returned code s -> alive = false)
    /\ (forall s, main argv e ops = Looping s -> alive = is_some (pipeline s)).
Proof.
  assert (Hstart : forall mode,
             one_alive false
               (trace (initialised mode))
             = Some false) by reflexivity.
  destruct (main_outcomes argv e ops)
    as [ (mode & ->) | [ (mode & ->) | [ (mode & _ & _ & ->)
       | [ (mode & code & _ & _ & ->)
       | [ (mode & s1 & _ & _ & Hc & ->)
         | (mode & p & s1 & done & _ & _ & Hc & _ & Ho) ] ] ] ] ].
  - exists false. repeat split; intros; discriminate.
  - exists false. repeat split; intros; discriminate.
  - exists false. repeat split; intros; discriminate.
  - exists false. repeat split; intros; discriminate.
  - destruct (create_pipeline_one_alive e "10.0.0.2" 5000 _ (Hstart mode))
      as (H1 & _).
    rewrite Hc in H1. cbn [fst snd is_some] in H1.
    exists false. cbn [final_state]. repeat split; try exact H1.
    intros; discriminate.
  - destruct (create_pipeline_one_alive e "10.0.0.2" 5000 _ (Hstart mode))
      as (H1 & _).
    rewrite Hc in H1. cbn [fst snd is_some] in H1.
    assert (H0 : one_alive false
                   (trace (exec main_enter_loop (set_pipeline (Some p) s1)))
                 = Some (is_some (pipeline
                      (exec main_enter_loop (set_pipeline (Some p) s1))))).
    { rewrite (preserves_exec pipeline main_enter_loop);
        [ | apply preserves_main_enter_loop; reflexivity ].
      destruct (emits_main_enter_loop keeps_pipelines) with
        (s := set_pipeline (Some p) s1) as (evs & Ht & Hq);
        try (intros; reflexivity).
      unfold exec. rewrite Ht. apply one_alive_after; assumption. }
    pose proof (run_one_alive done _ H0) as Hr.
    cbv zeta in Ho. destruct Ho as [ Ho | (_ & Ho) ]; rewrite Ho.
    + eexists. cbn [final_state]. split; [ exact Hr | ].
      split; [ intros; discriminate | ].
      intros s Hs. injection Hs as <-. reflexivity.
    + exists false. cbn [final_state].
      split; [ apply main_shutdown_one_alive, Hr | ].
      split; [ reflexivity | intros; discriminate ].
Qed.

(** ** What [create_pipeline] returns *)

Lemma link_tee_to_queue_and_keep_pad_result t pipe s :
  let r := link_tee_to_queue_and_keep_pad t pipe s in
  fst r = (if tee_link_ok t then Some (next_object s) else None)
  /\ next_object (snd r)
     = (if request_pad_ok t then S (next_object s) else next_object s)
  /\ tee_req_pad_udp (snd r) = tee_req_pad_udp s
  /\ tee_req_pad_fps (snd r) = tee_req_pad_fps s.
Proof.
  unfold link_tee_to_queue_and_keep_pad, tee_link_ok, bind, fresh_object, emit,
    modify, ret.
  destruct (request_pad_ok t), (static_pad_ok t), (pad_link_ok t);
    repeat split.
Qed.

Lemma wp_link_tee_to_queue_and_keep_pad_result t pipe
      (Q : option GstPad -> state -> Prop) s :
  (forall s',
      next_object s'
      = (if request_pad_ok t then S (next_object s) else next_object s) ->
      tee_req_pad_udp s' = tee_req_pad_udp s ->
      tee_req_pad_fps s' = tee_req_pad_fps s ->
      Q (if tee_link_ok t then Some (next_object s) else None) s') ->
  wp (link_tee_to_queue_and_keep_pad t pipe) Q s.
Proof.
  intro H.
  destruct (link_tee_to_queue_and_keep_pad_result t pipe s)
    as (H1 & H2 & H3 & H4).
  unfold wp. rewrite H1. apply H; assumption.
Qed.

Lemma create_pipeline_returns e host port s :
  let r := create_pipeline e host port s in
  let pipe := next_object s in
  fst r = (if buildable e then Some pipe else None)
  /\ tee_req_pad_udp (snd r)
     = (if buildable e && tee_link_ok (udp_tee e) then Some (S pipe) else None)
  /\ tee_req_pad_fps (snd r)
     = (if buildable e && tee_link_ok (fps_tee e)
        then Some (if request_pad_ok (udp_tee e) then S (S pipe) else S pipe)
        else None).
Proof.
  cbv zeta.
  change (wp (create_pipeline e host port)
            (fun r s' =>
               r = (if buildable e then Some (next_object s) else None)
               /\ tee_req_pad_udp s'
                  = (if buildable e && tee_link_ok (udp_tee e)
                     then Some (S (next_object s)) else None)
               /\ tee_req_pad_fps s'
                  = (if buildable e && tee_link_ok (fps_tee e)
                     then Some (if request_pad_ok (udp_tee e)
                                then S (S (next_object s))
                                else S (next_object s))
                     else None)) s).
  unfold create_pipeline.
  repeat wp_step;
    repeat match goal with
           | H : negb _ = true |- _ => apply negb_true_iff in H
           | H : negb _ = false |- _ => apply negb_false_iff in H
           end;
    unfold buildable;
    try solve [ repeat match goal with
                       | H : _ = true |- _ => rewrite H
                       | H : _ = false |- _ => rewrite H
                       end;
                cbn [negb andb]; rewrite ?andb_false_r; repeat split ].
  all: apply wp_link_tee_to_queue_and_keep_pad_result; intros s1 Hn1 Hu1 Hf1.
  all: repeat wp_step.
  all: apply wp_link_tee_to_queue_and_keep_pad_result; intros s2 Hn2 Hu2 Hf2.
  all: repeat wp_step.
  all: state_simpl.
  all: repeat match goal with
              | H : parse_launch_ok _ = _ |- _ => rewrite H
              | H : tee_found _ = _ |- _ => rewrite H
              | H : branch_element_missing _ = _ |- _ => rewrite H
              end.
  all: cbn [negb andb].
  all: rewrite ?Hu2.
  all: repeat match goal with
              | H : (if tee_link_ok _ then _ else _) = _ |- _ =>
                  rewrite ?Hn1 in H; revert H
              end.
  all: destruct (tee_link_ok (udp_tee e)), (tee_link_ok (fps_tee e));
    intros; try discriminate.
  all: repeat match goal with
              | H : Some _ = Some _ |- _ => injection H as <-
              end.
  all: repeat split.
Qed.

(** X6.  [create_pipeline] returns a pipeline exactly when the launch line
    parses, the tee is found and the six branch elements exist, whatever the
    four links answer; the handle is one never given out before.  The two
    kept pads are reset on entry, so after the call each is non-null exactly
    when the pipeline was built and the request, the static pad and the link
    of its branch all succeeded; the two pads differ from each other and
    from the pipeline. *)
Theorem create_pipeline_result
        (e : build_env) (host : string) (port : Z) (s : state) :
  let r := create_pipeline e host port s in
  let pipe := next_object s in
  fst r = (if buildable e then Some pipe else None)
  /\ tee_req_pad_udp (snd r)
     = (if buildable e && tee_link_ok (udp_tee e) then Some (S pipe) else None)
  /\ tee_req_pad_fps (snd r)
     = (if buildable e && tee_link_ok (fps_tee e)
        then Some (if request_pad_ok (udp_tee e) then S (S pipe) else S pipe)
        else None)
  /\ (tee_link_ok (udp_tee e) = true -> request_pad_ok (udp_tee e) = true).
Proof.
  cbv zeta. destruct (create_pipeline_returns e host port s) as (H1 & H2 & H3).
  repeat split; try assumption.
  unfold tee_link_ok. intro H. apply andb_prop in H. destruct H as (H & _).
  apply andb_prop in H. tauto.
Qed.

Lemma create_pipeline_result_witness :
  fst (create_pipeline fps_link_fails "10.0.0.2" 5000 initial_state)
  = Some (next_object initial_state)
  /\ fst (create_pipeline identity_missing "10.0.0.2" 5000 initial_state) = None.
Proof.
  split.
  - exact (proj1 (create_pipeline_result fps_link_fails "10.0.0.2" 5000
                    initial_state)).
  - exact (proj1 (create_pipeline_result identity_missing "10.0.0.2" 5000
                    initial_state)).
Defined.

(** ** Getting to the loop *)

(** X7.  With a command line that parses to mode 3 or 4: when [gst_init] ends
    the process over an argument, [main] is over with that exit code and has
    called [gst_init] alone; when [gst_init] returns, [main] gets to its
    loop exactly when the first pipeline can be built, and when it cannot
    [main] returns -1 at once: it holds no pipeline and no pad, and has made
    no main loop and attached no timeout. *)
Theorem main_reaches_loop_iff_buildable
        (argv : list string) (e : build_env) (mode : Z) :
  main_arg_loop (tl argv) 3 = ArgsDone mode ->
  mode = 3 \/ mode = 4 ->
  match gst_init_exits e argv with
  | Some exited =>
      exists s, main_startup argv e = Exit exited s /\ trace s = [EvGstInit]
  | None =>
      match main_startup argv e with
      | Run s0 =>
          buildable e = true /\ pipeline s0 = Some (next_object initial_state)
      | Exit code s =>
          buildable e = false /\ code = -1
          /\ pipeline s = None /\ kept_pads s = []
          /\ loop s = None /\ sources s = [] /\ state_timer_id s = 0%nat
      | Abort _ => False
      end
  end.
Proof.
  intros Hargs Hmode. rewrite main_startup_eq, Hargs.
  assert (Hm : negb (mode =? 3)%Z && negb (mode =? 4)%Z = false)
    by (destruct Hmode; subst mode; reflexivity).
  rewrite Hm.
  destruct (gst_init_exits e argv) as [ exited | ].
  { eexists. split; reflexivity. }
  set (s1 := initialised mode).
  pose proof (create_pipeline_returns e "10.0.0.2" 5000 s1) as (Hr & Hu & Hf).
  pose proof (preserves_create_pipeline
                (fun s => (loop s, sources s, state_timer_id s))
                ltac:(reflexivity) ltac:(reflexivity) ltac:(reflexivity)
                ltac:(reflexivity) e "10.0.0.2" 5000 s1) as Hfr.
  destruct (create_pipeline e "10.0.0.2" 5000 s1) as [ p s2 ].
  cbn [fst snd] in *. injection Hfr as Hl Hs Ht.
  destruct (buildable e); subst p.
  - split; [ reflexivity | ].
    rewrite (preserves_exec pipeline main_enter_loop);
      [ reflexivity | apply preserves_main_enter_loop; reflexivity ].
  - unfold kept_pads. state_simpl. rewrite Hu, Hf, Hl, Hs, Ht.
    repeat split.
Qed.

Lemma main_reaches_loop_iff_buildable_witness :
  (exists s, main_startup ["gst_cycle"; "--phase"; "4"] identity_missing
             = Exit (-1) s
             /\ loop s = None)
  /\ (exists s, main_startup ["gst_cycle"; "--gst-version"] all_fine = Exit 0 s
                /\ trace s = [EvGstInit]).
Proof.
  split.
  - pose proof (main_reaches_loop_iff_buildable
                  ["gst_cycle"; "--phase"; "4"] identity_missing 4
                  ltac:(vm_compute; reflexivity) ltac:(right; reflexivity)) as H.
    change (gst_init_exits identity_missing ["gst_cycle"; "--phase"; "4"])
      with (@None Z) in H. cbv iota in H.
    destruct (main_startup ["gst_cycle"; "--phase"; "4"] identity_missing)
      as [ code s | s | s ].
    + destruct H as (_ & -> & _ & _ & Hl & _). exists s.
      split; [ reflexivity | exact Hl ].
    + destruct H.
    + destruct H as (Hb & _). vm_compute in Hb. discriminate.
  - exact (main_reaches_loop_iff_buildable
             ["gst_cycle"; "--gst-version"] all_fine 3
             ltac:(vm_compute; reflexivity) ltac:(left; reflexivity)).
Defined.

(** ** The sampler between two samples *)

(** X8.  Between two consecutive samples, whatever else is dispatched, the rate
    logged is the number of handoffs in between divided by 5.0, for any
    number of handoffs below 2^64, also when the counter wraps around in
    between. *)
Theorem sampler_counts_handoffs_between_samples
        (window : list dispatched) (s : state) :
  well_formed s ->
  count is_fps_log window = 0%nat ->
  Z.of_nat (count is_handoff window) < UINT64_MODULUS ->
  let s' := run dispatch window (exec fps_log_cb s) in
  fps_log_cb s'
  = (true,
     set_trace
       (trace s' ++
        [EvStderr
           (LogFps (phase_label (phase s'))
              (double_div (double_of_Z (Z.of_nat (count is_handoff window)))
                          five))])
       (set_last_frame_count (frame_count s') s')).
Proof.
  intros Hwf Hno Hn s'.
  assert (Hwf1 : well_formed (exec fps_log_cb s)).
  { change (exec fps_log_cb s) with (exec (fps_log_cb ;; ret tt) s).
    apply (well_formed_dispatch DoFpsLog), Hwf. }
  assert (Hwf' : well_formed s') by (apply well_formed_run, Hwf1).
  assert (Hf' : frame_count s'
                = wrap_uint64 (frame_count s
                               + Z.of_nat (count is_handoff window))).
  { subst s'. rewrite frame_count_run by apply Hwf1. reflexivity. }
  assert (Hl' : last_frame_count s' = frame_count s).
  { subst s'. rewrite last_frame_count_run by exact Hno. reflexivity. }
  assert (Hdiff : wrap_uint64 (frame_count s' - last_frame_count s')
                  = Z.of_nat (count is_handoff window)).
  { rewrite Hf', Hl'. unfold wrap_uint64.
    rewrite Zminus_mod_idemp_l.
    replace (frame_count s + Z.of_nat (count is_handoff window) - frame_count s)
      with (Z.of_nat (count is_handoff window)) by lia.
    apply Z.mod_small. lia. }
  rewrite fps_log_cb_eq, Hdiff. destruct Hwf' as (-> & _ & _). reflexivity.
Qed.

Lemma sampler_counts_handoffs_between_samples_witness :
  let s' := run dispatch [DoHandoff; DoStateMachine all_fine; DoHandoff; DoHandoff]
                (exec fps_log_cb counter_at_max) in
  fst (fps_log_cb s') = true
  /\ frame_count s' = 2.
Proof.
  intro s'.
  assert (Hwf : well_formed counter_at_max).
  { repeat split; vm_compute; congruence. }
  pose proof (sampler_counts_handoffs_between_samples
                [DoHandoff; DoStateMachine all_fine; DoHandoff; DoHandoff]
                counter_at_max Hwf eq_refl eq_refl) as H.
  cbv zeta in H. fold s' in H. rewrite H. split; [ reflexivity | ].
  vm_compute. reflexivity.
Defined.

(** ** The bus watch *)

Lemma set_trace_same s : set_trace (trace s ++ []) s = s.
Proof. destruct s. unfold set_trace. cbn. rewrite app_nil_r. reflexivity. Qed.

(** X9.  Whatever the bus delivers, [bus_cb] returns TRUE (the watch stays) and
    changes nothing but the log, by at most two lines: an error on the bus
    stops nothing, quits no loop and triggers no rebuild. *)
Theorem bus_cb_only_logs (msg : GstMessage) (s : state) :
  exists lines,
    bus_cb msg s = (true, set_trace (trace s ++ map EvStderr lines) s)
    /\ (List.length lines <= 2)%nat.
Proof.
  destruct msg as [ err [ d | ] | err [ d | ] | src old_s new_s pending | ].
  - eexists [_; _]. split; [ | cbn; lia ].
    unfold bus_cb, bind, cerr, emit, modify, ret. cbn [fst snd map].
    state_simpl. rewrite <- app_assoc. reflexivity.
  - eexists [_]. split; [ reflexivity | cbn; lia ].
  - eexists [_; _]. split; [ | cbn; lia ].
    unfold bus_cb, bind, cerr, emit, modify, ret. cbn [fst snd map].
    state_simpl. rewrite <- app_assoc. reflexivity.
  - eexists [_]. split; [ reflexivity | cbn; lia ].
  - unfold bus_cb, bind, get, cerr, emit, modify, ret. cbn [fst snd].
    destruct (pipeline s) as [ pipe | ];
      [ destruct (pipe =? src)%nat | ].
    + eexists [_]. split; [ reflexivity | cbn; lia ].
    + exists []. split; [ cbn [map]; rewrite set_trace_same; reflexivity | cbn; lia ].
    + exists []. split; [ cbn [map]; rewrite set_trace_same; reflexivity | cbn; lia ].
  - exists []. split; [ | cbn; lia ].
    unfold bus_cb, bind, ret. cbn [map]. rewrite set_trace_same. reflexivity.
Qed.

(** ** What one firing asks of the engine *)

Lemma wp_emits {A} P (m : M A) (Q : A -> state -> Prop) s :
  emits P m ->
  (forall a s' evs,
      trace s' = (trace s ++ evs)%list -> forallb P evs = true -> Q a s') ->
  wp m Q s.
Proof.
  intros He H. destruct (He s) as (evs & Ht & Hq). unfold wp.
  apply (H _ _ evs); assumption.
Qed.

(** X10.  One firing of the state timer writes its tick line and the label of the
    phase it enters, then asks the engine, once, for the state of that phase
    (PLAYING, PAUSED, READY or NULL), on the pipeline held when the timer
    fired (the old one when it goes on to rebuild, null after a rebuild that
    failed), and waits for the result; nothing it does after that is another
    state request. *)
Theorem one_state_request_per_firing (e : build_env) (s : state) :
  let ph := next_phase (phase_mode s) (phase s) in
  exists rest,
    trace (exec (state_machine_cb e) s)
    = (trace s
       ++ [ EvStderr (LogStateTick (wrap_int (state_tick s + 1)) (phase_mode s));
            EvStderr (LogState (phase_label ph));
            EvSetState (pipeline s) (gst_state_of ph);
            EvGetState (pipeline s);
            EvStderr LogSetStateResult ]
       ++ rest)%list
    /\ forallb (fun ev => negb (is_set_state ev)) rest = true.
Proof.
  cbv zeta.
  set (P := fun ev => negb (is_set_state ev)).
  match goal with
  | |- exists rest, trace _ = ?R /\ ?C =>
      change (wp (state_machine_cb e)
                (fun _ s' =>
                   exists rest,
                     trace s'
                     = (trace s
                        ++ [ EvStderr (LogStateTick (wrap_int (state_tick s + 1))
                                                    (phase_mode s));
                             EvStderr (LogState
                               (phase_label (next_phase (phase_mode s) (phase s))));
                             EvSetState (pipeline s)
                               (gst_state_of (next_phase (phase_mode s) (phase s)));
                             EvGetState (pipeline s);
                             EvStderr LogSetStateResult ]
                        ++ rest)%list
                     /\ forallb P rest = true) s)
  end.
  unfold state_machine_cb.
  repeat wp_step.
  all: unfold next_phase;
    repeat match goal with
           | H : phase _ = _ |- _ => rewrite H
           | H : (phase_mode _ =? 4)%Z = _ |- _ => rewrite H
           end;
    cbn [phase_label gst_state_of].
  all: try (apply (wp_preserves trace);
            [ apply preserves_arm_next_state_timer; reflexivity
            | intros _ s1 H1 ];
            repeat wp_step; rewrite H1; state_simpl;
            exists []; split; [ rewrite <- !app_assoc; reflexivity | reflexivity ]).
  all: apply (wp_emits P);
    [ apply emits_unref_tee_req_pads; intros; reflexivity
    | intros _ s1 evs1 H1 Hq1 ].
  all: repeat wp_step.
  all: apply (wp_emits P);
    [ apply emits_create_pipeline; intros; reflexivity
    | intros p' s2 evs2 H2 Hq2 ].
  all: repeat wp_step.
  all: apply (wp_preserves trace);
    [ apply preserves_arm_next_state_timer; reflexivity | intros _ s3 H3 ].
  all: repeat wp_step.
  all: rewrite H3; state_simpl; rewrite H2; state_simpl; rewrite H1; state_simpl.
  all: exists (evs1 ++ EvUnrefPipeline (pipeline s1) :: evs2)%list.
  all: split;
    [ rewrite <- !app_assoc; reflexivity
    | rewrite forallb_app; cbn [forallb]; rewrite Hq1, Hq2; reflexivity ].
Qed.

(** * The NV12 to RGB converter *)

Lemma clamp_byte_range v : 0 <= clamp_byte v <= 255.
Proof.
  unfold clamp_byte.
  destruct (v <? 0)%Z eqn:E1.
  - cbn. lia.
  - destruct (v >? 255)%Z eqn:E2; [ lia | ].
    apply Z.ltb_ge in E1. rewrite Z.gtb_ltb in E2. apply Z.ltb_ge in E2. lia.
Qed.

Lemma clamp_byte_id v : 0 <= v <= 255 -> clamp_byte v = v.
Proof.
  intro H. unfold clamp_byte.
  destruct (v <? 0)%Z eqn:E1; [ apply Z.ltb_lt in E1; lia | ].
  destruct (v >? 255)%Z eqn:E2; [ | reflexivity ].
  rewrite Z.gtb_ltb in E2. apply Z.ltb_lt in E2. lia.
Qed.

Lemma clamp_byte_monotone v1 v2 : v1 <= v2 -> clamp_byte v1 <= clamp_byte v2.
Proof.
  intro H. unfold clamp_byte.
  destruct (v1 <? 0)%Z eqn:A1; destruct (v2 <? 0)%Z eqn:A2;
    try apply Z.ltb_lt in A1; try apply Z.ltb_ge in A1;
    try apply Z.ltb_lt in A2; try apply Z.ltb_ge in A2;
    try lia.
  - cbn. destruct (v2 >? 255)%Z; lia.
  - destruct (v1 >? 255)%Z eqn:B1; destruct (v2 >? 255)%Z eqn:B2;
      rewrite Z.gtb_ltb in B1, B2;
      try apply Z.ltb_lt in B1; try apply Z.ltb_ge in B1;
      try apply Z.ltb_lt in B2; try apply Z.ltb_ge in B2; lia.
Qed.

Lemma yuv_to_rgb_range Y U V :
  Forall (fun b => 0 <= b <= 255) (yuv_to_rgb Y U V)
  /\ List.length (yuv_to_rgb Y U V) = 3%nat.
Proof.
  unfold yuv_to_rgb. split; [ | reflexivity ].
  repeat constructor; apply clamp_byte_range.
Qed.

(** ** The buffer written *)

Lemma update_length buf : forall n v,
  List.length (update buf n v) = List.length buf.
Proof.
  induction buf as [ | b buf IH ]; intros [ | n ] v; cbn [update List.length];
    try reflexivity.
  rewrite IH. reflexivity.
Qed.

Lemma update_nth_same buf : forall n v d,
  (n < List.length buf)%nat -> nth n (update buf n v) d = v.
Proof.
  induction buf as [ | b buf IH ]; intros [ | n ] v d H; cbn [List.length] in H;
    try lia; cbn [update nth]; [ reflexivity | ].
  apply IH. lia.
Qed.

Lemma update_nth_other buf : forall n m v d,
  m <> n -> nth m (update buf n v) d = nth m buf d.
Proof.
  induction buf as [ | b buf IH ]; intros [ | n ] [ | m ] v d H;
    cbn [update nth]; try reflexivity; try lia.
  apply IH. lia.
Qed.

Lemma write_byte_some buf index v buf' :
  write_byte buf index v = Some buf' ->
  0 <= index < Z.of_nat (List.length buf)
  /\ buf' = update buf (Z.to_nat index) v.
Proof.
  unfold write_byte.
  destruct (index <? 0)%Z eqn:E1; [ discriminate | ].
  destruct (Z.of_nat (List.length buf) <=? index)%Z eqn:E2; [ discriminate | ].
  cbn [orb]. intro H. injection H as <-.
  apply Z.ltb_ge in E1. apply Z.leb_gt in E2. split; [ lia | reflexivity ].
Qed.

Lemma write_byte_defined buf index v :
  0 <= index < Z.of_nat (List.length buf) ->
  write_byte buf index v = Some (update buf (Z.to_nat index) v).
Proof.
  intro H. unfold write_byte.
  destruct (index <? 0)%Z eqn:E1; [ apply Z.ltb_lt in E1; lia | ].
  destruct (Z.of_nat (List.length buf) <=? index)%Z eqn:E2;
    [ apply Z.leb_le in E2; lia | reflexivity ].
Qed.

Lemma in_int_spec z : in_int z = true <-> INT_MIN <= z <= INT_MAX.
Proof.
  unfold in_int. rewrite andb_true_iff, !Z.leb_le. reflexivity.
Qed.

(** The three stores of one pixel, the [k]-th: bytes [3k], [3k + 1] and
    [3k + 2] of the buffer, which must have them, and no other. *)
Lemma store_pixel_some buf w i j r g b buf' k :
  j * w + i = Z.of_nat k ->
  store_pixel buf w i j [r; g; b] = Some buf' ->
  (3 * k + 2 < List.length buf)%nat
  /\ 3 * Z.of_nat k + 2 <= INT_MAX
  /\ List.length buf' = List.length buf
  /\ nth (3 * k) buf' 0 = r
  /\ nth (3 * k + 1) buf' 0 = g
  /\ nth (3 * k + 2) buf' 0 = b
  /\ (forall n, (n < 3 * k)%nat \/ (3 * k + 2 < n)%nat ->
                nth n buf' 0 = nth n buf 0).
Proof.
  intros Hk. unfold store_pixel. rewrite Hk.
  destruct (in_int (Z.of_nat k * 3)) eqn:E1; [ | discriminate ].
  destruct (in_int (Z.of_nat k * 3 + 2)) eqn:E2; [ | discriminate ].
  cbn [andb store_from].
  apply in_int_spec in E2.
  destruct (write_byte buf (Z.of_nat k * 3) r) as [ b1 | ] eqn:W1;
    [ | discriminate ].
  destruct (write_byte b1 (Z.of_nat k * 3 + 1) g) as [ b2 | ] eqn:W2;
    [ | discriminate ].
  destruct (write_byte b2 (Z.of_nat k * 3 + 1 + 1) b) as [ b3 | ] eqn:W3;
    [ | discriminate ].
  intro H. injection H as <-.
  apply write_byte_some in W1, W2, W3.
  destruct W1 as (R1 & ->). destruct W2 as (R2 & ->). destruct W3 as (R3 & ->).
  rewrite !update_length in *.
  replace (Z.to_nat (Z.of_nat k * 3)) with (3 * k)%nat by lia.
  replace (Z.to_nat (Z.of_nat k * 3 + 1)) with (3 * k + 1)%nat by lia.
  replace (Z.to_nat (Z.of_nat k * 3 + 1 + 1)) with (3 * k + 2)%nat by lia.
  split; [ lia | ]. split; [ lia | ]. split; [ reflexivity | ].
  split; [ | split; [ | split ] ].
  - rewrite !update_nth_other by lia. apply update_nth_same. lia.
  - rewrite update_nth_other by lia. apply update_nth_same.
    rewrite update_length. lia.
  - apply update_nth_same. rewrite !update_length. lia.
  - intros n Hn. rewrite !update_nth_other by lia. reflexivity.
Qed.

Lemma store_pixel_defined buf w i j r g b :
  0 <= (j * w + i) * 3 ->
  (j * w + i) * 3 + 2 <= INT_MAX ->
  (j * w + i) * 3 + 2 < Z.of_nat (List.length buf) ->
  exists buf',
    store_pixel buf w i j [r; g; b] = Some buf'
    /\ List.length buf' = List.length buf.
Proof.
  intros H0 H1 H2. unfold store_pixel.
  assert (E1 : in_int ((j * w + i) * 3) = true)
    by (apply in_int_spec; unfold INT_MIN, INT_MAX in *; lia).
  assert (E2 : in_int ((j * w + i) * 3 + 2) = true)
    by (apply in_int_spec; unfold INT_MIN, INT_MAX in *; lia).
  rewrite E1, E2. cbn [andb store_from].
  rewrite write_byte_defined by lia.
  rewrite write_byte_defined by (rewrite update_length; lia).
  rewrite write_byte_defined by (rewrite !update_length; lia).
  eexists. split; [ reflexivity | ]. rewrite !update_length. reflexivity.
Qed.

(** ** The pixels in the order of the two loops *)

Lemma nv12_coordinates_length width height :
  List.length (nv12_coordinates width height)
  = (Z.to_nat height * Z.to_nat width)%nat.
Proof.
  unfold nv12_coordinates. generalize 0%nat at 2.
  induction (Z.to_nat height) as [ | h IH ]; intro start; [ reflexivity | ].
  cbn [seq flat_map]. rewrite length_app, length_map, length_seq, IH. lia.
Qed.

Lemma nv12_row_nth (W j p : nat) c :
  nth_error (map (fun i => (Z.of_nat i, Z.of_nat j)) (seq 0 W)) p = Some c ->
  (p < W)%nat /\ c = (Z.of_nat p, Z.of_nat j).
Proof.
  intro H.
  assert (Hp : (p < W)%nat).
  { assert (Hs : nth_error (map (fun i => (Z.of_nat i, Z.of_nat j)) (seq 0 W)) p
                 <> None) by congruence.
    apply nth_error_Some in Hs. rewrite length_map, length_seq in Hs. exact Hs. }
  split; [ exact Hp | ].
  rewrite nth_error_map, nth_error_seq in H.
  destruct (p <? W)%nat eqn:E; [ | apply Nat.ltb_ge in E; lia ].
  cbn in H. injection H as <-. reflexivity.
Qed.

(** The pixel at place [p] of the walk is pixel number [p]: its
    [j * width + i] is [p]. *)
Lemma nv12_rows_nth (W : nat) H : forall j0 p c,
  nth_error (flat_map (fun j => map (fun i => (Z.of_nat i, Z.of_nat j)) (seq 0 W))
                      (seq j0 H)) p = Some c ->
  snd c * Z.of_nat W + fst c = Z.of_nat (j0 * W + p)
  /\ 0 <= fst c < Z.of_nat W
  /\ Z.of_nat j0 <= snd c < Z.of_nat (j0 + H).
Proof.
  induction H as [ | H IH ]; intros j0 p c Hc.
  - destruct p; discriminate.
  - cbn [seq flat_map] in Hc.
    destruct (Nat.lt_ge_cases p W) as [ Hp | Hp ].
    + rewrite nth_error_app1 in Hc by (rewrite length_map, length_seq; exact Hp).
      apply nv12_row_nth in Hc. destruct Hc as (_ & ->). cbn [fst snd].
      split; [ nia | lia ].
    + rewrite nth_error_app2 in Hc by (rewrite length_map, length_seq; exact Hp).
      rewrite length_map, length_seq in Hc.
      destruct (IH _ _ _ Hc) as (H1 & H2 & H3).
      split; [ rewrite H1; nia | lia ].
Qed.

Lemma nv12_rows_at (W : nat) H : forall j0 i j,
  (i < W)%nat -> (j < H)%nat ->
  nth_error (flat_map (fun j => map (fun i => (Z.of_nat i, Z.of_nat j)) (seq 0 W))
                      (seq j0 H)) (j * W + i)
  = Some (Z.of_nat i, Z.of_nat (j0 + j)).
Proof.
  induction H as [ | H IH ]; intros j0 i j Hi Hj; [ lia | ].
  cbn [seq flat_map]. destruct j as [ | j ].
  - rewrite nth_error_app1 by (rewrite length_map, length_seq; exact Hi).
    cbn [Nat.mul Nat.add].
    rewrite nth_error_map, nth_error_seq.
    destruct (i <? W)%nat eqn:E; [ | apply Nat.ltb_ge in E; lia ].
    cbn. rewrite Nat.add_0_r. reflexivity.
  - rewrite nth_error_app2 by (rewrite length_map, length_seq; lia).
    rewrite length_map, length_seq.
    replace (S j * W + i - W)%nat with (j * W + i)%nat by lia.
    rewrite IH by lia. replace (S j0 + j)%nat with (j0 + S j)%nat by lia.
    reflexivity.
Qed.

Lemma nv12_coordinates_nth width height p c :
  nth_error (nv12_coordinates width height) p = Some c ->
  snd c * width + fst c = Z.of_nat p
  /\ 0 <= fst c < width /\ 0 <= snd c < height.
Proof.
  unfold nv12_coordinates. intro H.
  destruct (nv12_rows_nth _ _ _ _ _ H) as (H1 & H2 & H3).
  cbn [Nat.mul Nat.add] in H1.
  assert (Hw : Z.of_nat (Z.to_nat width) = width) by lia.
  rewrite Hw in *. split; [ exact H1 | ]. split; [ exact H2 | lia ].
Qed.

Lemma nv12_coordinates_at width height i j :
  0 <= i < width -> 0 <= j < height ->
  nth_error (nv12_coordinates width height) (Z.to_nat (j * width + i))
  = Some (i, j).
Proof.
  intros Hi Hj. unfold nv12_coordinates.
  replace (Z.to_nat (j * width + i))
    with (Z.to_nat j * Z.to_nat width + Z.to_nat i)%nat by nia.
  rewrite nv12_rows_at by lia.
  cbn [Nat.add]. rewrite !Z2Nat.id by lia. reflexivity.
Qed.

(** ** The two loops *)

Lemma nv12_fold_none nv12 w h cs :
  fold_left (nv12_step nv12 w h) cs None = None.
Proof. induction cs as [ | c cs IH ]; [ reflexivity | exact IH ]. Qed.

Lemma nv12_pixel_at_some nv12 w h i j px :
  nv12_pixel_at nv12 w h i j = Some px ->
  exists Y U V,
    px = yuv_to_rgb Y U V
    /\ read_byte nv12 (j * w + i) = Some Y
    /\ read_byte nv12 (w * h + (Z.quot j 2 * w + Z.land i (Z.lnot 1))) = Some U
    /\ read_byte nv12 (w * h + (Z.quot j 2 * w + Z.land i (Z.lnot 1)) + 1)
       = Some V.
Proof.
  unfold nv12_pixel_at.
  destruct (in_int (j * w) && in_int (j * w + i) && in_int (Z.quot j 2 * w)
            && in_int (Z.quot j 2 * w + Z.land i (Z.lnot 1))
            && in_int (Z.quot j 2 * w + Z.land i (Z.lnot 1) + 1));
    [ | discriminate ].
  destruct (read_byte nv12 (j * w + i)) as [ Y | ]; [ | discriminate ].
  destruct (read_byte nv12 (w * h + (Z.quot j 2 * w + Z.land i (Z.lnot 1))))
    as [ U | ]; [ | discriminate ].
  destruct (read_byte nv12 (w * h + (Z.quot j 2 * w + Z.land i (Z.lnot 1)) + 1))
    as [ V | ]; [ | discriminate ].
  intro H. injection H as <-. exists Y, U, V. repeat split.
Qed.

(** What the loops leave in the buffer, from pixel number [k0] on. *)
Lemma nv12_fold_written nv12 w h cs : forall k0 buf buf',
  (forall p c, nth_error cs p = Some c ->
               snd c * w + fst c = Z.of_nat (k0 + p)) ->
  fold_left (nv12_step nv12 w h) cs (Some buf) = Some buf' ->
  List.length buf' = List.length buf
  /\ (cs = []
      \/ (3 * (k0 + List.length cs) <= List.length buf)%nat
         /\ 3 * Z.of_nat (k0 + List.length cs) - 1 <= INT_MAX)
  /\ (forall n, (n < 3 * k0)%nat \/ (3 * (k0 + List.length cs) <= n)%nat ->
                nth n buf' 0 = nth n buf 0)
  /\ (forall p c, nth_error cs p = Some c ->
        exists px,
          nv12_pixel_at nv12 w h (fst c) (snd c) = Some px
          /\ List.length px = 3%nat
          /\ Forall (fun b => 0 <= b <= 255) px
          /\ forall d, (d < 3)%nat ->
                       nth (3 * (k0 + p) + d) buf' 0 = nth d px 0).
Proof.
  induction cs as [ | c cs IH ]; intros k0 buf buf' Hnum H.
  - injection H as <-. split; [ reflexivity | ]. split; [ left; reflexivity | ].
    split; [ reflexivity | ]. intros [ | p ] c Hc; discriminate.
  - cbn [fold_left nv12_step] in H.
    destruct (nv12_pixel_at nv12 w h (fst c) (snd c)) as [ px | ] eqn:Hpx;
      [ | rewrite nv12_fold_none in H; discriminate ].
    destruct (nv12_pixel_at_some _ _ _ _ _ _ Hpx) as (Y & U & V & Epx & _).
    destruct (store_pixel buf w (fst c) (snd c) px) as [ buf1 | ] eqn:Hst;
      [ | rewrite nv12_fold_none in H; discriminate ].
    pose proof (Hnum 0%nat c eq_refl) as Hk. rewrite Nat.add_0_r in Hk.
    pose proof (yuv_to_rgb_range Y U V) as (Hrange & _).
    rewrite <- Epx in Hrange.
    assert (E3 : exists r g b, px = [r; g; b])
      by (rewrite Epx; unfold yuv_to_rgb; eexists _, _, _; reflexivity).
    destruct E3 as (r & g & b & E3). rewrite E3 in Hst.
    destruct (store_pixel_some _ _ _ _ _ _ _ _ _ Hk Hst)
      as (S1 & S2 & S3 & Sr & Sg & Sb & Sother).
    destruct (IH (S k0) buf1 buf'
                 (fun p c' Hc' =>
                    eq_trans (Hnum (S p) c' Hc')
                             (f_equal Z.of_nat (Nat.add_succ_r k0 p)))
                 H)
      as (I1 & I2 & I3 & I4).
    cbn [List.length].
    split; [ congruence | ]. split; [ | split ].
    + right. destruct I2 as [ -> | (I2 & I2') ].
      * cbn [List.length]. split; lia.
      * split; lia.
    + intros n Hn. rewrite I3 by lia. apply Sother. lia.
    + intros [ | p ] c' Hc'.
      * injection Hc' as <-. exists px.
        split; [ exact Hpx | ]. split; [ rewrite E3; reflexivity | ].
        split; [ exact Hrange | ].
        intros d Hd. rewrite I3 by lia. rewrite Nat.add_0_r, E3.
        destruct d as [ | [ | [ | d ] ] ]; try lia; cbn [nth].
        -- rewrite Nat.add_0_r. exact Sr.
        -- exact Sg.
        -- exact Sb.
      * destruct (I4 p c' Hc') as (px' & P1 & P2 & P3 & P4).
        exists px'. split; [ exact P1 | ]. split; [ exact P2 | ].
        split; [ exact P3 | ].
        intros d Hd. replace (k0 + S p)%nat with (S k0 + p)%nat by lia.
        apply P4, Hd.
Qed.

(** X11.  Where [nv12_to_rgb] is defined (every read inside the input, every
    store inside [rgb], every [int] it computes an [int]), [rgb] keeps its
    length and has room for three bytes for each pixel, which are the first
    [3 * width * height] of it; each of them is in 0..255; what lies behind
    them is left as it was; the three bytes of the pixel at column [i] of
    row [j] are at [(j * width + i) * 3] and are the R, G and B made of the
    bytes read for it; and, with a pixel to convert at all, the index of the
    last store, [3 * width * height - 1], is an [int]. *)
Theorem nv12_to_rgb_output
        (nv12 rgb : list Z) (width height : Z) (rgb' : list Z) :
  nv12_to_rgb nv12 rgb width height = Some rgb' ->
  let bytes := (3 * (Z.to_nat height * Z.to_nat width))%nat in
  List.length rgb' = List.length rgb
  /\ (bytes <= List.length rgb)%nat
  /\ (forall n, (n < bytes)%nat -> 0 <= nth n rgb' 0 <= 255)
  /\ (forall n, (bytes <= n)%nat -> nth n rgb' 0 = nth n rgb 0)
  /\ (forall i j,
         0 <= i < width -> 0 <= j < height ->
         exists px,
           nv12_pixel_at nv12 width height i j = Some px
           /\ List.length px = 3%nat
           /\ forall d, (d < 3)%nat ->
                nth (Z.to_nat ((j * width + i) * 3) + d) rgb' 0 = nth d px 0)
  /\ (0 < width -> 0 < height -> 3 * width * height - 1 <= INT_MAX).
Proof.
  unfold nv12_to_rgb.
  destruct (in_int (width * height)); [ | discriminate ].
  intro H.
  destruct (nv12_fold_written nv12 width height
              (nv12_coordinates width height) 0%nat rgb rgb'
              (fun p c Hc => proj1 (nv12_coordinates_nth _ _ _ _ Hc)) H)
    as (H1 & H2 & H3 & H4).
  rewrite nv12_coordinates_length in *. cbn [Nat.add] in *.
  cbv zeta.
  split; [ exact H1 | ]. split; [ | split; [ | split; [ | split ] ] ].
  - destruct H2 as [ H2 | (H2 & _) ]; [ | exact H2 ].
    apply (f_equal (@List.length _)) in H2.
    rewrite nv12_coordinates_length in H2. cbn [List.length] in H2. lia.
  - intros n Hn.
    pose proof (Nat.div_mod_eq n 3) as Hdm.
    pose proof (Nat.mod_upper_bound n 3 ltac:(lia)) as Hm.
    destruct (nth_error (nv12_coordinates width height) (n / 3)) as [ c | ] eqn:Hc.
    + destruct (H4 _ _ Hc) as (px & _ & Hlen & Hrange & Hat).
      rewrite Hdm, (Hat _ Hm).
      rewrite Forall_forall in Hrange. apply Hrange, nth_In. lia.
    + apply nth_error_None in Hc. rewrite nv12_coordinates_length in Hc. lia.
  - intros n Hn. apply H3. right. exact Hn.
  - intros i j Hi Hj.
    destruct (H4 _ _ (nv12_coordinates_at width height i j Hi Hj))
      as (px & P1 & P2 & _ & P4).
    exists px. split; [ exact P1 | ]. split; [ exact P2 | ].
    intros d Hd. rewrite <- (P4 d Hd). f_equal. nia.
  - intros Hw Hh. destruct H2 as [ H2 | (_ & H2) ].
    + apply (f_equal (@List.length _)) in H2.
      rewrite nv12_coordinates_length in H2. cbn [List.length] in H2. nia.
    + nia.
Qed.

Lemma nv12_to_rgb_output_witness :
  nv12_to_rgb [16; 235; 81; 145; 128; 128] (repeat 7 13) 2 2
  = Some [0; 0; 0; 255; 255; 255; 76; 76; 76; 150; 150; 150; 7]
  /\ (forall n, (n < 12)%nat ->
        0 <= nth n [0; 0; 0; 255; 255; 255; 76; 76; 76; 150; 150; 150; 7] 0
          <= 255).
Proof.
  assert (H : nv12_to_rgb [16; 235; 81; 145; 128; 128] (repeat 7 13) 2 2
              = Some [0; 0; 0; 255; 255; 255; 76; 76; 76; 150; 150; 150; 7])
    by (vm_compute; reflexivity).
  split; [ exact H | ].
  exact (proj1 (proj2 (proj2 (nv12_to_rgb_output _ _ 2 2 _ H)))).
Defined.

(** ** Where it reads *)

Lemma read_byte_defined buf index :
  0 <= index < Z.of_nat (List.length buf) -> read_byte buf index <> None.
Proof.
  intro H. unfold read_byte.
  destruct (index <? 0)%Z eqn:E; [ apply Z.ltb_lt in E; lia | ].
  apply nth_error_Some. lia.
Qed.

Lemma read_byte_undefined buf index :
  Z.of_nat (List.length buf) <= index -> read_byte buf index = None.
Proof.
  intro H. unfold read_byte.
  destruct (index <? 0)%Z; [ reflexivity | ].
  apply nth_error_None. lia.
Qed.

(** [i & ~1]: [i] with its last bit cleared. *)
Lemma land_lnot_1 i : Z.land i (Z.lnot 1) = 2 * (i / 2).
Proof.
  rewrite <- Z.ldiff_land.
  change 1 with (Z.ones 1) at 1.
  rewrite Z.ldiff_ones_r by lia.
  rewrite Z.shiftl_mul_pow2, Z.shiftr_div_pow2 by lia.
  change (2 ^ 1) with 2. lia.
Qed.

Lemma nv12_pixel_at_defined nv12 width height i j :
  0 <= i < width -> 0 <= j < height ->
  width * height <= INT_MAX ->
  Z.even width = true -> Z.even height = true ->
  nv12_frame_bytes width height <= Z.of_nat (List.length nv12) ->
  nv12_pixel_at nv12 width height i j <> None.
Proof.
  intros Hi Hj Hmax Hw Hh Hlen.
  apply Z.even_spec in Hw, Hh. destruct Hw as (a & ->). destruct Hh as (b & ->).
  unfold nv12_frame_bytes in Hlen.
  replace (2 * a * (2 * b) * 3) with (2 * (a * b * 6)) in Hlen by lia.
  rewrite Z.quot_div_nonneg in Hlen by nia.
  replace (2 * (a * b * 6) / 2) with (a * b * 6) in Hlen
    by (symmetry; rewrite Z.mul_comm; apply Z.div_mul; lia).
  unfold nv12_pixel_at. rewrite land_lnot_1.
  rewrite Z.quot_div_nonneg by lia.
  assert (Hj2 : 0 <= j / 2 <= b - 1).
  { split; [ apply Z.div_pos; lia | ].
    assert (j / 2 < b) by (apply Z.div_lt_upper_bound; lia). lia. }
  assert (Hi2 : 0 <= i / 2 <= a - 1).
  { split; [ apply Z.div_pos; lia | ].
    assert (i / 2 < a) by (apply Z.div_lt_upper_bound; lia). lia. }
  unfold INT_MAX in Hmax.
  assert (G1 : in_int (j * (2 * a)) = true)
    by (apply in_int_spec; unfold INT_MIN, INT_MAX; nia).
  assert (G2 : in_int (j * (2 * a) + i) = true)
    by (apply in_int_spec; unfold INT_MIN, INT_MAX; nia).
  assert (G3 : in_int (j / 2 * (2 * a)) = true)
    by (apply in_int_spec; unfold INT_MIN, INT_MAX; nia).
  assert (G4 : in_int (j / 2 * (2 * a) + 2 * (i / 2)) = true)
    by (apply in_int_spec; unfold INT_MIN, INT_MAX; nia).
  assert (G5 : in_int (j / 2 * (2 * a) + 2 * (i / 2) + 1) = true)
    by (apply in_int_spec; unfold INT_MIN, INT_MAX; nia).
  rewrite G1, G2, G3, G4, G5. cbn [andb].
  destruct (read_byte nv12 (j * (2 * a) + i)) eqn:EY;
    [ | exfalso; revert EY; apply read_byte_defined; nia ].
  destruct (read_byte nv12 (2 * a * (2 * b) + (j / 2 * (2 * a) + 2 * (i / 2))))
    eqn:EU; [ | exfalso; revert EU; apply read_byte_defined; nia ].
  destruct (read_byte nv12
              (2 * a * (2 * b) + (j / 2 * (2 * a) + 2 * (i / 2)) + 1))
    eqn:EV; [ | exfalso; revert EV; apply read_byte_defined; nia ].
  discriminate.
Qed.

Lemma nv12_last_pixel_undefined nv12 width height :
  0 < width -> 0 < height ->
  Z.even width && Z.even height = false ->
  Z.of_nat (List.length nv12) = nv12_frame_bytes width height ->
  nv12_pixel_at nv12 width height (width - 1) (height - 1) = None.
Proof.
  intros Hw Hh Hodd Hlen.
  assert (HV : read_byte nv12
                 (width * height
                  + (Z.quot (height - 1) 2 * width
                     + Z.land (width - 1) (Z.lnot 1)) + 1) = None).
  { apply read_byte_undefined. rewrite Hlen. unfold nv12_frame_bytes.
    rewrite land_lnot_1. rewrite !Z.quot_div_nonneg by nia.
    destruct (Z.even width) eqn:Ew.
    - (* the width is even, the height odd *)
      cbn [andb] in Hodd. rewrite <- Z.negb_odd in Hodd.
      apply negb_false_iff, Z.odd_spec in Hodd. destruct Hodd as (b & ->).
      apply Z.even_spec in Ew. destruct Ew as (a & ->).
      replace (2 * b + 1 - 1) with (b * 2) by lia. rewrite Z.div_mul by lia.
      replace (2 * a - 1) with (1 + (a - 1) * 2) by lia.
      rewrite Z.div_add by lia. change (1 / 2) with 0.
      replace (2 * a * (2 * b + 1) * 3) with ((a * (2 * b + 1) * 3) * 2) by lia.
      rewrite Z.div_mul by lia. nia.
    - rewrite <- Z.negb_odd in Ew. apply negb_false_iff, Z.odd_spec in Ew.
      destruct Ew as (a & ->).
      replace (2 * a + 1 - 1) with (a * 2) by lia. rewrite Z.div_mul by lia.
      destruct (Z.even height) eqn:Eh.
      + apply Z.even_spec in Eh. destruct Eh as (b & ->).
        replace (2 * b - 1) with (1 + (b - 1) * 2) by lia.
        rewrite Z.div_add by lia. change (1 / 2) with 0.
        replace ((2 * a + 1) * (2 * b) * 3) with (((2 * a + 1) * b * 3) * 2)
          by lia.
        rewrite Z.div_mul by lia. nia.
      + rewrite <- Z.negb_odd in Eh. apply negb_false_iff, Z.odd_spec in Eh.
        destruct Eh as (b & ->).
        replace (2 * b + 1 - 1) with (b * 2) by lia. rewrite Z.div_mul by lia.
        assert (H : (2 * a + 1) * (2 * b + 1) * 3 / 2
                    <= (2 * a + 1) * (2 * b + 1) * 3 / 2 * 2 / 2)
          by (rewrite Z.div_mul by lia; lia).
        assert (H2 : (2 * a + 1) * (2 * b + 1) * 3 / 2
                     < (2 * a + 1) * (2 * b + 1) + (b * (2 * a + 1) + 2 * a) + 1 + 1).
        { apply Z.div_lt_upper_bound; [ lia | nia ]. }
        lia. }
  unfold nv12_pixel_at. rewrite HV.
  repeat match goal with
         | |- context [ if ?c then _ else _ ] => destruct c
         | |- context [ match read_byte ?b ?i with _ => _ end ] =>
             destruct (read_byte b i)
         end; reflexivity.
Qed.

(** One pixel outside the input is enough to leave the whole conversion
    undefined. *)
Lemma nv12_fold_undefined nv12 w h cs c :
  In c cs -> nv12_pixel_at nv12 w h (fst c) (snd c) = None ->
  forall acc, fold_left (nv12_step nv12 w h) cs acc = None.
Proof.
  intros Hin Hpx. induction cs as [ | c' cs IH ]; [ destruct Hin | ].
  intros [ buf | ]; [ | apply nv12_fold_none ].
  destruct Hin as [ -> | Hin ].
  - cbn [fold_left nv12_step]. rewrite Hpx. apply nv12_fold_none.
  - cbn [fold_left]. apply IH, Hin.
Qed.

Lemma nv12_fold_defined nv12 width height cs :
  width * height * 3 <= INT_MAX ->
  Z.even width = true -> Z.even height = true ->
  nv12_frame_bytes width height <= Z.of_nat (List.length nv12) ->
  Forall (fun c => 0 <= fst c < width /\ 0 <= snd c < height) cs ->
  forall buf,
    rgb_frame_bytes width height <= Z.of_nat (List.length buf) ->
    exists buf', fold_left (nv12_step nv12 width height) cs (Some buf) = Some buf'.
Proof.
  intros Hmax Ew Eh Hlen. unfold rgb_frame_bytes.
  induction cs as [ | c cs IH ]; intros Hcs buf Hbuf.
  - exists buf. reflexivity.
  - inversion Hcs as [ | c0 cs0 (Hi & Hj) Hcs' ]; subst.
    cbn [fold_left nv12_step].
    assert (Hwh : width * height <= INT_MAX) by nia.
    pose proof (nv12_pixel_at_defined nv12 width height (fst c) (snd c)
                  Hi Hj Hwh Ew Eh Hlen) as Hdef.
    destruct (nv12_pixel_at nv12 width height (fst c) (snd c)) as [ px | ] eqn:Hpx;
      [ | congruence ].
    destruct (nv12_pixel_at_some _ _ _ _ _ _ Hpx) as (Y & U & V & -> & _).
    unfold yuv_to_rgb. cbv zeta.
    edestruct (store_pixel_defined buf width (fst c) (snd c)) as (buf1 & -> & Hl1);
      [ | | | apply (IH Hcs' buf1); rewrite Hl1; exact Hbuf ]; nia.
Qed.

(** X12.  A frame of positive size, for which the sizes the converter's [main]
    computes are [int]s ([width * height * 3] is at most [INT_MAX]).  With
    both dimensions even, at least [width * height * 3 / 2] bytes of input
    and at least [width * height * 3] bytes of [rgb], every read of
    [nv12_to_rgb] is inside the input, every store inside [rgb], and the
    conversion is defined.  With a dimension odd and the input exactly
    [width * height * 3 / 2] bytes long, which is what [main] allocates and
    reads, the V byte of the last pixel is read past the end of the
    input. *)
Theorem nv12_to_rgb_reads_in_bounds_iff_even
        (nv12 rgb : list Z) (width height : Z) :
  0 < width -> 0 < height -> width * height * 3 <= INT_MAX ->
  (Z.even width = true -> Z.even height = true ->
   nv12_frame_bytes width height <= Z.of_nat (List.length nv12) ->
   rgb_frame_bytes width height <= Z.of_nat (List.length rgb) ->
   exists rgb', nv12_to_rgb nv12 rgb width height = Some rgb')
  /\ (Z.even width && Z.even height = false ->
      Z.of_nat (List.length nv12) = nv12_frame_bytes width height ->
      nv12_to_rgb nv12 rgb width height = None).
Proof.
  intros Hw Hh Hmax. split.
  - intros Ew Eh Hlen Hrgb. unfold nv12_to_rgb.
    assert (G : in_int (width * height) = true)
      by (apply in_int_spec; unfold INT_MIN, INT_MAX in *; nia).
    rewrite G.
    apply (nv12_fold_defined nv12 width height); try assumption.
    apply Forall_forall. intros c Hc.
    apply In_nth_error in Hc. destruct Hc as (p & Hp).
    apply (nv12_coordinates_nth _ _ _ _ Hp).
  - intros Hodd Hlen. unfold nv12_to_rgb.
    destruct (in_int (width * height)); [ | reflexivity ].
    apply (nv12_fold_undefined nv12 width height _ (width - 1, height - 1)).
    + apply (nth_error_In _ (Z.to_nat ((height - 1) * width + (width - 1)))).
      apply nv12_coordinates_at; lia.
    + apply nv12_last_pixel_undefined; assumption.
Qed.

Lemma nv12_to_rgb_reads_in_bounds_iff_even_witness :
  (exists rgb', nv12_to_rgb [16; 235; 81; 145; 128; 128] (repeat 0 12) 2 2
                = Some rgb')
  /\ nv12_to_rgb [16; 235; 81; 145] (repeat 0 9) 3 1 = None.
Proof.
  split.
  - apply (proj1 (nv12_to_rgb_reads_in_bounds_iff_even
                    [16; 235; 81; 145; 128; 128] (repeat 0 12) 2 2
                    ltac:(lia) ltac:(lia) ltac:(vm_compute; discriminate)));
      [ reflexivity | reflexivity | vm_compute; discriminate
      | vm_compute; discriminate ].
  - apply (proj2 (nv12_to_rgb_reads_in_bounds_iff_even
                    [16; 235; 81; 145] (repeat 0 9) 3 1
                    ltac:(lia) ltac:(lia) ltac:(vm_compute; discriminate)));
      reflexivity.
Defined.

(** ** Grey *)

Lemma yuv_to_rgb_neutral Y :
  yuv_to_rgb Y 128 128
  = [ clamp_byte (Z.shiftr (298 * (Y - 16) + 128) 8);
      clamp_byte (Z.shiftr (298 * (Y - 16) + 128) 8);
      clamp_byte (Z.shiftr (298 * (Y - 16) + 128) 8) ].
Proof.
  unfold yuv_to_rgb. cbv zeta.
  replace (298 * (Y - 16) + 409 * (128 - 128) + 128)
    with (298 * (Y - 16) + 128) by lia.
  replace (298 * (Y - 16) - 100 * (128 - 128) - 208 * (128 - 128) + 128)
    with (298 * (Y - 16) + 128) by lia.
  replace (298 * (Y - 16) + 516 * (128 - 128) + 128)
    with (298 * (Y - 16) + 128) by lia.
  reflexivity.
Qed.

(** X13.  With neutral chroma (U = V = 128) a pixel comes out grey, R = G = B;
    the grey level does not decrease when Y grows; it is 0 for every Y up to
    16 and 255 for every Y from 235 on. *)
Theorem neutral_chroma_gives_grey (Y1 Y2 : Z) :
  Y1 <= Y2 ->
  exists g1 g2,
    yuv_to_rgb Y1 128 128 = [g1; g1; g1]
    /\ yuv_to_rgb Y2 128 128 = [g2; g2; g2]
    /\ g1 <= g2
    /\ (Y1 <= 16 -> g1 = 0)
    /\ (235 <= Y2 -> g2 = 255).
Proof.
  intro H. eexists _, _.
  split; [ apply yuv_to_rgb_neutral | ].
  split; [ apply yuv_to_rgb_neutral | ].
  rewrite !Z.shiftr_div_pow2 by lia. change (2 ^ 8) with 256.
  split; [ | split ].
  - apply clamp_byte_monotone, Z.div_le_mono; lia.
  - intro H1.
    assert (Hq : (298 * (Y1 - 16) + 128) / 256 <= 0).
    { assert ((298 * (Y1 - 16) + 128) / 256 < 1)
        by (apply Z.div_lt_upper_bound; lia). lia. }
    pose proof (clamp_byte_range ((298 * (Y1 - 16) + 128) / 256)) as Hr.
    pose proof (clamp_byte_monotone _ 0 Hq) as Hm.
    change (clamp_byte 0) with 0 in Hm. lia.
  - intro H2.
    assert (Hq : 255 <= (298 * (Y2 - 16) + 128) / 256)
      by (apply Z.div_le_lower_bound; lia).
    pose proof (clamp_byte_range ((298 * (Y2 - 16) + 128) / 256)) as Hr.
    pose proof (clamp_byte_monotone 255 _ Hq) as Hm.
    change (clamp_byte 255) with 255 in Hm. lia.
Qed.

Lemma neutral_chroma_gives_grey_witness :
  yuv_to_rgb 16 128 128 = [0; 0; 0] /\ yuv_to_rgb 235 128 128 = [255; 255; 255].
Proof.
  destruct (neutral_chroma_gives_grey 16 235 ltac:(lia))
    as (g1 & g2 & H1 & H2 & _ & Hb & Hw).
  rewrite H1, H2, (Hb ltac:(lia)), (Hw ltac:(lia)). split; reflexivity.
Defined.

(** * The value of [--phase] *)

Lemma isdigit_not_space c : isdigit c = true -> isspace c = false.
Proof.
  unfold isdigit, isspace. intro H. apply andb_prop in H. destruct H as (H1 & H2).
  apply Z.leb_le in H1, H2.
  destruct (char_code c =? 32)%Z eqn:E; [ apply Z.eqb_eq in E; lia | ].
  cbn [orb]. apply andb_false_iff. right. apply Z.leb_gt. lia.
Qed.

Lemma digits_value_app digits tail : forall acc,
  all_digits digits = true -> starts_with_digit tail = false ->
  digits_value (digits ++ tail) acc = digits_value digits acc.
Proof.
  induction digits as [ | c r IH ]; intros acc Hd Ht.
  - cbn [append digits_value]. destruct tail as [ | c t ]; [ reflexivity | ].
    cbn [starts_with_digit] in Ht. cbn [digits_value]. rewrite Ht. reflexivity.
  - cbn [all_digits] in Hd. apply andb_prop in Hd. destruct Hd as (Hc & Hr).
    cbn [append digits_value]. rewrite Hc. apply IH; assumption.
Qed.

Lemma stoi_digit_first c r :
  isdigit c = true ->
  stoi (String c r)
  = let v := digits_value (String c r) 0 in
    if (INT_MIN <=? v)%Z && (v <=? INT_MAX)%Z then Ok v else Throw out_of_range.
Proof.
  intro H. unfold stoi. cbn [skip_spaces]. rewrite (isdigit_not_space c H).
  assert (Hm : c <> "-"%char) by (intros ->; discriminate).
  assert (Hp : c <> "+"%char) by (intros ->; discriminate).
  destruct c as [ [] [] [] [] [] [] [] [] ];
    try (exfalso; apply Hm; reflexivity);
    try (exfalso; apply Hp; reflexivity);
    cbv zeta; cbn [starts_with_digit]; rewrite H; reflexivity.
Qed.

(** X14.  [std::stoi] stops at the first character that is not a digit and does
    not look at the rest: a [--phase] value made of digits followed by
    anything that does not start with a digit is taken for the number the
    digits spell, so [--phase 4x] selects the four-phase cycle as [--phase 4]
    does. *)
Theorem phase_value_read_up_to_first_non_digit
        (digits tail : string) (rest : list string) (mode : Z) :
  digits <> "" ->
  all_digits digits = true ->
  starts_with_digit tail = false ->
  stoi (digits ++ tail) = stoi digits
  /\ main_arg_loop ("--phase" :: (digits ++ tail) :: rest) mode
     = main_arg_loop ("--phase" :: digits :: rest) mode.
Proof.
  intros Hne Hd Ht.
  assert (Hs : stoi (digits ++ tail) = stoi digits).
  { destruct digits as [ | c r ]; [ contradiction | ].
    assert (Hc : isdigit c = true)
      by (cbn [all_digits] in Hd; apply andb_prop in Hd; tauto).
    change (String c r ++ tail) with (String c (r ++ tail)).
    rewrite !stoi_digit_first by exact Hc.
    change (String c (r ++ tail)) with (String c r ++ tail).
    rewrite digits_value_app by assumption. reflexivity. }
  split; [ exact Hs | ].
  rewrite !main_arg_loop_phase, Hs. reflexivity.
Qed.

Lemma phase_value_read_up_to_first_non_digit_witness :
  main_arg_loop ["--phase"; "4x"] 3 = ArgsDone 4.
Proof.
  exact (eq_trans
           (proj2 (phase_value_read_up_to_first_non_digit "4" "x" [] 3
                     ltac:(discriminate) eq_refl eq_refl))
           eq_refl).
Defined.

(** * The pipeline after a firing *)

Lemma wp_create_pipeline_returns e host port
      (Q : option GstElement -> state -> Prop) s :
  (forall s', Q (if buildable e then Some (next_object s) else None) s') ->
  wp (create_pipeline e host port) Q s.
Proof.
  intro H. destruct (create_pipeline_returns e host port s) as (H1 & _).
  unfold wp. rewrite H1. apply H.
Qed.

(** X15.  A firing that does not rebuild leaves [pipeline] as it is.  One that
    rebuilds leaves in it what [create_pipeline] returned, whatever was
    there: a new handle when the pipeline can be built, null when it cannot;
    so the rebuild that follows a failed one repairs it. *)
Theorem pipeline_after_firing (e : build_env) (s : state) :
  pipeline (exec (state_machine_cb e) s)
  = if rebuilds s
    then (if buildable e then Some (next_object s) else None)
    else pipeline s.
Proof.
  match goal with
  | |- _ = ?R => change (wp (state_machine_cb e) (fun _ s' => pipeline s' = R) s)
  end.
  unfold state_machine_cb, rebuilds.
  repeat wp_step;
    repeat match goal with
           | H : phase _ = _ |- _ => rewrite H
           | H : (phase_mode _ =? 4)%Z = _ |- _ => rewrite H
           end;
    cbn [negb].
  all: lazymatch goal with
       | |- wp (arm_next_state_timer _) _ _ =>
           apply (wp_preserves pipeline);
           [ apply preserves_arm_next_state_timer; reflexivity
           | intros _ s1 H1 ];
           repeat wp_step; rewrite H1; reflexivity
       | |- wp unref_tee_req_pads _ _ =>
           apply (wp_preserves next_object);
           [ apply preserves_unref_tee_req_pads; reflexivity
           | intros _ s1 H1 ];
           repeat wp_step;
           apply wp_create_pipeline_returns; intro s2;
           repeat wp_step;
           apply (wp_preserves pipeline);
           [ apply preserves_arm_next_state_timer; reflexivity
           | intros _ s3 H3 ];
           repeat wp_step; rewrite H3; state_simpl; rewrite H1; reflexivity
       end.
Qed.

(** * The two versions *)

Lemma sdk191_state_machine_cb_tview e s :
  tview (exec (Sdk191.state_machine_cb e) s)
  = (next_phase 4 (phase s), phase_mode s,
     wrap_int (state_tick s + 1), next_source_id s,
     ((if (state_timer_id s =? 0)%nat then sources s
       else filter (fun src => negb (src_id src =? state_timer_id s)%nat)
                   (sources s))
      ++ [ {| src_id := next_source_id s;
              src_interval := dwell (next_phase 4 (phase s));
              src_due := (clock s + dwell (next_phase 4 (phase s)))%nat;
              src_cb := CbStateMachine |} ])%list,
     S (next_source_id s), clock s).
Proof.
  match goal with
  | |- _ = ?R =>
      change (wp (Sdk191.state_machine_cb e) (fun _ s' => tview s' = R) s)
  end.
  repeat wp_step;
    repeat (apply (wp_preserves tview);
            [ apply preserves_sdk191_create_pipeline; reflexivity
            | intros ? ? ?; repeat wp_step ]);
    (apply wp_arm_next_state_timer_tview; intros sa Hsa; repeat wp_step);
    rewrite Hsa; state_simpl;
    repeat match goal with
           | H : tview _ = tview _ |- _ =>
               apply tview_fields in H; state_simpl;
               destruct H as (? & ? & ? & ? & ? & ? & ?)
           end;
    unfold next_phase;
    repeat match goal with
           | H : phase _ = _ |- _ => rewrite H
           | H : phase_mode _ = _ |- _ => rewrite H
           | H : state_tick _ = _ |- _ => rewrite H
           | H : state_timer_id _ = _ |- _ => rewrite H
           | H : sources _ = _ |- _ => rewrite H
           | H : next_source_id _ = _ |- _ => rewrite H
           | H : clock _ = _ |- _ => rewrite H
           end;
    reflexivity.
Qed.

(** X16.  In 4-phase mode a firing of the newer state machine and a firing of the
    older one (hailo-sdk191) do the same to the phase, the tick and the
    timers, whatever the engine answers to either: the newer program run
    with [--phase 4] keeps the schedule of the older one. *)
Theorem four_phase_mode_keeps_older_schedule
        (e1 e2 : build_env) (s : state) :
  phase_mode s = 4 ->
  tview (exec (state_machine_cb e1) s)
  = tview (exec (Sdk191.state_machine_cb e2) s).
Proof.
  intro H. rewrite state_machine_cb_tview, sdk191_state_machine_cb_tview, H.
  reflexivity.
Qed.

Lemma four_phase_mode_keeps_older_schedule_witness :
  phase (exec (state_machine_cb launch_fails)
              (set_phase PAUSED (set_phase_mode 4 initial_state)))
  = phase (exec (Sdk191.state_machine_cb all_fine)
                (set_phase PAUSED (set_phase_mode 4 initial_state))).
Proof.
  exact (f_equal (fun v => fst (fst (fst (fst (fst (fst v))))))
           (four_phase_mode_keeps_older_schedule launch_fails all_fine
              (set_phase PAUSED (set_phase_mode 4 initial_state)) eq_refl)).
Defined.

(** * The capture filter *)

Lemma raw_capture_stream_without_flag calls : forall fs,
  RawCapture.capture_flag fs = false -> RawCapture.stream calls fs = fs.
Proof.
  induction calls as [ | [a data] calls IH ]; intros fs H; [ reflexivity | ].
  unfold RawCapture.stream in *. cbn [fold_left fst snd].
  unfold RawCapture.transform_ip at 2. rewrite H. cbn [snd]. apply IH, H.
Qed.

Lemma raw_capture_stream_app calls1 calls2 fs :
  RawCapture.stream (calls1 ++ calls2) fs
  = RawCapture.stream calls2 (RawCapture.stream calls1 fs).
Proof. unfold RawCapture.stream. apply fold_left_app. Qed.

Lemma raw_capture_flag_kept calls : forall fs,
  RawCapture.capture_flag fs = true ->
  forallb (fun call => negb (RawCapture.unlink_ok (fst call))) calls = true ->
  RawCapture.capture_flag (RawCapture.stream calls fs) = true.
Proof.
  induction calls as [ | [a data] calls IH ]; intros fs H Hu; [ exact H | ].
  cbn [forallb fst] in Hu. apply andb_prop in Hu. destruct Hu as (Ha & Hu).
  unfold RawCapture.stream in *. cbn [fold_left fst snd].
  apply IH; [ | exact Hu ].
  unfold RawCapture.transform_ip. rewrite H. cbn [snd RawCapture.capture_flag].
  exact Ha.
Qed.

(** X17.  One flag, one frame.  With the flag file there and [fopen],
    [gst_buffer_map] and [unlink] succeeding for the buffer that meets it,
    that buffer is what [kevin_nv12.raw] holds after any stream that
    follows, the flag is gone and one line was printed: the buffers after it
    change nothing, whatever the system would answer for them.  If instead
    [unlink] fails for every buffer of a stream that can be written, the flag
    stays and the file holds the last buffer. *)
Theorem capture_takes_one_frame_per_flag
        (a : RawCapture.answers) (data : list Z)
        (later : list (RawCapture.answers * list Z)) (fs : RawCapture.files) :
  RawCapture.capture_flag fs = true ->
  RawCapture.fopen_ok a = true ->
  RawCapture.buffer_map_ok a = true ->
  (RawCapture.unlink_ok a = true ->
   RawCapture.stream ((a, data) :: later) fs
   = {| RawCapture.capture_flag := false;
        RawCapture.kevin_nv12_raw := Some data;
        RawCapture.console :=
          (RawCapture.console fs
           ++ [RawCapture.Print "Captured NV12 frame to kevin_nv12.raw"])%list |})
  /\ (RawCapture.unlink_ok a = false ->
      forallb (fun call => negb (RawCapture.unlink_ok (fst call))) later = true ->
      let fs' := RawCapture.stream (later ++ [(a, data)]) fs in
      RawCapture.capture_flag fs' = true
      /\ RawCapture.kevin_nv12_raw fs' = Some data).
Proof.
  intros Hflag Hopen Hmap. split.
  - intro Hunlink. unfold RawCapture.stream. cbn [fold_left fst snd].
    fold (RawCapture.stream later).
    rewrite raw_capture_stream_without_flag.
    + unfold RawCapture.transform_ip.
      rewrite Hflag, Hopen, Hmap, Hunlink. reflexivity.
    + unfold RawCapture.transform_ip.
      rewrite Hflag, Hunlink. reflexivity.
  - intros Hunlink Hlater fs'. subst fs'.
    rewrite raw_capture_stream_app.
    pose proof (raw_capture_flag_kept later fs Hflag Hlater) as Hkept.
    unfold RawCapture.stream at 1 3. cbn [fold_left fst snd].
    unfold RawCapture.transform_ip.
    rewrite Hkept, Hopen, Hmap, Hunlink. split; reflexivity.
Qed.

Lemma capture_takes_one_frame_per_flag_witness :
  RawCapture.kevin_nv12_raw
    (RawCapture.stream
       [ (RawCapture.all_ok, [1; 2; 3]); (RawCapture.all_ok, [4; 5; 6]) ]
       {| RawCapture.capture_flag := true;
          RawCapture.kevin_nv12_raw := None;
          RawCapture.console := [] |})
  = Some [1; 2; 3].
Proof.
  rewrite (proj1 (capture_takes_one_frame_per_flag
                    RawCapture.all_ok [1; 2; 3]
                    [ (RawCapture.all_ok, [4; 5; 6]) ]
                    {| RawCapture.capture_flag := true;
                       RawCapture.kevin_nv12_raw := None;
                       RawCapture.console := [] |}
                    eq_refl eq_refl eq_refl) eq_refl).
  reflexivity.
Defined.

(** * The runner's command line *)

(** ** Words *)

Lemma string_append_nil_r s : s ++ "" = s.
Proof. induction s as [ | c s IH ]; [ reflexivity | ]. cbn. rewrite IH. reflexivity. Qed.

Lemma string_append_assoc s1 s2 s3 : (s1 ++ s2) ++ s3 = s1 ++ (s2 ++ s3).
Proof. induction s1 as [ | c s1 IH ]; [ reflexivity | ]. cbn. rewrite IH. reflexivity. Qed.

Lemma words_from_word word : forall s current,
  no_white_space word = true ->
  MediaRunner.words_from (word ++ s) current
  = MediaRunner.words_from s (current ++ word).
Proof.
  induction word as [ | c word IH ]; intros s current H.
  - cbn [append]. rewrite string_append_nil_r. reflexivity.
  - cbn [no_white_space] in H. apply andb_prop in H. destruct H as (Hc & Hw).
    apply negb_true_iff in Hc.
    cbn [append MediaRunner.words_from]. rewrite Hc, IH by exact Hw.
    rewrite string_append_assoc. reflexivity.
Qed.

Lemma words_of_joined tokens :
  Forall (fun t => t <> "" /\ no_white_space t = true) tokens ->
  MediaRunner.words (String.concat " " tokens) = tokens.
Proof.
  unfold MediaRunner.words. induction tokens as [ | t tokens IH ]; intro H.
  - reflexivity.
  - inversion H as [ | ? ? (Hne & Hw) Hrest ]; subst.
    destruct tokens as [ | t' tokens ].
    + cbn [String.concat]. rewrite <- (string_append_nil_r t) at 1.
      rewrite words_from_word by exact Hw. cbn [append MediaRunner.words_from].
      destruct t; [ contradiction | reflexivity ].
    + change (String.concat " " (t :: t' :: tokens))
        with (t ++ String " " (String.concat " " (t' :: tokens))).
      rewrite words_from_word by exact Hw.
      cbn [append MediaRunner.words_from]. change (isspace " ") with true.
      cbv iota. rewrite (IH Hrest).
      destruct t; [ contradiction | reflexivity ].
Qed.

(** X18.  A command line written as words with single spaces between them comes
    back from [get_string_vector_from_commandline] as the same words in the
    same order, less those that are a lone backslash. *)
Theorem commandline_splits_back_into_its_words (tokens : list string) :
  Forall (fun t => t <> "" /\ no_white_space t = true) tokens ->
  MediaRunner.get_string_vector_from_commandline (String.concat " " tokens)
  = filter (fun t => negb (t =? "\")%string) tokens.
Proof.
  intro H. unfold MediaRunner.get_string_vector_from_commandline.
  rewrite words_of_joined by exact H. reflexivity.
Qed.

Lemma commandline_splits_back_into_its_words_witness :
  MediaRunner.get_string_vector_from_commandline "gst-launch-1.0 -e \ fakesrc"
  = ["gst-launch-1.0"; "-e"; "fakesrc"].
Proof.
  apply (commandline_splits_back_into_its_words
           ["gst-launch-1.0"; "-e"; "\"; "fakesrc"]).
  repeat constructor; discriminate.
Defined.

(** ** Options *)

Lemma runner_options_of_pairs pairs : forall config,
  forallb runner_option pairs = true ->
  MediaRunner.options (option_words pairs) config
  = MediaRunner.OptionsDone (fold_left set_runner_option pairs config).
Proof.
  induction pairs as [ | [name value] pairs IH ]; intros config H;
    [ reflexivity | ].
  cbn [forallb] in H. apply andb_prop in H. destruct H as (Hp & H).
  cbn [option_words flat_map fst snd app MediaRunner.options fold_left].
  fold (option_words pairs). unfold runner_option in Hp.
  unfold set_runner_option at 2.
  destruct (name =? "--profile")%string; [ apply IH, H | ].
  destruct (name =? "--udp-host")%string; [ apply IH, H | ].
  cbn [orb] in Hp. apply andb_prop in Hp. destruct Hp as (-> & Hv).
  destruct (stoi value); [ apply IH, H | discriminate ].
Qed.

Lemma set_runner_option_eq config name value :
  set_runner_option config (name, value)
  = if (name =? "--profile")%string
    then MediaRunner.set_profile_name value config
    else if (name =? "--udp-host")%string
    then MediaRunner.set_udp_host value config
    else match stoi value with
         | Ok v => MediaRunner.set_udp_port v config
         | Throw _ => config
         end.
Proof. reflexivity. Qed.

Lemma runner_options_done_bounded n : forall args config config',
  (List.length args <= n)%nat ->
  MediaRunner.options args config = MediaRunner.OptionsDone config' ->
  exists pairs,
    args = option_words pairs
    /\ forallb runner_option pairs = true
    /\ config' = fold_left set_runner_option pairs config.
Proof.
  induction n as [ | n IH ]; intros args config config' Hn H.
  - destruct args; [ | cbn in Hn; lia ].
    injection H as <-. exists []. repeat split.
  - destruct args as [ | arg [ | value rest ] ].
    + injection H as <-. exists []. repeat split.
    + discriminate.
    + cbn [MediaRunner.options] in H. cbn [List.length] in Hn.
      destruct (arg =? "--profile")%string eqn:E1.
      { destruct (IH rest _ _ ltac:(lia) H) as (pairs & -> & Hp & ->).
        exists ((arg, value) :: pairs).
        cbn [option_words flat_map fst snd app forallb fold_left].
        unfold runner_option at 1. rewrite set_runner_option_eq, E1.
        repeat split; exact Hp. }
      destruct (arg =? "--udp-host")%string eqn:E2.
      { destruct (IH rest _ _ ltac:(lia) H) as (pairs & -> & Hp & ->).
        exists ((arg, value) :: pairs).
        cbn [option_words flat_map fst snd app forallb fold_left].
        unfold runner_option at 1. rewrite set_runner_option_eq, E1, E2.
        repeat split; exact Hp. }
      destruct (arg =? "--udp-port")%string eqn:E3; [ | discriminate ].
      destruct (stoi value) as [ v | ex ] eqn:Ev; [ | discriminate ].
      destruct (IH rest _ _ ltac:(lia) H) as (pairs & -> & Hp & ->).
      exists ((arg, value) :: pairs).
      cbn [option_words flat_map fst snd app forallb fold_left].
      unfold runner_option at 1. rewrite set_runner_option_eq.
      rewrite E1, E2, E3, Ev. repeat split; exact Hp.
Qed.

(** X19.  On a command line with no help flag and no args-file flag,
    [parse_arguments] succeeds exactly when what follows the config path is a
    sequence of option-value pairs, each option one of [--profile],
    [--udp-host] and [--udp-port], the port a number [std::stoi] reads; it
    then returns the config path and the options applied from left to right
    (a later one overrides an earlier one) to the caller's configuration with
    the output directory set.  An option that comes last, without a value, is
    therefore not accepted. *)
Theorem runner_accepts_option_pairs
        (read : string -> option string) (pid prog path : string)
        (opts : list string) (config config' : MediaRunner.PipelineConfig)
        (file : string) :
  MediaRunner.scan (path :: opts) = MediaRunner.ScanNothing ->
  MediaRunner.parse_arguments read pid (prog :: path :: opts) config
  = MediaRunner.Accepted path file config'
  <-> file = ""
      /\ exists pairs,
           opts = option_words pairs
           /\ forallb runner_option pairs = true
           /\ config'
              = fold_left set_runner_option pairs
                  (MediaRunner.set_output_dir ("/tmp/medialib_gst_" ++ pid)
                                              config).
Proof.
  intro Hscan. unfold MediaRunner.parse_arguments. rewrite Hscan. split.
  - intro H.
    destruct (MediaRunner.options opts _) as [ c | ex | arg ] eqn:Ho;
      try discriminate.
    injection H as <- <-. split; [ reflexivity | ].
    apply (runner_options_done_bounded (List.length opts)); [ lia | exact Ho ].
  - intros (-> & pairs & -> & Hp & ->).
    rewrite runner_options_of_pairs by exact Hp. reflexivity.
Qed.

Lemma runner_accepts_option_pairs_witness :
  MediaRunner.parse_arguments (fun _ => None) "77"
    ["runner"; "cfg.json"; "--udp-port"; "6000"; "--udp-port"; "7000"]
    MediaRunner.default_config
  = MediaRunner.Accepted "cfg.json" ""
      {| MediaRunner.output_dir := "/tmp/medialib_gst_77";
         MediaRunner.profile_name := "";
         MediaRunner.udp_host := "10.0.0.2";
         MediaRunner.udp_port := 7000 |}.
Proof.
  apply (proj2 (runner_accepts_option_pairs (fun _ => None) "77" "runner"
                  "cfg.json" ["--udp-port"; "6000"; "--udp-port"; "7000"]
                  MediaRunner.default_config _ "" eq_refl)).
  split; [ reflexivity | ].
  exists [("--udp-port", "6000"); ("--udp-port", "7000")].
  repeat split.
Defined.

(** ** The args file *)

Lemma runner_options_help_after_pairs pairs flag rest : forall config,
  flag = "-h" \/ flag = "--help" ->
  forallb runner_option pairs = true ->
  MediaRunner.options (option_words pairs ++ flag :: rest) config
  = MediaRunner.OptionsUnknown flag.
Proof.
  intros config Hflag. revert config.
  induction pairs as [ | [name value] pairs IH ]; intros config H.
  - cbn [option_words flat_map app].
    destruct Hflag; subst flag; destruct rest; reflexivity.
  - cbn [forallb] in H. apply andb_prop in H. destruct H as (Hp & H).
    cbn [option_words flat_map fst snd app MediaRunner.options].
    fold (option_words pairs). unfold runner_option in Hp.
    destruct (name =? "--profile")%string; [ apply IH, H | ].
    destruct (name =? "--udp-host")%string; [ apply IH, H | ].
    cbn [orb] in Hp. apply andb_prop in Hp. destruct Hp as (-> & Hv).
    destruct (stoi value); [ apply IH, H | discriminate ].
Qed.

(** X20.  With [-f] or [--args_file] on the command line and no help flag before
    it.  When the flag is the last word, [parse_arguments] builds a string
    from [argv[argc]], the null pointer.  When the file named does not open,
    or holds fewer than two words, it reads [argslist[1]] past the end of the
    list.  Otherwise only the words of the file count: any two command lines
    that name the same file give the same result.  Whatever the file holds,
    the result is never the help text with exit 0; and a help flag, [-h] or
    [--help], where the file has an option, after any number of options
    accepted with their values, is an unknown argument. *)
Theorem args_file_replaces_command_line
        (read : string -> option string) (pid prog : string)
        (args : list string) (config : MediaRunner.PipelineConfig) :
  (MediaRunner.scan args = MediaRunner.ScanFile None ->
   MediaRunner.parse_arguments read pid (prog :: args) config
   = MediaRunner.NullString)
  /\ (forall path,
         MediaRunner.scan args = MediaRunner.ScanFile (Some path) ->
         ((List.length (MediaRunner.read_args_file_to_string (read path)) < 2)%nat ->
          MediaRunner.parse_arguments read pid (prog :: args) config
          = MediaRunner.OutOfRange)
         /\ (forall prog' args',
                MediaRunner.scan args' = MediaRunner.ScanFile (Some path) ->
                MediaRunner.parse_arguments read pid (prog :: args) config
                = MediaRunner.parse_arguments read pid (prog' :: args') config)
         /\ MediaRunner.parse_arguments read pid (prog :: args) config
            <> MediaRunner.HelpExit
         /\ (forall name cfg pairs flag rest,
                flag = "-h" \/ flag = "--help" ->
                forallb runner_option pairs = true ->
                MediaRunner.read_args_file_to_string (read path)
                = (name :: cfg :: option_words pairs ++ flag :: rest)%list ->
                MediaRunner.parse_arguments read pid (prog :: args) config
                = MediaRunner.Unknown flag)).
Proof.
  assert (Hargs : forall (p : string) a path,
             MediaRunner.scan a = MediaRunner.ScanFile path ->
             exists w a', a = w :: a').
  { intros p a path H. destruct a as [ | w a' ]; [ discriminate | ].
    exists w, a'. reflexivity. }
  split; [ | intros path Hscan; split; [ | split; [ | split ] ] ].
  - intro Hscan. destruct (Hargs prog args _ Hscan) as (w & a' & ->).
    unfold MediaRunner.parse_arguments. rewrite Hscan. reflexivity.
  - intro Hlen. destruct (Hargs prog args _ Hscan) as (w & a' & ->).
    unfold MediaRunner.parse_arguments. rewrite Hscan.
    destruct (MediaRunner.read_args_file_to_string (read path))
      as [ | name [ | cfg rest ] ]; try reflexivity.
    cbn [List.length] in Hlen. lia.
  - intros prog' args' Hscan'.
    destruct (Hargs prog args _ Hscan) as (w & a' & ->).
    destruct (Hargs prog' args' _ Hscan') as (w' & a'' & ->).
    unfold MediaRunner.parse_arguments. rewrite Hscan, Hscan'. reflexivity.
  - destruct (Hargs prog args _ Hscan) as (w & a' & ->).
    unfold MediaRunner.parse_arguments. rewrite Hscan.
    destruct (MediaRunner.read_args_file_to_string (read path))
      as [ | name [ | cfg rest ] ]; try discriminate.
    destruct (MediaRunner.options rest _); discriminate.
  - intros name cfg pairs flag rest Hflag Hpairs Hwords.
    destruct (Hargs prog args _ Hscan) as (w & a' & ->).
    unfold MediaRunner.parse_arguments. rewrite Hscan, Hwords.
    rewrite runner_options_help_after_pairs by assumption. reflexivity.
Qed.

Lemma args_file_replaces_command_line_witness :
  MediaRunner.parse_arguments
    (fun _ => Some "runner cfg.json --udp-port 6000 --help --profile a")
    "77" ["runner"; "other.json"; "-f"; "args.txt"; "--help"]
    MediaRunner.default_config
  = MediaRunner.Unknown "--help"
  /\ MediaRunner.parse_arguments (fun _ => None)
       "77" ["runner"; "other.json"; "-f"; "args.txt"]
       MediaRunner.default_config
     = MediaRunner.OutOfRange.
Proof.
  split.
  - apply (proj2 (proj2 (proj2 (proj2 (args_file_replaces_command_line
                    (fun _ => Some "runner cfg.json --udp-port 6000 --help --profile a")
                    "77" "runner"
                    ["other.json"; "-f"; "args.txt"; "--help"]
                    MediaRunner.default_config) "args.txt" eq_refl)))
                 "runner" "cfg.json" [("--udp-port", "6000")] "--help"
                 ["--profile"; "a"]).
    + right. reflexivity.
    + reflexivity.
    + reflexivity.
  - apply (proj1 (proj2 (args_file_replaces_command_line
                    (fun _ => None) "77" "runner"
                    ["other.json"; "-f"; "args.txt"]
                    MediaRunner.default_config) "args.txt" eq_refl)).
    cbn. lia.
Defined.
